(** * preCICE mesh container and coupling data: a shallow embedding

    This development embeds [src/mesh/Mesh.cpp] and
    [src/cplscheme/CouplingData.hpp] and proves properties of the mesh
    container operations.

    Conventions of the embedding:
    - [double] is IEEE-754 binary64, taken from the kernel's primitive
      floats; an [Eigen::VectorXd] is a [list double];
    - a C++ reference or pointer to an element of one of the mesh's
      containers ([Vertex &], [Edge &], ...) is the position of the element
      in that container;
    - a member function that mutates the mesh is a computation in a small
      state-and-failure monad [M]; a failed [PRECICE_ASSERT], a failed
      [PRECICE_CHECK] and an out-of-range access are distinct outcomes, and
      the state component of a failed run is the state at the point of
      failure. *)

From Stdlib Require Import ZArith List Bool Floats Lia.
From stdpp Require Import base list gmap strings.

Local Open Scope Z_scope.

(** ** Outcomes and the state monad *)

Inductive outcome (A : Type) : Type :=
| Done (a : A)
| AssertionFailed
| FatalError (msg : string)
| UndefinedBehaviour
| OutOfFuel.

Arguments Done {A} a.
Arguments AssertionFailed {A}.
Arguments FatalError {A} msg.
Arguments UndefinedBehaviour {A}.
Arguments OutOfFuel {A}.

Definition M (S A : Type) : Type := S -> outcome A * S.

Definition ret {S A : Type} (a : A) : M S A := fun s => (Done a, s).

Definition bind {S A B : Type} (c : M S A) (k : A -> M S B) : M S B :=
  fun s =>
    match c s with
    | (Done a, s') => k a s'
    | (AssertionFailed, s') => (AssertionFailed, s')
    | (FatalError msg, s') => (FatalError msg, s')
    | (UndefinedBehaviour, s') => (UndefinedBehaviour, s')
    | (OutOfFuel, s') => (OutOfFuel, s')
    end.

Definition get {S : Type} : M S S := fun s => (Done s, s).
Definition put {S : Type} (s : S) : M S unit := fun _ => (Done tt, s).
Definition modify {S : Type} (f : S -> S) : M S unit := fun s => (Done tt, f s).

(** [PRECICE_ASSERT(b)] and [assertion(b)]. *)
Definition PRECICE_ASSERT {S : Type} (b : bool) : M S unit :=
  fun s => if b then (Done tt, s) else (AssertionFailed, s).

(** [PRECICE_CHECK(b, msg)]: logs [msg] and aborts the run when [b] is false. *)
Definition PRECICE_CHECK {S : Type} (b : bool) (msg : string) : M S unit :=
  fun s => if b then (Done tt, s) else (FatalError msg, s).

Definition undefined {S A : Type} : M S A := fun s => (UndefinedBehaviour, s).

Notation "'let!' x ':=' c 'in' k" := (bind c (fun x => k))
  (at level 10, x pattern, c at level 100, k at level 200).
Notation "c ';;;' k" := (bind c (fun _ => k))
  (at level 100, k at level 200, right associativity).

(** A range-based [for] loop whose body runs in the monad. *)
Fixpoint forEach {S A : Type} (l : list A) (body : A -> M S unit) : M S unit :=
  match l with
  | [] => ret tt
  | x :: l' => body x ;;; forEach l' body
  end.

(** Run a computation on one component of a pair state. *)
Definition onSnd {S1 S2 A : Type} (c : M S2 A) : M (S1 * S2) A :=
  fun s =>
    match c (snd s) with
    | (r, s2) => (r, (fst s, s2))
    end.

(** ** Scalars and vectors *)

Definition double : Type := float.
Definition VectorXd : Type := list double.

(** [Eigen::VectorXd::Zero(n)]. *)
Definition VectorXd_Zero (n : nat) : VectorXd := repeat 0%float n.

(** Coefficient-wise [a + b] and [a - b] of Eigen. *)
Definition VectorXd_add (a b : VectorXd) : VectorXd := zip_with PrimFloat.add a b.
Definition VectorXd_sub (a b : VectorXd) : VectorXd := zip_with PrimFloat.sub a b.

(** [std::min(a, b)] is [(b < a) ? b : a] and [std::max(a, b)] is
    [(a < b) ? b : a]. *)
Definition std_min (a b : double) : double := if (b <? a)%float then b else a.
Definition std_max (a b : double) : double := if (a <? b)%float then b else a.

(** ** Mesh value types *)

Definition VertexRef : Type := nat.
Definition EdgeRef : Type := nat.
Definition TriangleRef : Type := nat.
Definition QuadRef : Type := nat.
Definition DataRef : Type := nat.

Record Vertex : Type := mkVertex {
  Vertex_getCoords : VectorXd;
  Vertex_getID : Z;
  Vertex_getGlobalIndex : Z;
  Vertex_isOwner : bool;
  Vertex_isTagged : bool;
  Vertex_getNormal : VectorXd
}.

(** Modelled from the spec: the constructor of [Vertex] (Vertex.hpp is not
    among the sources).  A vertex carries its coordinates, a per-mesh id, a
    global index that is valid only after partitioning, an owner flag, a
    tagged flag set only by the geometric filter, and a normal. *)
Definition Vertex_ctor (coords : VectorXd) (id : Z) : Vertex :=
  {| Vertex_getCoords := coords;
     Vertex_getID := id;
     Vertex_getGlobalIndex := -1;
     Vertex_isOwner := true;
     Vertex_isTagged := false;
     Vertex_getNormal := VectorXd_Zero (length coords) |}.

Definition Vertex_setGlobalIndex (g : Z) (v : Vertex) : Vertex :=
  {| Vertex_getCoords := Vertex_getCoords v;
     Vertex_getID := Vertex_getID v;
     Vertex_getGlobalIndex := g;
     Vertex_isOwner := Vertex_isOwner v;
     Vertex_isTagged := Vertex_isTagged v;
     Vertex_getNormal := Vertex_getNormal v |}.

Definition Vertex_setOwner (o : bool) (v : Vertex) : Vertex :=
  {| Vertex_getCoords := Vertex_getCoords v;
     Vertex_getID := Vertex_getID v;
     Vertex_getGlobalIndex := Vertex_getGlobalIndex v;
     Vertex_isOwner := o;
     Vertex_isTagged := Vertex_isTagged v;
     Vertex_getNormal := Vertex_getNormal v |}.

Definition Vertex_tag (v : Vertex) : Vertex :=
  {| Vertex_getCoords := Vertex_getCoords v;
     Vertex_getID := Vertex_getID v;
     Vertex_getGlobalIndex := Vertex_getGlobalIndex v;
     Vertex_isOwner := Vertex_isOwner v;
     Vertex_isTagged := true;
     Vertex_getNormal := Vertex_getNormal v |}.

Definition Vertex_setNormal (n : VectorXd) (v : Vertex) : Vertex :=
  {| Vertex_getCoords := Vertex_getCoords v;
     Vertex_getID := Vertex_getID v;
     Vertex_getGlobalIndex := Vertex_getGlobalIndex v;
     Vertex_isOwner := Vertex_isOwner v;
     Vertex_isTagged := Vertex_isTagged v;
     Vertex_getNormal := n |}.

(** An edge refers to its two end vertices. *)
Record Edge : Type := mkEdge {
  Edge_vertex0 : VertexRef;
  Edge_vertex1 : VertexRef;
  Edge_getID : Z;
  Edge_getNormal : VectorXd
}.

Arguments mkEdge (_ _)%_nat _%_Z _.

Definition Edge_vertex (e : Edge) (i : nat) : VertexRef :=
  match i with
  | O => Edge_vertex0 e
  | _ => Edge_vertex1 e
  end.

Definition Edge_setNormal (n : VectorXd) (e : Edge) : Edge :=
  {| Edge_vertex0 := Edge_vertex0 e;
     Edge_vertex1 := Edge_vertex1 e;
     Edge_getID := Edge_getID e;
     Edge_getNormal := n |}.

(** A triangle refers to its three edges. *)
Record Triangle : Type := mkTriangle {
  Triangle_edge0 : EdgeRef;
  Triangle_edge1 : EdgeRef;
  Triangle_edge2 : EdgeRef;
  Triangle_getID : Z;
  Triangle_getNormal : VectorXd
}.

Arguments mkTriangle (_ _ _)%_nat _%_Z _.

Definition Triangle_edge (t : Triangle) (i : nat) : EdgeRef :=
  match i with
  | O => Triangle_edge0 t
  | S O => Triangle_edge1 t
  | _ => Triangle_edge2 t
  end.

(** A quad refers to its four edges. *)
Record Quad : Type := mkQuad {
  Quad_edge0 : EdgeRef;
  Quad_edge1 : EdgeRef;
  Quad_edge2 : EdgeRef;
  Quad_edge3 : EdgeRef;
  Quad_getID : Z;
  Quad_getNormal : VectorXd
}.

Arguments mkQuad (_ _ _ _)%_nat _%_Z _.

Definition Quad_edge (q : Quad) (i : nat) : EdgeRef :=
  match i with
  | O => Quad_edge0 q
  | S O => Quad_edge1 q
  | S (S O) => Quad_edge2 q
  | _ => Quad_edge3 q
  end.

(** A data field: a flat value buffer, a name, an id and the number of
    components per vertex. *)
Record Data : Type := mkData {
  Data_values : VectorXd;
  Data_getName : string;
  Data_getID : Z;
  Data_getDimensions : Z
}.

Definition Data_setValues (vals : VectorXd) (d : Data) : Data :=
  {| Data_values := vals;
     Data_getName := Data_getName d;
     Data_getID := Data_getID d;
     Data_getDimensions := Data_getDimensions d |}.

(** Modelled from the spec: [BoundingBox] (its header is not among the
    sources): an axis-aligned box, one (min, max) pair per dimension. *)
Record BoundingBox : Type := mkBoundingBox {
  BoundingBox_bounds : list (double * double)
}.

(** The largest finite double and its negation,
    [std::numeric_limits<double>::max()] and [lowest()]. *)
Definition DBL_MAX : double := 0x1.fffffffffffffp+1023%float.
Definition DBL_LOWEST : double := (- 0x1.fffffffffffffp+1023)%float.

(** Modelled from the spec: the initial box of [BoundingBox(dimensions)],
    empty in every dimension. *)
Definition BoundingBox_ctor (dimensions : Z) : BoundingBox :=
  {| BoundingBox_bounds := repeat (DBL_MAX, DBL_LOWEST) (Z.to_nat dimensions) |}.

(** Modelled from the spec: [BoundingBox::expandBy(vertex)], expansion of
    the box by one vertex: in every dimension the minimum and the maximum
    are updated with the vertex's coordinate. *)
Definition BoundingBox_expandBy (bb : BoundingBox) (v : Vertex) : BoundingBox :=
  {| BoundingBox_bounds :=
       imap (fun d b =>
               match Vertex_getCoords v !! d with
               | Some c => (std_min c (fst b), std_max c (snd b))
               | None => b
               end)
            (BoundingBox_bounds bb) |}.

(** ** The mesh *)

Record Mesh : Type := mkMesh {
  _name : string;
  _dimensions : Z;
  _flipNormals : bool;
  _id : Z;
  _vertices : list Vertex;
  _edges : list Edge;
  _triangles : list Triangle;
  _quads : list Quad;
  _data : list Data;
  _manageVertexIDs : Z;
  _manageEdgeIDs : Z;
  _manageTriangleIDs : Z;
  _manageQuadIDs : Z;
  _boundingBox : BoundingBox
}.

Definition set_vertices (l : list Vertex) (m : Mesh) : Mesh :=
  mkMesh (_name m) (_dimensions m) (_flipNormals m) (_id m)
    l (_edges m) (_triangles m) (_quads m) (_data m)
    (_manageVertexIDs m) (_manageEdgeIDs m) (_manageTriangleIDs m)
    (_manageQuadIDs m) (_boundingBox m).

Definition set_edges (l : list Edge) (m : Mesh) : Mesh :=
  mkMesh (_name m) (_dimensions m) (_flipNormals m) (_id m)
    (_vertices m) l (_triangles m) (_quads m) (_data m)
    (_manageVertexIDs m) (_manageEdgeIDs m) (_manageTriangleIDs m)
    (_manageQuadIDs m) (_boundingBox m).

Definition set_triangles (l : list Triangle) (m : Mesh) : Mesh :=
  mkMesh (_name m) (_dimensions m) (_flipNormals m) (_id m)
    (_vertices m) (_edges m) l (_quads m) (_data m)
    (_manageVertexIDs m) (_manageEdgeIDs m) (_manageTriangleIDs m)
    (_manageQuadIDs m) (_boundingBox m).

Definition set_quads (l : list Quad) (m : Mesh) : Mesh :=
  mkMesh (_name m) (_dimensions m) (_flipNormals m) (_id m)
    (_vertices m) (_edges m) (_triangles m) l (_data m)
    (_manageVertexIDs m) (_manageEdgeIDs m) (_manageTriangleIDs m)
    (_manageQuadIDs m) (_boundingBox m).

Definition set_data (l : list Data) (m : Mesh) : Mesh :=
  mkMesh (_name m) (_dimensions m) (_flipNormals m) (_id m)
    (_vertices m) (_edges m) (_triangles m) (_quads m) l
    (_manageVertexIDs m) (_manageEdgeIDs m) (_manageTriangleIDs m)
    (_manageQuadIDs m) (_boundingBox m).

Definition set_manageVertexIDs (n : Z) (m : Mesh) : Mesh :=
  mkMesh (_name m) (_dimensions m) (_flipNormals m) (_id m)
    (_vertices m) (_edges m) (_triangles m) (_quads m) (_data m)
    n (_manageEdgeIDs m) (_manageTriangleIDs m)
    (_manageQuadIDs m) (_boundingBox m).

Definition set_manageEdgeIDs (n : Z) (m : Mesh) : Mesh :=
  mkMesh (_name m) (_dimensions m) (_flipNormals m) (_id m)
    (_vertices m) (_edges m) (_triangles m) (_quads m) (_data m)
    (_manageVertexIDs m) n (_manageTriangleIDs m)
    (_manageQuadIDs m) (_boundingBox m).

Definition set_manageTriangleIDs (n : Z) (m : Mesh) : Mesh :=
  mkMesh (_name m) (_dimensions m) (_flipNormals m) (_id m)
    (_vertices m) (_edges m) (_triangles m) (_quads m) (_data m)
    (_manageVertexIDs m) (_manageEdgeIDs m) n
    (_manageQuadIDs m) (_boundingBox m).

Definition set_manageQuadIDs (n : Z) (m : Mesh) : Mesh :=
  mkMesh (_name m) (_dimensions m) (_flipNormals m) (_id m)
    (_vertices m) (_edges m) (_triangles m) (_quads m) (_data m)
    (_manageVertexIDs m) (_manageEdgeIDs m) (_manageTriangleIDs m)
    n (_boundingBox m).

Definition set_boundingBox (bb : BoundingBox) (m : Mesh) : Mesh :=
  mkMesh (_name m) (_dimensions m) (_flipNormals m) (_id m)
    (_vertices m) (_edges m) (_triangles m) (_quads m) (_data m)
    (_manageVertexIDs m) (_manageEdgeIDs m) (_manageTriangleIDs m)
    (_manageQuadIDs m) bb.

(** ** Helpers that the sources use but do not contain

    [Edge::connectedTo], the [computeNormal] members, the [vertex(i)]
    accessors of faces, [Vertex]'s comparison and Eigen's [normalized()] are
    taken as parameters; so is the content of storage that Eigen leaves
    uninitialised after a destructive [resize]. *)

Class MeshPrimitives : Type := {
  Edge_connectedTo : Edge -> Edge -> bool;
  Edge_computeNormal : list Vertex -> Edge -> bool -> Edge * VectorXd;
  Triangle_computeNormal :
    list Vertex -> list Edge -> Triangle -> bool -> Triangle * VectorXd;
  Quad_computeNormal :
    list Vertex -> list Edge -> Quad -> bool -> Quad * VectorXd;
  Triangle_vertex : list Edge -> Triangle -> nat -> VertexRef;
  Quad_vertex : list Edge -> Quad -> nat -> VertexRef;
  Vertex_neq : Vertex -> Vertex -> bool;
  VectorXd_normalized : VectorXd -> VectorXd;
  uninitialised : nat -> double
}.

(** [Eigen::VectorXd::resize(n)]: nothing happens when the size is kept;
    otherwise the storage is reallocated and its content is not
    initialised. *)
Definition VectorXd_resize `{MeshPrimitives} (n : nat) (v : VectorXd) : VectorXd :=
  if Nat.eqb n (length v) then v else map uninitialised (seq 0 n).

(** Modelled from the spec: [utils::append(v, w)] (the Eigen helper functions
    of utils are not among the sources) enlarges the buffer [v] by the
    entries of [w] and keeps what [v] held. *)
Definition utils_append (v w : VectorXd) : VectorXd := v ++ w.

(** Modelled from the spec: the id managers ([utils::ManageUniqueIDs] is
    not among the sources) hand out dense ids: [getFreeID] returns the
    counter and increments it, [resetIDs] sets it back to zero. *)
Definition getFreeVertexID : M Mesh Z :=
  fun m => (Done (_manageVertexIDs m), set_manageVertexIDs (_manageVertexIDs m + 1) m).
Definition getFreeEdgeID : M Mesh Z :=
  fun m => (Done (_manageEdgeIDs m), set_manageEdgeIDs (_manageEdgeIDs m + 1) m).
Definition getFreeTriangleID : M Mesh Z :=
  fun m => (Done (_manageTriangleIDs m), set_manageTriangleIDs (_manageTriangleIDs m + 1) m).
Definition getFreeQuadID : M Mesh Z :=
  fun m => (Done (_manageQuadIDs m), set_manageQuadIDs (_manageQuadIDs m + 1) m).

(** Modelled from the spec: the constructors of [Edge], [Triangle] and
    [Quad] (their headers are not among the sources) record the referenced
    elements and the id; the normal starts as the zero vector. *)
Definition Edge_ctor (vertexOne vertexTwo : VertexRef) (id : Z) (dim : Z) : Edge :=
  mkEdge vertexOne vertexTwo id (VectorXd_Zero (Z.to_nat dim)).
Definition Triangle_ctor (edgeOne edgeTwo edgeThree : EdgeRef) (id : Z) (dim : Z) : Triangle :=
  mkTriangle edgeOne edgeTwo edgeThree id (VectorXd_Zero (Z.to_nat dim)).
Definition Quad_ctor (edgeOne edgeTwo edgeThree edgeFour : EdgeRef) (id : Z) (dim : Z) : Quad :=
  mkQuad edgeOne edgeTwo edgeThree edgeFour id (VectorXd_Zero (Z.to_nat dim)).

(** Dereferencing: reading through a reference that does not point into the
    container is undefined behaviour. *)
Definition vertexAt (r : VertexRef) : M Mesh Vertex :=
  fun m => match _vertices m !! r with
           | Some v => (Done v, m)
           | None => (UndefinedBehaviour, m)
           end.
Definition edgeAt (r : EdgeRef) : M Mesh Edge :=
  fun m => match _edges m !! r with
           | Some e => (Done e, m)
           | None => (UndefinedBehaviour, m)
           end.

(** ** Mesh.cpp *)

(** [Mesh::Mesh(name, dimensions, flipNormals, id)]. *)
Definition Mesh_ctor (name : string) (dimensions : Z) (flipNormals : bool) (id : Z)
  : outcome Mesh :=
  if negb ((dimensions =? 2) || (dimensions =? 3)) then AssertionFailed
  else if String.eqb name "" then AssertionFailed
  else Done (mkMesh name dimensions flipNormals id [] [] [] [] [] 0 0 0 0
               (BoundingBox_ctor dimensions)).

Definition getDimensions (m : Mesh) : Z := _dimensions m.

(** Modelled from the spec: [Mesh::createVertex] (a template member of
    Mesh.hpp, which is not among the sources) appends a vertex with the
    given coordinates and the next vertex id. *)
Definition createVertex (coords : VectorXd) : M Mesh VertexRef :=
  let! m := get in
  PRECICE_ASSERT (Z.of_nat (length coords) =? _dimensions m) ;;;
  let! id := getFreeVertexID in
  let! m := get in
  put (set_vertices (_vertices m ++ [Vertex_ctor coords id]) m) ;;;
  ret (length (_vertices m)).

Definition createEdge (vertexOne vertexTwo : VertexRef) : M Mesh EdgeRef :=
  let! id := getFreeEdgeID in
  let! m := get in
  put (set_edges (_edges m ++ [Edge_ctor vertexOne vertexTwo id (_dimensions m)]) m) ;;;
  ret (length (_edges m)).

Arguments createEdge (vertexOne vertexTwo)%_nat.

(** [std::is_permutation(first1, last1, first2)] on ranges of equal length:
    every element of the first range occurs as often in the second. *)
Definition std_is_permutation (l1 l2 : list Z) : bool :=
  forallb (fun x => Nat.eqb (count_occ Z.eq_dec l1 x) (count_occ Z.eq_dec l2 x)) l1.

(** [std::find_if(first, last, pred)], as the position of the first match. *)
Fixpoint std_find_if {St A : Type} (pred : A -> M St bool) (l : list A) (pos : nat)
  : M St (option nat) :=
  match l with
  | [] => ret None
  | x :: l' =>
      let! b := pred x in
      if b then ret (Some pos) else std_find_if pred l' (S pos)
  end.

Definition createUniqueEdge (vertexOne vertexTwo : VertexRef) : M Mesh EdgeRef :=
  let! v1 := vertexAt vertexOne in
  let! v2 := vertexAt vertexTwo in
  let vids := [Vertex_getID v1; Vertex_getID v2] in
  let! m := get in
  let! pos :=
    std_find_if
      (fun e =>
         let! w0 := vertexAt (Edge_vertex e 0) in
         let! w1 := vertexAt (Edge_vertex e 1) in
         let eids := [Vertex_getID w0; Vertex_getID w1] in
         ret (std_is_permutation vids eids))
      (_edges m) 0%nat in
  match pos with
  | Some p => ret p
  | None => createEdge vertexOne vertexTwo
  end.

Arguments createUniqueEdge (vertexOne vertexTwo)%_nat.

Definition createTriangle `{MeshPrimitives} (edgeOne edgeTwo edgeThree : EdgeRef)
  : M Mesh TriangleRef :=
  let! e1 := edgeAt edgeOne in
  let! e2 := edgeAt edgeTwo in
  let! e3 := edgeAt edgeThree in
  PRECICE_CHECK
    (Edge_connectedTo e1 e2 && Edge_connectedTo e2 e3 && Edge_connectedTo e3 e1)
    "Edges are not connected!" ;;;
  let! id := getFreeTriangleID in
  let! m := get in
  put (set_triangles
         (_triangles m ++ [Triangle_ctor edgeOne edgeTwo edgeThree id (_dimensions m)]) m) ;;;
  ret (length (_triangles m)).

Arguments createTriangle {H} (edgeOne edgeTwo edgeThree)%_nat.

Definition createQuad (edgeOne edgeTwo edgeThree edgeFour : EdgeRef) : M Mesh QuadRef :=
  let! id := getFreeQuadID in
  let! m := get in
  put (set_quads
         (_quads m ++ [Quad_ctor edgeOne edgeTwo edgeThree edgeFour id (_dimensions m)]) m) ;;;
  ret (length (_quads m)).

Arguments createQuad (edgeOne edgeTwo edgeThree edgeFour)%_nat.

(** The static counter [Data::_dataCount] is program state outside every
    mesh; [createData] runs on the pair of the counter and the mesh. *)
Definition DataCount : Type := Z.

(** Modelled from the spec: [Data::getDataCount] and the constructor of
    [Data] (Data.hpp is not among the sources).  The counter holds the
    number of [Data] objects constructed so far; the constructor requires a
    positive dimension, starts with an empty buffer and counts the new
    object. *)
Definition Data_getDataCount : M (DataCount * Mesh) Z :=
  fun s => (Done (fst s), s).

Definition Data_ctor (name : string) (id : Z) (dimensions : Z) : M (DataCount * Mesh) Data :=
  PRECICE_ASSERT (0 <? dimensions) ;;;
  modify (fun s : DataCount * Mesh => (fst s + 1, snd s)) ;;;
  ret (mkData [] name id dimensions).

Definition dquote : string := String (Ascii.ascii_of_nat 34) EmptyString.

Definition createData_message (name meshName : string) : string :=
  ("Data " +:+ dquote +:+ name +:+ dquote +:+ " cannot be created twice for mesh "
     +:+ dquote +:+ meshName +:+ dquote +:+ "!")%string.

Definition createData (name : string) (dimension : Z) : M (DataCount * Mesh) DataRef :=
  let! s := get in
  forEach (_data (snd s))
    (fun data =>
       PRECICE_CHECK (negb (String.eqb (Data_getName data) name))
         (createData_message name (_name (snd s)))) ;;;
  let! id := Data_getDataCount in
  let! data := Data_ctor name id dimension in
  let! s := get in
  put (fst s, set_data (_data (snd s) ++ [data]) (snd s)) ;;;
  ret (length (_data (snd s))).

(** Conversion to [size_t] (64 bits, unsigned). *)
Definition to_size_t (z : Z) : Z := z mod 2 ^ 64.

(** The body of the loop of [Mesh::allocateDataValues] for one data field. *)
Definition allocateDataValues_body `{MeshPrimitives} (expectedCount : Z) (data : Data) : Data :=
  let expectedSize := to_size_t (expectedCount * to_size_t (Data_getDimensions data)) in
  let actualSize := to_size_t (Z.of_nat (length (Data_values data))) in
  (* Shrink Buffer *)
  let data :=
    if expectedSize <? actualSize
    then Data_setValues (VectorXd_resize (Z.to_nat expectedSize) (Data_values data)) data
    else data in
  (* Enlarge Buffer *)
  let data :=
    if actualSize <? expectedSize
    then
      let leftToAllocate := to_size_t (expectedSize - actualSize) in
      Data_setValues
        (utils_append (Data_values data) (VectorXd_Zero (Z.to_nat leftToAllocate))) data
    else data in
  data.

Definition allocateDataValues `{MeshPrimitives} : M Mesh unit :=
  let! m := get in
  let expectedCount := to_size_t (Z.of_nat (length (_vertices m))) in
  put (set_data (map (allocateDataValues_body expectedCount) (_data m)) m).

Definition computeBoundingBox : M Mesh unit :=
  let! m := get in
  let bb := BoundingBox_ctor (_dimensions m) in
  let bb := fold_left BoundingBox_expandBy (_vertices m) bb in
  put (set_boundingBox bb m).

(** Writing through a reference to a vertex or an edge of the mesh. *)
Definition updateVertex (r : VertexRef) (f : Vertex -> Vertex) : M Mesh unit :=
  let! v := vertexAt r in
  modify (fun m => set_vertices (<[r := f v]> (_vertices m)) m).

Definition updateEdge (r : EdgeRef) (f : Edge -> Edge) : M Mesh unit :=
  let! e := edgeAt r in
  modify (fun m => set_edges (<[r := f e]> (_edges m)) m).

Definition triangleAt (r : TriangleRef) : M Mesh Triangle :=
  fun m => match _triangles m !! r with
           | Some t => (Done t, m)
           | None => (UndefinedBehaviour, m)
           end.

Definition quadAt (r : QuadRef) : M Mesh Quad :=
  fun m => match _quads m !! r with
           | Some q => (Done q, m)
           | None => (UndefinedBehaviour, m)
           end.

(** [for (int i = 0; i < n; i++)]. *)
Definition forRange {St : Type} (n : nat) (body : nat -> M St unit) : M St unit :=
  forEach (seq 0 n) body.

(** [x.setNormal(x.getNormal() + weightednormal)] on a vertex and on an edge. *)
Definition accumulateVertexNormal (r : VertexRef) (weightednormal : VectorXd) : M Mesh unit :=
  updateVertex r (fun v => Vertex_setNormal (VectorXd_add (Vertex_getNormal v) weightednormal) v).

Definition accumulateEdgeNormal (r : EdgeRef) (weightednormal : VectorXd) : M Mesh unit :=
  updateEdge r (fun e => Edge_setNormal (VectorXd_add (Edge_getNormal e) weightednormal) e).

(** [PRECICE_ASSERT(f.vertex(i) != f.vertex(j))] for a face [f]. *)
Definition assertVerticesDiffer `{MeshPrimitives} (vi vj : VertexRef) : M Mesh unit :=
  let! a := vertexAt vi in
  let! b := vertexAt vj in
  PRECICE_ASSERT (Vertex_neq a b).

Definition computeState_edges2D `{MeshPrimitives} : M Mesh unit :=
  let! m := get in
  forRange (length (_edges m))
    (fun k =>
       let! m := get in
       let! edge := edgeAt k in
       let '(edge', weightednormal) := Edge_computeNormal (_vertices m) edge (_flipNormals m) in
       updateEdge k (fun _ => edge') ;;;
       (* Accumulate normal in associated vertices *)
       forRange 2 (fun i => accumulateVertexNormal (Edge_vertex edge' i) weightednormal)).

Definition computeState_triangles `{MeshPrimitives} : M Mesh unit :=
  let! m := get in
  forRange (length (_triangles m))
    (fun k =>
       let! m := get in
       let! triangle := triangleAt k in
       let vertex := Triangle_vertex (_edges m) triangle in
       assertVerticesDiffer (vertex 0%nat) (vertex 1%nat) ;;;
       assertVerticesDiffer (vertex 1%nat) (vertex 2%nat) ;;;
       assertVerticesDiffer (vertex 2%nat) (vertex 0%nat) ;;;
       let '(triangle', weightednormal) :=
         Triangle_computeNormal (_vertices m) (_edges m) triangle (_flipNormals m) in
       modify (fun m => set_triangles (<[k := triangle']> (_triangles m)) m) ;;;
       (* Accumulate area-weighted normal in associated vertices and edges *)
       forRange 3
         (fun i =>
            accumulateEdgeNormal (Triangle_edge triangle' i) weightednormal ;;;
            let! m := get in
            accumulateVertexNormal (Triangle_vertex (_edges m) triangle' i) weightednormal)).

Definition computeState_quads `{MeshPrimitives} : M Mesh unit :=
  let! m := get in
  forRange (length (_quads m))
    (fun k =>
       let! m := get in
       let! quad := quadAt k in
       let vertex := Quad_vertex (_edges m) quad in
       assertVerticesDiffer (vertex 0%nat) (vertex 1%nat) ;;;
       assertVerticesDiffer (vertex 1%nat) (vertex 2%nat) ;;;
       assertVerticesDiffer (vertex 2%nat) (vertex 3%nat) ;;;
       assertVerticesDiffer (vertex 3%nat) (vertex 0%nat) ;;;
       let '(quad', weightednormal) :=
         Quad_computeNormal (_vertices m) (_edges m) quad (_flipNormals m) in
       modify (fun m => set_quads (<[k := quad']> (_quads m)) m) ;;;
       forRange 4
         (fun i =>
            accumulateEdgeNormal (Quad_edge quad' i) weightednormal ;;;
            let! m := get in
            accumulateVertexNormal (Quad_vertex (_edges m) quad' i) weightednormal)).

Definition computeState `{MeshPrimitives} : M Mesh unit :=
  let! m := get in
  PRECICE_ASSERT ((_dimensions m =? 2) || (_dimensions m =? 3)) ;;;
  (* Compute normals only if faces to derive normal information are available *)
  let size2DFaces := to_size_t (Z.of_nat (length (_edges m))) in
  let size3DFaces :=
    to_size_t (Z.of_nat (length (_triangles m)) + Z.of_nat (length (_quads m))) in
  if (_dimensions m =? 2) && (size2DFaces =? 0) then ret tt
  else if (_dimensions m =? 3) && (size3DFaces =? 0) then ret tt
  else
    (if _dimensions m =? 2 then computeState_edges2D else ret tt) ;;;
    (if _dimensions m =? 3
     then
       computeState_triangles ;;;
       computeState_quads ;;;
       (* Normalize edge normals (only done in 3D) *)
       forRange (length (_edges m))
         (fun k => updateEdge k (fun e => Edge_setNormal (VectorXd_normalized (Edge_getNormal e)) e))
     else ret tt) ;;;
    forRange (length (_vertices m))
      (fun k =>
         updateVertex k (fun v => Vertex_setNormal (VectorXd_normalized (Vertex_getNormal v)) v)).

(** [Mesh::clear].  The quad id manager is the one manager the source does
    not reset.  The signal [meshChanged] only clears an index cache outside
    the mesh. *)
Definition clear `{MeshPrimitives} : M Mesh unit :=
  modify (set_quads []) ;;;
  modify (set_triangles []) ;;;
  modify (set_edges []) ;;;
  modify (set_vertices []) ;;;
  modify (set_manageTriangleIDs 0) ;;;
  modify (set_manageEdgeIDs 0) ;;;
  modify (set_manageVertexIDs 0) ;;;
  modify (fun m =>
            set_data (map (fun data => Data_setValues (VectorXd_resize 0 (Data_values data)) data)
                          (_data m)) m).

(** A loop that threads an accumulator (here: a map under construction). *)
Fixpoint foldM {St A B : Type} (f : B -> A -> M St B) (l : list A) (acc : B) : M St B :=
  match l with
  | [] => ret acc
  | x :: l' => let! acc' := f acc x in foldM f l' acc'
  end.

(** Reading, in the delta mesh, the id of the vertex or edge a reference
    points to. *)
Definition idOfVertexIn {St : Type} (deltaMesh : Mesh) (r : VertexRef) : M St Z :=
  match _vertices deltaMesh !! r with
  | Some v => ret (Vertex_getID v)
  | None => undefined
  end.

Definition idOfEdgeIn {St : Type} (deltaMesh : Mesh) (r : EdgeRef) : M St Z :=
  match _edges deltaMesh !! r with
  | Some e => ret (Edge_getID e)
  | None => undefined
  end.

(** [*map[key]] for a key that is in the map. *)
Definition mapAt {St : Type} (map : gmap Z nat) (key : Z) : M St nat :=
  match map !! key with
  | Some r => ret r
  | None => undefined
  end.

(** [map.count(key) == 1]. *)
Definition count1 (map : gmap Z nat) (key : Z) : bool :=
  bool_decide (is_Some (map !! key)).

Definition addMesh_vertex (vertexMap : gmap Z nat) (vertex : Vertex)
  : M Mesh (gmap Z nat) :=
  let coords := Vertex_getCoords vertex in
  let! v := createVertex coords in
  updateVertex v (Vertex_setGlobalIndex (Vertex_getGlobalIndex vertex)) ;;;
  (if Vertex_isTagged vertex then updateVertex v Vertex_tag else ret tt) ;;;
  updateVertex v (Vertex_setOwner (Vertex_isOwner vertex)) ;;;
  PRECICE_ASSERT (0 <=? Vertex_getID vertex) ;;;
  ret (<[Vertex_getID vertex := v]> vertexMap).

Definition addMesh_edge (deltaMesh : Mesh) (vertexMap : gmap Z nat)
  (edgeMap : gmap Z nat) (edge : Edge) : M Mesh (gmap Z nat) :=
  let! vertexIndex1 := idOfVertexIn deltaMesh (Edge_vertex edge 0) in
  let! vertexIndex2 := idOfVertexIn deltaMesh (Edge_vertex edge 1) in
  PRECICE_ASSERT (count1 vertexMap vertexIndex1 && count1 vertexMap vertexIndex2) ;;;
  let! v1 := mapAt vertexMap vertexIndex1 in
  let! v2 := mapAt vertexMap vertexIndex2 in
  let! e := createEdge v1 v2 in
  ret (<[Edge_getID edge := e]> edgeMap).

Definition addMesh_triangle `{MeshPrimitives} (deltaMesh : Mesh) (edgeMap : gmap Z nat)
  (triangle : Triangle) : M Mesh unit :=
  let! edgeIndex1 := idOfEdgeIn deltaMesh (Triangle_edge triangle 0) in
  let! edgeIndex2 := idOfEdgeIn deltaMesh (Triangle_edge triangle 1) in
  let! edgeIndex3 := idOfEdgeIn deltaMesh (Triangle_edge triangle 2) in
  PRECICE_ASSERT
    (count1 edgeMap edgeIndex1 && count1 edgeMap edgeIndex2 && count1 edgeMap edgeIndex3) ;;;
  let! e1 := mapAt edgeMap edgeIndex1 in
  let! e2 := mapAt edgeMap edgeIndex2 in
  let! e3 := mapAt edgeMap edgeIndex3 in
  let! _ := createTriangle e1 e2 e3 in
  ret tt.

(** [Mesh::addMesh(deltaMesh)], for a delta mesh that is another object than
    the receiving mesh. *)
Definition addMesh `{MeshPrimitives} (deltaMesh : Mesh) : M Mesh unit :=
  let! m := get in
  PRECICE_ASSERT (_dimensions m =? getDimensions deltaMesh) ;;;
  let! vertexMap := foldM addMesh_vertex (_vertices deltaMesh) ∅ in
  (* you cannot just take the vertices from the edge and add them,
     since you need the vertices from the new mesh (which may differ in IDs) *)
  let! edgeMap := foldM (addMesh_edge deltaMesh vertexMap) (_edges deltaMesh) ∅ in
  (if _dimensions m =? 3
   then forEach (_triangles deltaMesh) (addMesh_triangle deltaMesh edgeMap)
   else ret tt).

(** ** The quad convexity routine *)

(** A fixed-size [Eigen::Vector3d]; assigning a dynamic vector of another
    size to it fails Eigen's size assertion. *)
Definition Vector3d : Type := (double * double * double)%type.

Definition toVector3d {St : Type} (v : VectorXd) : M St Vector3d :=
  match v with
  | [x; y; z] => ret (x, y, z)
  | _ => fun s => (AssertionFailed, s)
  end.

Definition Vector3d_sub (a b : Vector3d) : Vector3d :=
  let '(a0, a1, a2) := a in
  let '(b0, b1, b2) := b in
  (a0 - b0, a1 - b1, a2 - b2)%float.

Definition Vector3d_cross (a b : Vector3d) : Vector3d :=
  let '(a0, a1, a2) := a in
  let '(b0, b1, b2) := b in
  (a1 * b2 - a2 * b1, a2 * b0 - a0 * b2, a0 * b1 - a1 * b0)%float.

(** Eigen's unrolled reduction of three products. *)
Definition Vector3d_dot (a b : Vector3d) : double :=
  let '(a0, a1, a2) := a in
  let '(b0, b1, b2) := b in
  (a0 * b0 + (a1 * b1 + a2 * b2))%float.

(** [vertices()[id].getCoords()] read into a [Vector3d]. *)
Definition coordsOf {St : Type} (m : Mesh) (id : Z) : M St Vector3d :=
  if id <? 0 then undefined
  else match _vertices m !! Z.to_nat id with
       | Some v => toVector3d (Vertex_getCoords v)
       | None => undefined
       end.

(** [vertexIDs[i]] and [vertexIDs[i] = x] on the [std::array<int,4>]. *)
Definition readID (i : nat) : M (list Z) Z :=
  fun vertexIDs => match vertexIDs !! i with
                   | Some x => (Done x, vertexIDs)
                   | None => (UndefinedBehaviour, vertexIDs)
                   end.

Definition writeID (i : nat) (x : Z) : M (list Z) unit :=
  fun vertexIDs => if Nat.ltb i (length vertexIDs)
                   then (Done tt, <[i := x]> vertexIDs)
                   else (UndefinedBehaviour, vertexIDs).

Definition outOfFuel {St A : Type} : M St A := fun s => (OutOfFuel, s).

Definition coord (coords : list Vector3d) (i : nat) : Vector3d :=
  nth i coords (0, 0, 0)%float.

Definition xOf (p : Vector3d) : double := fst (fst p).
Definition yOf (p : Vector3d) : double := snd (fst p).

(** The inner [for] loop of the gift wrapping: the candidate that is most
    anti-clockwise as seen from [currentVertex]. *)
Definition wrapStep (coords : list Vector3d) (currentVertex : nat) : nat :=
  fold_left
    (fun nextVertex i =>
       let y1 := (yOf (coord coords currentVertex) - yOf (coord coords nextVertex))%float in
       let y2 := (yOf (coord coords currentVertex) - yOf (coord coords i))%float in
       let x1 := (xOf (coord coords currentVertex) - xOf (coord coords nextVertex))%float in
       let x2 := (xOf (coord coords currentVertex) - xOf (coord coords i))%float in
       let val := (y2 * x1 - y1 * x2)%float in
       if (0 <? val)%float then i else nextVertex)
    (seq 0 4)
    ((currentVertex + 1) mod 4)%nat.

(** The [do ... while (currentVertex != idLowestPoint)] loop; it returns
    [validVertexIDCounter]. *)
Fixpoint hullLoop (fuel : nat) (coords : list Vector3d) (idLowestPoint : nat)
  (currentVertex : nat) (validVertexIDCounter : nat) : M (list Z) nat :=
  match fuel with
  | O => outOfFuel
  | S fuel' =>
      (* Add current point to result *)
      writeID validVertexIDCounter (Z.of_nat currentVertex) ;;;
      let nextVertex := wrapStep coords currentVertex in
      let currentVertex := nextVertex in
      let validVertexIDCounter := S validVertexIDCounter in
      if Nat.eqb currentVertex idLowestPoint
      then ret validVertexIDCounter
      else hullLoop fuel' coords idLowestPoint currentVertex validVertexIDCounter
  end.

(** [Mesh::computeQuadConvexityFromPoints(vertexIDs)]; the state is the
    array passed by reference. *)
Definition computeQuadConvexityFromPoints (m : Mesh) (fuel : nat) : M (list Z) bool :=
  let! id0 := readID 0 in
  let! id1 := readID 1 in
  let! id2 := readID 2 in
  let! id3 := readID 3 in
  let! p0 := coordsOf m id0 in
  let! p1 := coordsOf m id1 in
  let! p2 := coordsOf m id2 in
  let! p3 := coordsOf m id3 in
  (* Normal of the plane of first three points in the list of vertices *)
  let e_1 := Vector3d_sub p1 p0 in
  let e_2 := Vector3d_sub p2 p0 in
  let normalVector := Vector3d_cross e_1 e_2 in
  (* Transform Coordinates - coord[0] is the origin *)
  let coords :=
    map (fun p =>
           let euclideanDistance := Vector3d_sub p p0 in
           (Vector3d_dot e_1 euclideanDistance,
            Vector3d_dot e_2 euclideanDistance,
            Vector3d_dot normalVector euclideanDistance))
        [p0; p1; p2; p3] in
  (* First find point with smallest x coord *)
  let idLowestPoint :=
    fold_left
      (fun idLowestPoint i =>
         if (xOf (coord coords i) <? xOf (coord coords idLowestPoint))%float
         then i else idLowestPoint)
      (seq 1 3) 0%nat in
  let! validVertexIDCounter := hullLoop fuel coords idLowestPoint idLowestPoint 0 in
  (* Ordering of quad is hull 0-1-2-3-0 *)
  ret (Nat.eqb validVertexIDCounter 4).

(** ** Calls on a mesh and programs of calls *)

(** The mutating operations of a mesh.  The delta mesh of [addMesh] is
    passed by value: it is another object than the receiving mesh. *)
Inductive MeshCall : Type :=
| Call_createVertex (coords : VectorXd)
| Call_createEdge (vertexOne vertexTwo : VertexRef)
| Call_createUniqueEdge (vertexOne vertexTwo : VertexRef)
| Call_createTriangle (edgeOne edgeTwo edgeThree : EdgeRef)
| Call_createQuad (edgeOne edgeTwo edgeThree edgeFour : EdgeRef)
| Call_createData (name : string) (dimension : Z)
| Call_allocateDataValues
| Call_clear
| Call_addMesh (deltaMesh : Mesh)
| Call_computeState
| Call_computeBoundingBox.

Arguments Call_createEdge (vertexOne vertexTwo)%_nat.
Arguments Call_createUniqueEdge (vertexOne vertexTwo)%_nat.
Arguments Call_createTriangle (edgeOne edgeTwo edgeThree)%_nat.
Arguments Call_createQuad (edgeOne edgeTwo edgeThree edgeFour)%_nat.

Definition discard {St A : Type} (c : M St A) : M St unit := c ;;; ret tt.

Definition call `{MeshPrimitives} (c : MeshCall) : M (DataCount * Mesh) unit :=
  match c with
  | Call_createVertex coords => onSnd (discard (createVertex coords))
  | Call_createEdge v1 v2 => onSnd (discard (createEdge v1 v2))
  | Call_createUniqueEdge v1 v2 => onSnd (discard (createUniqueEdge v1 v2))
  | Call_createTriangle e1 e2 e3 => onSnd (discard (createTriangle e1 e2 e3))
  | Call_createQuad e1 e2 e3 e4 => onSnd (discard (createQuad e1 e2 e3 e4))
  | Call_createData name dimension => discard (createData name dimension)
  | Call_allocateDataValues => onSnd allocateDataValues
  | Call_clear => onSnd clear
  | Call_addMesh deltaMesh => onSnd (addMesh deltaMesh)
  | Call_computeState => onSnd computeState
  | Call_computeBoundingBox => onSnd computeBoundingBox
  end.

Definition calls `{MeshPrimitives} (cs : list MeshCall) : M (DataCount * Mesh) unit :=
  forEach cs call.

(** Several meshes next to the static data counter: a computation on the
    counter and one mesh, run on the mesh at position [i]. *)
Definition onMesh {A : Type} (i : nat) (c : M (DataCount * Mesh) A)
  : M (DataCount * list Mesh) A :=
  fun w =>
    match snd w !! i with
    | None => (UndefinedBehaviour, w)
    | Some m =>
        match c (fst w, m) with
        | (r, (count, m')) => (r, (count, <[i := m']> (snd w)))
        end
    end.

(** A run of [createData] calls, each on some mesh; the result lists the
    created data objects in the order of creation, as (mesh, position in the
    mesh's data container). *)
Fixpoint createDataRun (reqs : list (nat * string * Z))
  : M (DataCount * list Mesh) (list (nat * DataRef)) :=
  match reqs with
  | [] => ret []
  | (i, name, dimension) :: reqs' =>
      let! r := onMesh i (createData name dimension) in
      let! rs := createDataRun reqs' in
      ret ((i, r) :: rs)
  end.

(** The id of the data object at position [r] of mesh [i]. *)
Definition dataID (meshes : list Mesh) (ir : nat * DataRef) : option Z :=
  match meshes !! fst ir with
  | Some m => Data_getID <$> (_data m !! snd ir)
  | None => None
  end.

(** ** CouplingData.hpp *)

Module cplscheme.

(** A raw pointer to a value buffer: NULL or an address. *)
Inductive pointer : Type :=
| NULL
| address (a : nat).

(** A [mesh::PtrMesh], a shared pointer: empty, or owning the mesh with id
    [meshID] together with [others] further owners. *)
Inductive PtrMesh : Type :=
| PtrMesh_empty
| PtrMesh_to (meshID : Z) (others : nat).

Definition use_count (p : PtrMesh) : Z :=
  match p with
  | PtrMesh_empty => 0
  | PtrMesh_to _ others => 1 + Z.of_nat others
  end.

Definition is_NULL (p : pointer) : bool :=
  match p with
  | NULL => true
  | address _ => false
  end.

Record CouplingData : Type := mkCouplingData {
  values : pointer;
  newValues : pointer;
  oldValues : list VectorXd;
  mesh : PtrMesh;
  initialize : bool;
  dimension : Z
}.

(** [CouplingData()], the default constructor: [assertion(false)]. *)
Definition CouplingData_default : outcome CouplingData := AssertionFailed.

(** [CouplingData(values, mesh, initialize, dimension)]. *)
Definition CouplingData_ctor (values : pointer) (mesh : PtrMesh) (initialize : bool)
  (dimension : Z) : outcome CouplingData :=
  if is_NULL values then AssertionFailed
  else if negb (0 <? use_count mesh) then AssertionFailed
  else Done (mkCouplingData values NULL [] mesh initialize dimension).

(** *** The [swap] operation of the registry

    The sources hold no [swap]; the spec describes it as: rotate
    [newValues] into [values], append the previous [values] as a new column
    of [oldValues], truncate the history.  What [newValues] holds afterwards
    is left open, so two readings are modelled, on the contents of the
    buffers and a history of at most [depth] columns. *)

Record Buffers : Type := mkBuffers {
  current : VectorXd;
  next : VectorXd;
  history : list VectorXd;
  depth : nat
}.

(** Modelled from the spec: [swap], read as an exchange of the two buffers
    (the previous values become the next values). *)
Definition swap_exchanging (b : Buffers) : Buffers :=
  mkBuffers (next b) (current b) (take (depth b) (current b :: history b)) (depth b).

(** Modelled from the spec: [swap], read as a shift (the next values move
    into the current ones and stay where they were until they are written
    again). *)
Definition swap_shifting (b : Buffers) : Buffers :=
  mkBuffers (next b) (next b) (take (depth b) (current b :: history b)) (depth b).

End cplscheme.

(** * Specification vocabulary *)

(** [stable R c]: every run of [c], failed or not, ends in a state related
    by [R] to the state it started in. *)
Definition stable {St A : Type} (R : St -> St -> Prop) (c : M St A) : Prop :=
  forall s, R s (snd (c s)).

Definition sameDimensions (m m' : Mesh) : Prop := getDimensions m' = getDimensions m.

Definition sameDimensions2 (s s' : DataCount * Mesh) : Prop :=
  sameDimensions (snd s) (snd s').

(** The non-negative range of [Eigen::Index] (64 bits, signed), in which
    every size of an Eigen vector lies. *)
Definition fitsIndex (z : Z) : Prop := 0 <= z < 2 ^ 63.

(** A data field whose dimension is not negative and whose present and
    required buffer sizes are sizes of Eigen vectors. *)
Definition Data_inRange (nVertices : nat) (d : Data) : Prop :=
  0 <= Data_getDimensions d /\
  fitsIndex (Z.of_nat nVertices * Data_getDimensions d) /\
  fitsIndex (Z.of_nat (length (Data_values d))).

(** What identifies a data field, as opposed to its buffer. *)
Definition Data_signature (d : Data) : string * Z * Z :=
  (Data_getName d, Data_getID d, Data_getDimensions d).

(** A concrete choice of the helpers, to run the model on examples: edges
    are connected when they share an end vertex, faces take their vertices
    from the first end of their edges, normals are left at zero, and fresh
    storage reads as zero. *)
Definition sample_connectedTo (e f : Edge) : bool :=
  Nat.eqb (Edge_vertex0 e) (Edge_vertex0 f) || Nat.eqb (Edge_vertex0 e) (Edge_vertex1 f)
  || Nat.eqb (Edge_vertex1 e) (Edge_vertex0 f) || Nat.eqb (Edge_vertex1 e) (Edge_vertex1 f).

Definition sample_edgeVertex (edges : list Edge) (r : EdgeRef) : VertexRef :=
  match edges !! r with
  | Some e => Edge_vertex0 e
  | None => 0%nat
  end.

Definition samplePrimitives : MeshPrimitives :=
  {| Edge_connectedTo := sample_connectedTo;
     Edge_computeNormal := fun _ e _ => (e, Edge_getNormal e);
     Triangle_computeNormal := fun _ _ t _ => (t, Triangle_getNormal t);
     Quad_computeNormal := fun _ _ q _ => (q, Quad_getNormal q);
     Triangle_vertex := fun edges t i => sample_edgeVertex edges (Triangle_edge t i);
     Quad_vertex := fun edges q i => sample_edgeVertex edges (Quad_edge q i);
     Vertex_neq := fun a b => negb (Z.eqb (Vertex_getID a) (Vertex_getID b));
     VectorXd_normalized := fun v => v;
     uninitialised := fun _ => 0%float |}.

(** Sample meshes. *)
Definition sampleVertex (x y z : double) (id : Z) : Vertex := Vertex_ctor [x; y; z] id.
Arguments sampleVertex (x y z)%_float id%_Z.

Definition emptyMesh3D : Mesh :=
  mkMesh "Mesh" 3 false 0 [] [] [] [] [] 0 0 0 0 (BoundingBox_ctor 3).

Definition emptyMesh2D : Mesh :=
  mkMesh "Mesh2D" 2 false 2 [] [] [] [] [] 0 0 0 0 (BoundingBox_ctor 2).

Definition sampleMeshWithData : Mesh :=
  mkMesh "Mesh" 3 false 0
    [sampleVertex 0 0 0 0; sampleVertex 1 0 0 1] [] [] []
    [mkData (repeat 1%float 10) "Forces" 0 3; mkData [] "Pressure" 1 1;
     mkData [2%float; 2%float] "Heat" 2 1]
    2 0 0 0 (BoundingBox_ctor 3).

(** Every triangle of the mesh got its id from the mesh's id manager. *)
Definition triangleIDsIssued (m : Mesh) : Prop :=
  Forall (fun t => Triangle_getID t < _manageTriangleIDs m) (_triangles m).

(** A mesh with a triangle on three vertices and an edge apart from it. *)
Definition sampleTriangleMesh : Mesh :=
  mkMesh "Mesh" 3 false 0
    [sampleVertex 0 0 0 0; sampleVertex 1 0 0 1; sampleVertex 0 1 0 2;
     sampleVertex 5 5 5 3; sampleVertex 6 6 6 4]
    [mkEdge 0 1 0 (VectorXd_Zero 3); mkEdge 1 2 1 (VectorXd_Zero 3);
     mkEdge 2 0 2 (VectorXd_Zero 3); mkEdge 3 4 3 (VectorXd_Zero 3)]
    [mkTriangle 0 1 2 0 (VectorXd_Zero 3)] [] []
    5 4 1 0 (BoundingBox_ctor 3).

(** The id of the vertex a reference points to. *)
Definition vertexID (m : Mesh) (r : VertexRef) : option Z :=
  Vertex_getID <$> (_vertices m !! r).

(** Every edge of the mesh refers to vertices of the mesh. *)
Definition edgesValid (m : Mesh) : Prop :=
  Forall (fun e => is_Some (_vertices m !! Edge_vertex0 e) /\
                   is_Some (_vertices m !! Edge_vertex1 e))
         (_edges m).

(** The ids of the two end vertices of [e] are a permutation of [a], [b]. *)
Definition joins (m : Mesh) (a b : Z) (e : Edge) : Prop :=
  exists c d,
    vertexID m (Edge_vertex0 e) = Some c /\
    vertexID m (Edge_vertex1 e) = Some d /\
    Permutation [c; d] [a; b].

(** The test of the lambda in [createUniqueEdge], as a function. *)
Definition joinsb (m : Mesh) (a b : Z) (e : Edge) : bool :=
  match vertexID m (Edge_vertex0 e), vertexID m (Edge_vertex1 e) with
  | Some c, Some d => std_is_permutation [a; b] [c; d]
  | _, _ => false
  end.

(** The position of the first element that satisfies [p], counted from
    [pos]. *)
Fixpoint findFrom {A : Type} (p : A -> bool) (l : list A) (pos : nat) : option nat :=
  match l with
  | [] => None
  | x :: l' => if p x then Some pos else findFrom p l' (S pos)
  end.

(** The ids of all data objects of all meshes. *)
Definition allDataIDs (meshes : list Mesh) : list Z :=
  flat_map (fun m => map Data_getID (_data m)) meshes.

(** The ids in use are pairwise distinct and were handed out by the
    counter. *)
Definition dataIDsIssued (count : DataCount) (meshes : list Mesh) : Prop :=
  NoDup (allDataIDs meshes) /\ Forall (fun id => id < count) (allDataIDs meshes).

(** Two meshes without data, before any data object was constructed. *)
Definition sampleWorld : DataCount * list Mesh :=
  (0, [emptyMesh3D; sampleTriangleMesh]).

(** Order on doubles, and the doubles that are numbers. *)
Definition dle (a b : double) : Prop := (a <=? b)%float = true.
Definition notNaN (a : double) : Prop := PrimFloat.is_nan a = false.

(** The box contains the vertex: in every dimension the coordinate lies
    between the minimum and the maximum of the box. *)
Definition contains (bb : BoundingBox) (v : Vertex) : Prop :=
  forall (d : nat) (lo hi c : double),
    BoundingBox_bounds bb !! d = Some (lo, hi) ->
    Vertex_getCoords v !! d = Some c ->
    dle lo c /\ dle c hi.

Definition boundsAreNumbers (bb : BoundingBox) : Prop :=
  Forall (fun b => notNaN (fst b) /\ notNaN (snd b)) (BoundingBox_bounds bb).

Definition coordsAreNumbers (v : Vertex) : Prop :=
  Forall notNaN (Vertex_getCoords v).

(** A mesh of eight vertices; the vertices with the ids 4, 5, 6, 7 are the
    corners of the unit square, in this order around the square. *)
Definition sampleSquareMesh : Mesh :=
  mkMesh "Mesh" 3 false 0
    [sampleVertex 9 9 9 0; sampleVertex 8 8 8 1; sampleVertex 7 7 7 2; sampleVertex 6 6 6 3;
     sampleVertex 0 0 0 4; sampleVertex 1 0 0 5; sampleVertex 1 1 0 6; sampleVertex 0 1 0 7]
    [] [] [] [] 8 0 0 0 (BoundingBox_ctor 3).

(** The vertex that [addMesh] creates for the vertex [v] of the delta mesh,
    with the id [id] of the receiving mesh. *)
Definition copiedVertex (id : Z) (v : Vertex) : Vertex :=
  mkVertex (Vertex_getCoords v) id (Vertex_getGlobalIndex v) (Vertex_isOwner v)
    (Vertex_isTagged v) (VectorXd_Zero (length (Vertex_getCoords v))).

(** The mesh with further vertices, edges or triangles appended and the id
    manager advanced by their number. *)
Definition appendVertices (l : list Vertex) (m : Mesh) : Mesh :=
  set_vertices (_vertices m ++ l)
    (set_manageVertexIDs (_manageVertexIDs m + Z.of_nat (length l)) m).

Definition appendEdges (l : list Edge) (m : Mesh) : Mesh :=
  set_edges (_edges m ++ l)
    (set_manageEdgeIDs (_manageEdgeIDs m + Z.of_nat (length l)) m).

Definition appendTriangles (l : list Triangle) (m : Mesh) : Mesh :=
  set_triangles (_triangles m ++ l)
    (set_manageTriangleIDs (_manageTriangleIDs m + Z.of_nat (length l)) m).

(** [r] refers, in the receiving mesh, to the copy of a vertex of the delta
    mesh that has the same id as the vertex at [r0] of the delta mesh;
    [offset] is the number of vertices the receiving mesh had before. *)
Definition vertexCopyRef (deltaMesh : Mesh) (offset : nat) (r0 r : VertexRef) : Prop :=
  exists (w u : Vertex) (j : nat),
    _vertices deltaMesh !! r0 = Some w /\
    _vertices deltaMesh !! j = Some u /\
    Vertex_getID u = Vertex_getID w /\
    r = (offset + j)%nat.

(** [f] is the copy of the edge [e] of the delta mesh. *)
Definition edgeCopy (deltaMesh : Mesh) (offset : nat) (e f : Edge) : Prop :=
  vertexCopyRef deltaMesh offset (Edge_vertex0 e) (Edge_vertex0 f) /\
  vertexCopyRef deltaMesh offset (Edge_vertex1 e) (Edge_vertex1 f).

Definition edgeCopyRef (deltaMesh : Mesh) (offset : nat) (r0 r : EdgeRef) : Prop :=
  exists (w u : Edge) (j : nat),
    _edges deltaMesh !! r0 = Some w /\
    _edges deltaMesh !! j = Some u /\
    Edge_getID u = Edge_getID w /\
    r = (offset + j)%nat.

(** [t'] is the copy of the triangle [t] of the delta mesh. *)
Definition triangleCopy (deltaMesh : Mesh) (offset : nat) (t t' : Triangle) : Prop :=
  edgeCopyRef deltaMesh offset (Triangle_edge0 t) (Triangle_edge0 t') /\
  edgeCopyRef deltaMesh offset (Triangle_edge1 t) (Triangle_edge1 t') /\
  edgeCopyRef deltaMesh offset (Triangle_edge2 t) (Triangle_edge2 t').

(** A map from ids of the delta mesh to references into the receiving mesh
    that only holds copies of elements with that id. *)
Definition vertexMapOK (dvs : list Vertex) (offset : nat) (vertexMap : gmap Z nat) : Prop :=
  forall id r, vertexMap !! id = Some r ->
    exists j u, dvs !! j = Some u /\ Vertex_getID u = id /\ r = (offset + j)%nat.

Definition edgeMapOK (des : list Edge) (offset : nat) (edgeMap : gmap Z nat) : Prop :=
  forall id r, edgeMap !! id = Some r ->
    exists j u, des !! j = Some u /\ Edge_getID u = id /\ r = (offset + j)%nat.

(** A delta mesh with a tagged vertex that is not owned, a triangle and a
    quad. *)
Definition sampleDeltaMesh : Mesh :=
  mkMesh "Delta" 3 false 1
    [mkVertex [0; 0; 0]%float 0 10 true false (VectorXd_Zero 3);
     mkVertex [1; 0; 0]%float 1 11 false true (VectorXd_Zero 3);
     mkVertex [1; 1; 0]%float 2 12 true false (VectorXd_Zero 3);
     mkVertex [0; 1; 0]%float 3 13 true false (VectorXd_Zero 3)]
    [mkEdge 0 1 0 (VectorXd_Zero 3); mkEdge 1 2 1 (VectorXd_Zero 3);
     mkEdge 2 3 2 (VectorXd_Zero 3); mkEdge 3 0 3 (VectorXd_Zero 3);
     mkEdge 0 2 4 (VectorXd_Zero 3)]
    [mkTriangle 0 1 4 0 (VectorXd_Zero 3)]
    [mkQuad 0 1 2 3 0 (VectorXd_Zero 3)]
    [] 4 5 1 1 (BoundingBox_ctor 3).

(** A delta mesh that [addMesh] can copy into a mesh of dimensionality
    [dim]: its vertices have [dim] coordinates and ids that are not
    negative, and its edges refer to its vertices. *)
Definition deltaWellFormed (dim : Z) (deltaMesh : Mesh) : Prop :=
  Forall (fun v => Z.of_nat (length (Vertex_getCoords v)) = dim /\ 0 <= Vertex_getID v)
         (_vertices deltaMesh) /\
  edgesValid deltaMesh.

(** A 2-dimensional delta mesh: one edge between two vertices. *)
Definition sampleDeltaMesh2D : Mesh :=
  mkMesh "Delta2D" 2 false 3
    [mkVertex [0; 0]%float 0 20 true false (VectorXd_Zero 2);
     mkVertex [1; 0]%float 1 21 true true (VectorXd_Zero 2)]
    [mkEdge 0 1 0 (VectorXd_Zero 2)] [] [] [] 2 1 0 0 (BoundingBox_ctor 2).

(** * Further functions of Mesh.cpp *)

Definition dataAt (r : DataRef) : M Mesh Data :=
  fun m => match _data m !! r with
           | Some d => (Done d, m)
           | None => (UndefinedBehaviour, m)
           end.

(** [Mesh::data(dataID)]: the first data field with the id, as a reference
    into the data container; the assertion fails when there is none. *)
Definition Mesh_data (dataID : Z) : M Mesh DataRef :=
  let! m := get in
  let! iter := std_find_if (fun ptr => ret (Data_getID ptr =? dataID)) (_data m) 0%nat in
  match iter with
  | Some r => ret r
  | None => fun s => (AssertionFailed, s)
  end.

(** [Mesh::isValidVertexID] and [Mesh::isValidEdgeID]; the int is cast to
    [size_t] for the comparison with the size. *)
Definition isValidVertexID (m : Mesh) (vertexID : Z) : bool :=
  (0 <=? vertexID) && (to_size_t vertexID <? to_size_t (Z.of_nat (length (_vertices m)))).

Definition isValidEdgeID (m : Mesh) (edgeID : Z) : bool :=
  (0 <=? edgeID) && (to_size_t edgeID <? to_size_t (Z.of_nat (length (_edges m)))).

(** Arithmetic on [int] (32 bits, signed): a result outside the range is
    undefined behaviour. *)
Definition INT_MAX : Z := 2 ^ 31 - 1.
Definition INT_MIN : Z := - 2 ^ 31.

Definition int_result {St : Type} (z : Z) : M St Z :=
  if (INT_MIN <=? z) && (z <=? INT_MAX) then ret z else undefined.

(** [v[i]] on an [Eigen::VectorXd]: Eigen asserts that the index is in
    range. *)
Definition VectorXd_coeff {St : Type} (v : VectorXd) (i : Z) : M St double :=
  if i <? 0 then fun s => (AssertionFailed, s)
  else match v !! Z.to_nat i with
       | Some x => ret x
       | None => fun s => (AssertionFailed, s)
       end.

(** The inner loop of [Mesh::getOwnedVertexData]: the values of one owned
    vertex are pushed to the result. *)
Definition getOwnedVertexData_values (dataID : Z) (valueDim index : Z)
  (ownedDataVector : list double) : M Mesh (list double) :=
  foldM
    (fun owned dim =>
       let! r := Mesh_data dataID in
       let! d := dataAt r in
       let! offset := int_result (index * valueDim) in
       let! i := int_result (offset + dim) in
       let! x := VectorXd_coeff (Data_values d) i in
       ret (owned ++ [x]))
    (map Z.of_nat (seq 0 (Z.to_nat valueDim)))
    ownedDataVector.

(** [Mesh::getOwnedVertexData(dataID)]. *)
Definition getOwnedVertexData (dataID : Z) : M Mesh VectorXd :=
  let! r := Mesh_data dataID in
  let! d := dataAt r in
  let valueDim := Data_getDimensions d in
  let! m := get in
  let! result :=
    foldM
      (fun (acc : list double * Z) vertex =>
         let '(ownedDataVector, index) := acc in
         let! ownedDataVector :=
           (if Vertex_isOwner vertex
            then getOwnedVertexData_values dataID valueDim index ownedDataVector
            else ret ownedDataVector) in
         let! index := int_result (index + 1) in
         ret (ownedDataVector, index))
      (_vertices m) ([], 0) in
  ret (fst result).

(** [Mesh::tagAll]. *)
Definition tagAll : M Mesh unit :=
  let! m := get in
  forRange (length (_vertices m)) (fun k => updateVertex k Vertex_tag).

(** ** The edge order of a quad *)

(** [edges()[edgeID].vertex(i).getID()]. *)
Definition edgeVertexID {St : Type} (m : Mesh) (edgeID : Z) (i : nat) : M St Z :=
  if edgeID <? 0 then undefined
  else match _edges m !! Z.to_nat edgeID with
       | None => undefined
       | Some e =>
           match _vertices m !! Edge_vertex e i with
           | Some v => ret (Vertex_getID v)
           | None => undefined
           end
       end.

(** A local array of ints that is not initialised: an entry holds a value
    only after it was assigned, and reading it before is undefined
    behaviour. *)
Definition readLocal {St : Type} (a : list (option Z)) (i : nat) : M St Z :=
  match a !! i with
  | Some (Some x) => ret x
  | _ => undefined
  end.

(** The body of the loop of [Mesh::computeQuadEdgeOrder] for the edge
    [edgeIDs[j]]; [v0] and [v1] are [vertexIDs[0]] and [vertexIDs[1]], and
    the accumulator holds the arrays [edgeOrder] and [vertexIDs]. *)
Definition computeQuadEdgeOrder_body (m : Mesh) (v0 v1 : Z)
  (acc : list (option Z) * list (option Z)) (j : nat)
  : M (list Z) (list (option Z) * list (option Z)) :=
  let '(edgeOrder, vertexIDs) := acc in
  let! edgeID := readID j in
  let! ID1 := edgeVertexID m edgeID 0 in
  let! ID2 := edgeVertexID m edgeID 1 in
  if negb (ID1 =? v0) && negb (ID2 =? v0) && negb (ID1 =? v1) && negb (ID2 =? v1)
  then
    (* Doesnt match any point on edge 1, therefore must be edge 3 for the reordered set *)
    ret (<[2%nat := Some edgeID]> edgeOrder, vertexIDs)
  else if ((ID1 =? v0) || (ID2 =? v0)) && (negb (ID1 =? v1) && negb (ID2 =? v1))
  then
    (* One of the vertices matches V0, and does not match V1, must be edge 4 *)
    let! other := (if ID1 =? v0 then edgeVertexID m edgeID 1 else edgeVertexID m edgeID 0) in
    ret (<[3%nat := Some edgeID]> edgeOrder, <[3%nat := Some other]> vertexIDs)
  else if ((ID1 =? v1) || (ID2 =? v1)) && (negb (ID1 =? v0) && negb (ID2 =? v0))
  then
    (* Must be edge 2, as it matches V1 and not V0 *)
    let! other := (if ID1 =? v1 then edgeVertexID m edgeID 1 else edgeVertexID m edgeID 0) in
    ret (<[1%nat := Some edgeID]> edgeOrder, <[2%nat := Some other]> vertexIDs)
  else ret (edgeOrder, vertexIDs).

(** [Mesh::computeQuadEdgeOrder(edgeIDs)]; the state is the array passed by
    reference, the result the array of vertex ids. *)
Definition computeQuadEdgeOrder (m : Mesh) : M (list Z) (list Z) :=
  let edgeOrder : list (option Z) := [None; None; None; None] in
  let vertexIDs : list (option Z) := [None; None; None; None] in
  let! edge0 := readID 0 in
  let! v0 := edgeVertexID m edge0 0 in
  let! v1 := edgeVertexID m edge0 1 in
  let vertexIDs := <[1%nat := Some v1]> (<[0%nat := Some v0]> vertexIDs) in
  let! acc := foldM (computeQuadEdgeOrder_body m v0 v1) (seq 1 3) (edgeOrder, vertexIDs) in
  let '(edgeOrder, vertexIDs) := acc in
  let! o1 := readLocal edgeOrder 1 in
  writeID 1 o1 ;;;
  let! o2 := readLocal edgeOrder 2 in
  writeID 2 o2 ;;;
  let! o3 := readLocal edgeOrder 3 in
  writeID 3 o3 ;;;
  let! r0 := readLocal vertexIDs 0 in
  let! r1 := readLocal vertexIDs 1 in
  let! r2 := readLocal vertexIDs 2 in
  let! r3 := readLocal vertexIDs 3 in
  ret [r0; r1; r2; r3].

(** * Further specification vocabulary *)

(** The id of end [i] of the edge at position [edgeID] of the edge
    container. *)
Definition endID (m : Mesh) (edgeID : Z) (i : nat) : option Z :=
  if edgeID <? 0 then None
  else match _edges m !! Z.to_nat edgeID with
       | None => None
       | Some e => Vertex_getID <$> (_vertices m !! Edge_vertex e i)
       end.

(** The edge at [edgeID] goes from the vertex with id [a] to the one with
    id [b]. *)
Definition edgeEnds (m : Mesh) (edgeID : Z) (a b : Z) : Prop :=
  endID m edgeID 0 = Some a /\ endID m edgeID 1 = Some b.

(** The edge at [edgeID] joins the vertices with the ids [x] and [y], in
    one direction or the other. *)
Definition edgeJoins (m : Mesh) (edgeID : Z) (x y : Z) : Prop :=
  exists a b, edgeEnds m edgeID a b /\ ((a = x /\ b = y) \/ (a = y /\ b = x)).

(** The edge at [edgeID] does not end at the vertex with id [x]. *)
Definition edgeAvoids (m : Mesh) (edgeID : Z) (x : Z) : Prop :=
  exists a b, edgeEnds m edgeID a b /\ a <> x /\ b <> x.

(** The effect of one round of the loop of [computeQuadEdgeOrder] on the
    two local arrays, for an edge [e] from [a] to [b]. *)
Definition quadStep (v0 v1 e a b : Z) (acc : list (option Z) * list (option Z))
  : list (option Z) * list (option Z) :=
  let '(edgeOrder, vertexIDs) := acc in
  if negb (a =? v0) && negb (b =? v0) && negb (a =? v1) && negb (b =? v1)
  then (<[2%nat := Some e]> edgeOrder, vertexIDs)
  else if ((a =? v0) || (b =? v0)) && (negb (a =? v1) && negb (b =? v1))
  then (<[3%nat := Some e]> edgeOrder, <[3%nat := Some (if a =? v0 then b else a)]> vertexIDs)
  else if ((a =? v1) || (b =? v1)) && (negb (a =? v0) && negb (b =? v0))
  then (<[1%nat := Some e]> edgeOrder, <[2%nat := Some (if a =? v1 then b else a)]> vertexIDs)
  else (edgeOrder, vertexIDs).

(** A square with its four edges, not in the order of the boundary, a
    second edge between the first two vertices, and a data field with two
    values per vertex. *)
Definition sampleQuadMesh : Mesh :=
  mkMesh "Mesh" 3 false 0
    [sampleVertex 0 0 0 0; sampleVertex 1 0 0 1; sampleVertex 1 1 0 2; sampleVertex 0 1 0 3]
    [mkEdge 0 1 0 (VectorXd_Zero 3); mkEdge 2 3 1 (VectorXd_Zero 3);
     mkEdge 3 0 2 (VectorXd_Zero 3); mkEdge 1 2 3 (VectorXd_Zero 3);
     mkEdge 0 1 4 (VectorXd_Zero 3)]
    [] []
    [mkData [1; 2; 3; 4; 5; 6; 7; 8]%float "Forces" 7 2]
    4 5 0 0 (BoundingBox_ctor 3).

(** The values of the owned vertices: [values] holds one block of
    [valueDim] values per vertex, in the order of the vertices. *)
Fixpoint ownedValues (valueDim : nat) (vs : list Vertex) (values : list double) : list double :=
  match vs with
  | [] => []
  | v :: vs' =>
      (if Vertex_isOwner v then take valueDim values else [])
        ++ ownedValues valueDim vs' (drop valueDim values)
  end.

Definition owners (vs : list Vertex) : list Vertex := List.filter Vertex_isOwner vs.

(** What a vertex is apart from its normal. *)
Definition Vertex_core (v : Vertex) : VectorXd * Z * Z * bool * bool :=
  (Vertex_getCoords v, Vertex_getID v, Vertex_getGlobalIndex v,
   Vertex_isOwner v, Vertex_isTagged v).

(** [m'] differs from [m] at most in normals: the vertices are the same
    apart from their normals, there are as many edges, triangles and quads,
    and the data fields, the id managers and the attributes of the mesh are
    the same. *)
Definition onlyNormalsChanged (m m' : Mesh) : Prop :=
  map Vertex_core (_vertices m') = map Vertex_core (_vertices m) /\
  length (_edges m') = length (_edges m) /\
  length (_triangles m') = length (_triangles m) /\
  length (_quads m') = length (_quads m) /\
  _data m' = _data m /\
  (_manageVertexIDs m' = _manageVertexIDs m /\ _manageEdgeIDs m' = _manageEdgeIDs m /\
   _manageTriangleIDs m' = _manageTriangleIDs m /\ _manageQuadIDs m' = _manageQuadIDs m) /\
  (_name m' = _name m /\ _dimensions m' = _dimensions m /\
   _flipNormals m' = _flipNormals m /\ _id m' = _id m /\
   _boundingBox m' = _boundingBox m).

(** The names of the data fields of a mesh, in the order of creation. *)
Definition dataNames (m : Mesh) : list string := map Data_getName (_data m).

(** [m'] has the name and the data fields of [m], up to the buffers. *)
Definition dataKept (m m' : Mesh) : Prop :=
  _name m' = _name m /\
  map Data_signature (_data m') = map Data_signature (_data m).

(** From [s] to [s'] the mesh kept its name, data fields were only added
    behind the ones it had, and names that were distinct stayed so. *)
Definition dataGrows (s s' : DataCount * Mesh) : Prop :=
  _name (snd s') = _name (snd s) /\
  (exists extra,
     map Data_signature (_data (snd s')) = map Data_signature (_data (snd s)) ++ extra) /\
  (NoDup (dataNames (snd s)) -> NoDup (dataNames (snd s'))).

(** Every triangle of the mesh refers to edges of the mesh. *)
Definition trianglesValid (m : Mesh) : Prop :=
  Forall (fun t => is_Some (_edges m !! Triangle_edge0 t) /\
                   is_Some (_edges m !! Triangle_edge1 t) /\
                   is_Some (_edges m !! Triangle_edge2 t))
         (_triangles m).

(** The id refers to a vertex of the mesh, whose coordinates are [c]. *)
Definition coordsAt (m : Mesh) (id : Z) (c : VectorXd) : Prop :=
  0 <= id /\ exists v, _vertices m !! Z.to_nat id = Some v /\ Vertex_getCoords v = c.

(** A mesh of dimension 2 with four vertices. *)
Definition sampleFlatMesh : Mesh :=
  mkMesh "Mesh" 2 false 0
    [mkVertex [0; 0]%float 0 0 true false [0; 0]%float;
     mkVertex [1; 0]%float 1 1 true false [0; 0]%float;
     mkVertex [1; 1]%float 2 2 true false [0; 0]%float;
     mkVertex [0; 1]%float 3 3 true false [0; 0]%float]
    [] [] [] [] 4 0 0 0 (BoundingBox_ctor 2).

(** * Properties *)

(** ** Reasoning about computations *)


Section Stable.
Context {St : Type} (R : St -> St -> Prop) `{!PreOrder R}.

Lemma stable_ret {A} (a : A) : stable R (ret a).
Proof. intros s. reflexivity. Qed.

Lemma stable_get : stable R get.
Proof. intros s. reflexivity. Qed.

Lemma stable_assert (b : bool) : stable R (PRECICE_ASSERT b).
Proof. intros s. unfold PRECICE_ASSERT. destruct b; reflexivity. Qed.

Lemma stable_check (b : bool) (msg : string) : stable R (PRECICE_CHECK b msg).
Proof. intros s. unfold PRECICE_CHECK. destruct b; reflexivity. Qed.

Lemma stable_undefined {A} : stable R (@undefined St A).
Proof. intros s. reflexivity. Qed.

Lemma stable_modify (f : St -> St) : (forall s, R s (f s)) -> stable R (modify f).
Proof. intros Hf s. apply Hf. Qed.

Lemma stable_bind {A B} (c : M St A) (k : A -> M St B) :
  stable R c -> (forall a, stable R (k a)) -> stable R (bind c k).
Proof.
  intros Hc Hk s. unfold bind. specialize (Hc s).
  destruct (c s) as [[a| |msg| |] s']; simpl in *; try assumption.
  transitivity s'; [assumption | apply Hk].
Qed.

(** After [get], the continuation may depend on the state it was given. *)
Lemma stable_get_bind {B} (k : St -> M St B) :
  (forall s, R s (snd (k s s))) -> stable R (bind get k).
Proof. intros Hk s. apply Hk. Qed.

Lemma stable_forEach {A} (l : list A) (body : A -> M St unit) :
  (forall x, stable R (body x)) -> stable R (forEach l body).
Proof.
  intros Hb. induction l as [|x l IH]; simpl.
  - apply stable_ret.
  - apply stable_bind; [apply Hb | intros _; exact IH].
Qed.

Lemma stable_foldM {A B} (f : B -> A -> M St B) (l : list A) (acc : B) :
  (forall b x, stable R (f b x)) -> stable R (foldM f l acc).
Proof.
  intros Hf. revert acc. induction l as [|x l IH]; intros acc; simpl.
  - apply stable_ret.
  - apply stable_bind; [apply Hf | intros b; apply IH].
Qed.

Lemma stable_find_if {A} (pred : A -> M St bool) (l : list A) (pos : nat) :
  (forall x, stable R (pred x)) -> stable R (std_find_if pred l pos).
Proof.
  intros Hp. revert pos. induction l as [|x l IH]; intros pos; simpl.
  - apply stable_ret.
  - apply stable_bind; [apply Hp |].
    intros [|]; [apply stable_ret | apply IH].
Qed.

Lemma stable_if {A} (b : bool) (c1 c2 : M St A) :
  stable R c1 -> stable R c2 -> stable R (if b then c1 else c2).
Proof. destruct b; auto. Qed.

End Stable.

(** Lifting along [onSnd]. *)
Lemma stable_onSnd {S1 S2 A} (R : S2 -> S2 -> Prop) (c : M S2 A) :
  stable R c -> stable (fun s s' : S1 * S2 => R (snd s) (snd s')) (onSnd c).
Proof.
  intros Hc s. unfold onSnd. specialize (Hc (snd s)).
  destruct (c (snd s)) as [r s2]. exact Hc.
Qed.

(** ** Runs that return *)

Lemma bind_Done {St A B} (c : M St A) (k : A -> M St B) (s s' : St) (b : B) :
  bind c k s = (Done b, s') ->
  exists a s1, c s = (Done a, s1) /\ k a s1 = (Done b, s').
Proof.
  unfold bind. destruct (c s) as [[a| | | |] s1]; try discriminate.
  intros Hk. exists a, s1. split; [reflexivity | exact Hk].
Qed.

Lemma ret_Done {St A} (a b : A) (s s' : St) :
  ret a s = (Done b, s') -> b = a /\ s' = s.
Proof. unfold ret. intros [= <- <-]. split; reflexivity. Qed.

Lemma get_Done {St} (s s' x : St) :
  get s = (Done x, s') -> x = s /\ s' = s.
Proof. unfold get. intros [= <- <-]. split; reflexivity. Qed.

Lemma put_Done {St} (x s s' : St) (u : unit) :
  put x s = (Done u, s') -> s' = x.
Proof. unfold put. intros [= _ <-]. reflexivity. Qed.

Lemma assert_Done {St} (b : bool) (s s' : St) (u : unit) :
  PRECICE_ASSERT b s = (Done u, s') -> b = true /\ s' = s.
Proof. unfold PRECICE_ASSERT. destruct b; [intros [= _ <-]; split; reflexivity | discriminate]. Qed.

Lemma check_Done {St} (b : bool) (msg : string) (s s' : St) (u : unit) :
  PRECICE_CHECK b msg s = (Done u, s') -> b = true /\ s' = s.
Proof. unfold PRECICE_CHECK. destruct b; [intros [= _ <-]; split; reflexivity | discriminate]. Qed.

(** ** The dimensionality of a mesh is fixed *)

#[local] Instance sameDimensions_preorder : PreOrder sameDimensions.
Proof.
  split.
  - intros m. reflexivity.
  - intros m1 m2 m3 H12 H23. unfold sameDimensions in *. congruence.
Qed.

Create HintDb stable_db.

(** One step of a stability proof: split a [bind], enter a loop, or close a
    leaf.  A continuation of [get] that writes the state back is handled by
    [stable_get_bind]. *)
Ltac stable_leaf :=
  first
    [ apply stable_ret; exact _ | apply stable_get; exact _
    | apply stable_assert; exact _ | apply stable_check; exact _
    | apply stable_undefined; exact _
    | apply stable_modify; intros; reflexivity
    | intros ?; reflexivity
    | solve [ auto with stable_db ] ].

Ltac stable_tac :=
  cbv beta zeta;
  lazymatch goal with
  | |- stable _ (bind get _) =>
      first
        [ solve [ apply stable_bind; [exact _ | apply stable_get; exact _ | intros; stable_tac] ]
        | apply stable_get_bind; intros; cbv [bind put ret modify get PRECICE_ASSERT PRECICE_CHECK]; simpl; reflexivity ]
  | |- stable _ (bind _ _) => apply stable_bind; [exact _ | stable_tac | intros; stable_tac]
  | |- stable _ (forEach _ _) => apply stable_forEach; [exact _ | intros; stable_tac]
  | |- stable _ (forRange _ _) => apply stable_forEach; [exact _ | intros; stable_tac]
  | |- stable _ (foldM _ _ _) => apply stable_foldM; [exact _ | intros; stable_tac]
  | |- stable _ (std_find_if _ _ _) => apply stable_find_if; [exact _ | intros; stable_tac]
  | |- stable _ (if _ then _ else _) => apply stable_if; stable_tac
  | |- stable _ (match ?x with (_, _) => _ end) => destruct x; stable_tac
  | |- stable _ (match ?x with Some _ => _ | None => _ end) => destruct x; stable_tac
  | |- stable _ (let _ := _ in _) => cbv zeta; stable_tac
  | |- _ => stable_leaf
  end.

Section Dimensions.
Context `{MeshPrimitives}.

Lemma vertexAt_dims r : stable sameDimensions (vertexAt r).
Proof. intros s. unfold vertexAt. destruct (_ !! _); reflexivity. Qed.

Lemma edgeAt_dims r : stable sameDimensions (edgeAt r).
Proof. intros s. unfold edgeAt. destruct (_ !! _); reflexivity. Qed.

Lemma triangleAt_dims r : stable sameDimensions (triangleAt r).
Proof. intros s. unfold triangleAt. destruct (_ !! _); reflexivity. Qed.

Lemma quadAt_dims r : stable sameDimensions (quadAt r).
Proof. intros s. unfold quadAt. destruct (_ !! _); reflexivity. Qed.

#[local] Hint Resolve vertexAt_dims edgeAt_dims triangleAt_dims quadAt_dims : stable_db.

Lemma updateVertex_dims r f : stable sameDimensions (updateVertex r f).
Proof. unfold updateVertex. apply stable_bind; [exact _ | apply vertexAt_dims | intros; stable_tac]. Qed.

Lemma updateEdge_dims r f : stable sameDimensions (updateEdge r f).
Proof. unfold updateEdge. apply stable_bind; [exact _ | apply edgeAt_dims | intros; stable_tac]. Qed.

#[local] Hint Resolve updateVertex_dims updateEdge_dims : stable_db.

Lemma createVertex_dims coords : stable sameDimensions (createVertex coords).
Proof. unfold createVertex, getFreeVertexID. stable_tac. Qed.

Lemma createEdge_dims v1 v2 : stable sameDimensions (createEdge v1 v2).
Proof. unfold createEdge, getFreeEdgeID. stable_tac. Qed.

#[local] Hint Resolve createVertex_dims createEdge_dims : stable_db.

Lemma createUniqueEdge_dims v1 v2 : stable sameDimensions (createUniqueEdge v1 v2).
Proof. unfold createUniqueEdge. stable_tac. Qed.

Lemma createTriangle_dims e1 e2 e3 : stable sameDimensions (createTriangle e1 e2 e3).
Proof.
  unfold createTriangle, getFreeTriangleID. stable_tac.
Qed.

#[local] Hint Resolve createTriangle_dims : stable_db.

Lemma createQuad_dims e1 e2 e3 e4 : stable sameDimensions (createQuad e1 e2 e3 e4).
Proof. unfold createQuad, getFreeQuadID. stable_tac. Qed.

Lemma allocateDataValues_dims : stable sameDimensions allocateDataValues.
Proof. unfold allocateDataValues. stable_tac. Qed.

Lemma computeBoundingBox_dims : stable sameDimensions computeBoundingBox.
Proof. unfold computeBoundingBox. stable_tac. Qed.

Lemma clear_dims : stable sameDimensions clear.
Proof. unfold clear. stable_tac. Qed.

Lemma computeState_dims : stable sameDimensions computeState.
Proof.
  unfold computeState, computeState_edges2D, computeState_triangles,
    computeState_quads, assertVerticesDiffer, accumulateVertexNormal,
    accumulateEdgeNormal.
  stable_tac.
Qed.

Lemma addMesh_dims deltaMesh : stable sameDimensions (addMesh deltaMesh).
Proof.
  unfold addMesh, addMesh_vertex, addMesh_edge, addMesh_triangle,
    idOfVertexIn, idOfEdgeIn, mapAt.
  stable_tac.
Qed.

End Dimensions.

#[local] Instance sameDimensions2_preorder : PreOrder sameDimensions2.
Proof.
  split.
  - intros s. unfold sameDimensions2. reflexivity.
  - intros s1 s2 s3 H12 H23. unfold sameDimensions2 in *. etransitivity; eassumption.
Qed.

Section DimensionsOfCalls.
Context `{MeshPrimitives}.

Lemma createData_dims name dimension : stable sameDimensions2 (createData name dimension).
Proof. unfold createData, Data_ctor, Data_getDataCount. stable_tac. Qed.

Lemma onSnd_dims {A} (c : M Mesh A) :
  stable sameDimensions c -> stable sameDimensions2 (onSnd (S1 := DataCount) c).
Proof. intros Hc. exact (stable_onSnd sameDimensions c Hc). Qed.

Lemma discard_dims {St A} (R : St -> St -> Prop) `{!PreOrder R} (c : M St A) :
  stable R c -> stable R (discard c).
Proof.
  intros Hc. unfold discard. apply stable_bind; [exact _ | exact Hc |].
  intros _. apply stable_ret. exact _.
Qed.

Lemma call_dims (c : MeshCall) : stable sameDimensions2 (call c).
Proof.
  destruct c; simpl;
    try (apply onSnd_dims; try (apply discard_dims; [exact _ |])).
  - apply createVertex_dims.
  - apply createEdge_dims.
  - apply createUniqueEdge_dims.
  - apply createTriangle_dims.
  - apply createQuad_dims.
  - apply discard_dims; [exact _ | apply createData_dims].
  - apply allocateDataValues_dims.
  - apply clear_dims.
  - apply addMesh_dims.
  - apply computeState_dims.
  - apply computeBoundingBox_dims.
Qed.

Lemma calls_dims (cs : list MeshCall) : stable sameDimensions2 (calls cs).
Proof. unfold calls. apply stable_forEach; [exact _ | apply call_dims]. Qed.

Lemma Mesh_ctor_Done name dimensions flipNormals id m :
  Mesh_ctor name dimensions flipNormals id = Done m ->
  getDimensions m = dimensions /\ (dimensions = 2 \/ dimensions = 3).
Proof.
  unfold Mesh_ctor. intros Hm.
  destruct (dimensions =? 2) eqn:E2; destruct (dimensions =? 3) eqn:E3;
    simpl in Hm; try discriminate;
    destruct (String.eqb name "") eqn:En; try discriminate;
    injection Hm as <-; simpl; split; try reflexivity; lia.
Qed.

Lemma Mesh_ctor_bad_dimensions name dimensions flipNormals id :
  dimensions <> 2 -> dimensions <> 3 ->
  Mesh_ctor name dimensions flipNormals id = AssertionFailed.
Proof.
  intros H2 H3. unfold Mesh_ctor.
  destruct (Z.eqb_spec dimensions 2); [contradiction |].
  destruct (Z.eqb_spec dimensions 3); [contradiction |].
  reflexivity.
Qed.

(** C5: a mesh can only be constructed with dimensionality 2 or 3 (any other
    value fails the constructor's assertion), and [getDimensions] keeps the
    value given to the constructor through every sequence of mesh operations
    (createVertex, createEdge, createUniqueEdge, createTriangle, createQuad,
    createData, allocateDataValues, clear, addMesh, computeState,
    computeBoundingBox), whether the sequence runs to its end or stops at a
    failed assertion or check. *)
Theorem Mesh_dimensions_fixed :
  (forall name dimensions flipNormals id,
      dimensions <> 2 /\ dimensions <> 3 ->
      Mesh_ctor name dimensions flipNormals id = AssertionFailed) /\
  (forall name dimensions flipNormals id m,
      Mesh_ctor name dimensions flipNormals id = Done m ->
      getDimensions m = dimensions /\ (dimensions = 2 \/ dimensions = 3)) /\
  (forall (c : MeshCall) (count : DataCount) (m : Mesh),
      getDimensions (snd (snd (call c (count, m)))) = getDimensions m) /\
  (forall name dimensions flipNormals id m (cs : list MeshCall) (count : DataCount),
      Mesh_ctor name dimensions flipNormals id = Done m ->
      let m' := snd (snd (calls cs (count, m))) in
      getDimensions m' = dimensions /\ (getDimensions m' = 2 \/ getDimensions m' = 3)).
Proof.
  split; [| split; [| split]].
  - intros name dimensions flipNormals id [H2 H3].
    apply Mesh_ctor_bad_dimensions; assumption.
  - apply Mesh_ctor_Done.
  - intros c count m. exact (call_dims c (count, m)).
  - intros name dimensions flipNormals id m cs count Hm m'.
    apply Mesh_ctor_Done in Hm as [Hd Hr].
    assert (Hs : getDimensions m' = dimensions).
    { subst m'. rewrite <- Hd. exact (calls_dims cs (count, m)). }
    split; [exact Hs | rewrite Hs; exact Hr].
Qed.

End DimensionsOfCalls.

(** The constructor accepts the dimensionalities 2 and 3, and a run of
    operations that ends at a failed check keeps the dimensionality too. *)
Example Mesh_ctor_accepts_3 :
  Mesh_ctor "Mesh" 3 false 0 = Done emptyMesh3D.
Proof. reflexivity. Qed.

Example Mesh_ctor_rejects_4 :
  Mesh_ctor "Mesh" 4 false 0 = AssertionFailed.
Proof. reflexivity. Qed.

Example calls_keep_dimensions :
  let run :=
    calls (H := samplePrimitives)
      [Call_createVertex [0; 0; 0]%float; Call_createVertex [1; 0; 0]%float;
       Call_createEdge 0 1; Call_createData "Forces" 3; Call_allocateDataValues;
       Call_computeBoundingBox; Call_computeState; Call_createData "Forces" 3;
       Call_clear]
      (0, emptyMesh3D) in
  fst run = FatalError (createData_message "Forces" "Mesh") /\
  getDimensions (snd (snd run)) = 3 /\
  length (_vertices (snd (snd run))) = 2%nat.
Proof. vm_compute. repeat split. Qed.

(** ** Buffer sizes after [allocateDataValues] *)

Section Allocate.
Context `{MeshPrimitives}.

Lemma VectorXd_resize_length (n : nat) (v : VectorXd) :
  length (VectorXd_resize n v) = n.
Proof.
  unfold VectorXd_resize. destruct (Nat.eqb_spec n (length v)) as [->|Hne].
  - reflexivity.
  - rewrite length_map, length_seq. reflexivity.
Qed.

Lemma to_size_t_small (z : Z) : 0 <= z < 2 ^ 64 -> to_size_t z = z.
Proof. intros Hz. unfold to_size_t. apply Z.mod_small. exact Hz. Qed.

Lemma allocateDataValues_body_signature (expectedCount : Z) (d : Data) :
  Data_signature (allocateDataValues_body expectedCount d) = Data_signature d.
Proof.
  unfold allocateDataValues_body.
  repeat match goal with |- context [if ?b then _ else _] => destruct b end;
    reflexivity.
Qed.

Lemma allocateDataValues_body_length (n : nat) (d : Data) :
  Data_inRange n d ->
  Z.of_nat (length (Data_values (allocateDataValues_body (to_size_t (Z.of_nat n)) d)))
  = Z.of_nat n * Data_getDimensions d.
Proof.
  intros (Hdim & [Hlo Hhi] & [Hlo' Hhi']).
  unfold allocateDataValues_body.
  assert (Hexp : to_size_t (to_size_t (Z.of_nat n) * to_size_t (Data_getDimensions d))
                 = Z.of_nat n * Data_getDimensions d).
  { unfold to_size_t. rewrite <- Z.mul_mod by lia. apply Z.mod_small. lia. }
  rewrite Hexp.
  rewrite (to_size_t_small (Z.of_nat (length (Data_values d)))) by lia.
  set (expectedSize := Z.of_nat n * Data_getDimensions d) in *.
  set (actualSize := Z.of_nat (length (Data_values d))) in *.
  destruct (Z.ltb_spec expectedSize actualSize) as [Hshrink|Hge].
  - destruct (Z.ltb_spec actualSize expectedSize) as [Habs|_]; [lia |].
    simpl. rewrite VectorXd_resize_length. lia.
  - destruct (Z.ltb_spec actualSize expectedSize) as [Hgrow|Hle].
    + simpl. unfold utils_append, VectorXd_Zero.
      rewrite length_app, repeat_length.
      rewrite to_size_t_small by lia. fold actualSize. lia.
    + fold actualSize. lia.
Qed.

(** C1: on a mesh whose data fields have sizes in the range of Eigen's index
    type and a dimension that is not negative, [allocateDataValues] returns
    and leaves the vertices and the identity of the data fields as they
    were, and afterwards the buffer of every data field of the mesh has
    length (number of vertices) * (dimension of the field), whatever its
    length was before. *)
Theorem allocateDataValues_buffer_sizes (m : Mesh) :
  Forall (Data_inRange (length (_vertices m))) (_data m) ->
  exists m',
    allocateDataValues m = (Done tt, m') /\
    _vertices m' = _vertices m /\
    map Data_signature (_data m') = map Data_signature (_data m) /\
    Forall (fun d => Z.of_nat (length (Data_values d))
                     = Z.of_nat (length (_vertices m')) * Data_getDimensions d)
           (_data m').
Proof.
  intros Hrange.
  exists (snd (allocateDataValues m)). split; [reflexivity |]. simpl.
  split; [reflexivity |]. split.
  - rewrite map_map. apply map_ext. intros d.
    apply allocateDataValues_body_signature.
  - rewrite List.Forall_map.
    eapply List.Forall_impl; [| exact Hrange].
    intros d Hd. simpl.
    pose proof (allocateDataValues_body_signature
                  (to_size_t (Z.of_nat (length (_vertices m)))) d) as Hsig.
    unfold Data_signature in Hsig. injection Hsig as _ _ ->.
    apply allocateDataValues_body_length. exact Hd.
Qed.

End Allocate.


Lemma allocateDataValues_buffer_sizes_witness :
  exists m',
    allocateDataValues (H := samplePrimitives) sampleMeshWithData = (Done tt, m') /\
    _vertices m' = _vertices sampleMeshWithData /\
    map Data_signature (_data m') = map Data_signature (_data sampleMeshWithData) /\
    Forall (fun d => Z.of_nat (length (Data_values d))
                     = Z.of_nat (length (_vertices m')) * Data_getDimensions d)
           (_data m').
Proof.
  apply (allocateDataValues_buffer_sizes (H := samplePrimitives) sampleMeshWithData).
  unfold Data_inRange, fitsIndex. simpl.
  repeat (constructor; [simpl; lia |]). constructor.
Defined.

(** ** Construction of coupling data *)

(** C4: the default constructor of [CouplingData] always fails its
    assertion; the constructor with four arguments returns a record exactly
    when the values pointer is not NULL and the mesh pointer is not empty,
    and fails an assertion otherwise; the record it returns holds the
    arguments, a NULL [newValues] and an empty [oldValues]. *)
Theorem CouplingData_constructors :
  cplscheme.CouplingData_default = AssertionFailed /\
  forall (values : cplscheme.pointer) (mesh : cplscheme.PtrMesh)
         (initialize : bool) (dimension : Z),
    let built := cplscheme.CouplingData_ctor values mesh initialize dimension in
    ((exists cd, built = Done cd) <->
       (values <> cplscheme.NULL /\ mesh <> cplscheme.PtrMesh_empty)) /\
    (built = AssertionFailed <->
       (values = cplscheme.NULL \/ mesh = cplscheme.PtrMesh_empty)) /\
    (forall cd, built = Done cd ->
       cd = cplscheme.mkCouplingData values cplscheme.NULL [] mesh initialize dimension).
Proof.
  split; [reflexivity |].
  intros values mesh initialize dimension built. subst built.
  unfold cplscheme.CouplingData_ctor.
  destruct values as [|a]; simpl.
  - split; [| split].
    + split; [intros [cd Hcd]; discriminate | intros [Hv _]; contradiction].
    + split; [intros _; left; reflexivity | reflexivity].
    + intros cd Hcd. discriminate.
  - destruct mesh as [|meshID others]; simpl.
    + split; [| split].
      * split; [intros [cd Hcd]; discriminate | intros [_ Hm]; contradiction].
      * split; [intros _; right; reflexivity | reflexivity].
      * intros cd Hcd. discriminate.
    + assert (Hpos : (0 <? 1 + Z.of_nat others) = true) by (apply Z.ltb_lt; lia).
      rewrite Hpos. simpl.
      split; [| split].
      * split; [intros _; split; discriminate | intros _; eexists; reflexivity].
      * split; [discriminate | intros [Hv|Hm]; discriminate].
      * intros cd Hcd. injection Hcd as <-. reflexivity.
Qed.

(** *** Two readings of [swap]

    With the exchange, two swaps give back the values, whatever the depth of
    the history; with the shift they do not, even with two columns of
    history.  The spec does not decide between the readings. *)

Lemma swap_exchanging_twice (b : cplscheme.Buffers) :
  cplscheme.current (cplscheme.swap_exchanging (cplscheme.swap_exchanging b))
  = cplscheme.current b.
Proof. reflexivity. Qed.

Example swap_shifting_twice :
  let b := cplscheme.mkBuffers [1]%float [2]%float [[0]%float; [0]%float] 2 in
  (2 <= length (cplscheme.history b))%nat /\
  cplscheme.current (cplscheme.swap_shifting (cplscheme.swap_shifting b)) = [2]%float /\
  cplscheme.current b = [1]%float.
Proof. simpl. repeat split. lia. Qed.

(** ** [createTriangle] *)

Section CreateTriangle.
Context `{MeshPrimitives}.

Lemma edgeAt_Some (m : Mesh) (r : EdgeRef) (e : Edge) :
  _edges m !! r = Some e -> edgeAt r m = (Done e, m).
Proof. intros He. unfold edgeAt. rewrite He. reflexivity. Qed.

Lemma set_triangles_manage_eta (m : Mesh) :
  set_triangles (_triangles m) (set_manageTriangleIDs (_manageTriangleIDs m) m) = m.
Proof. destruct m. reflexivity. Qed.

(** The closed form of [createTriangle] on edges of the mesh. *)
Lemma createTriangle_run (m : Mesh) (edgeOne edgeTwo edgeThree : EdgeRef) (e1 e2 e3 : Edge) :
  _edges m !! edgeOne = Some e1 ->
  _edges m !! edgeTwo = Some e2 ->
  _edges m !! edgeThree = Some e3 ->
  createTriangle edgeOne edgeTwo edgeThree m =
    if Edge_connectedTo e1 e2 && Edge_connectedTo e2 e3 && Edge_connectedTo e3 e1
    then (Done (length (_triangles m)),
          set_triangles
            (_triangles m ++
               [Triangle_ctor edgeOne edgeTwo edgeThree (_manageTriangleIDs m) (_dimensions m)])
            (set_manageTriangleIDs (_manageTriangleIDs m + 1) m))
    else (FatalError "Edges are not connected!", m).
Proof.
  intros H1 H2 H3. unfold createTriangle, bind.
  rewrite (edgeAt_Some m _ _ H1), (edgeAt_Some m _ _ H2), (edgeAt_Some m _ _ H3).
  unfold PRECICE_CHECK.
  destruct (Edge_connectedTo e1 e2 && Edge_connectedTo e2 e3 && Edge_connectedTo e3 e1);
    reflexivity.
Qed.

(** C8: on three edges of the mesh, [createTriangle] aborts with the fatal
    error "Edges are not connected!" and leaves the mesh (so also its
    triangle container) as it was, unless edgeOne is connected to edgeTwo,
    edgeTwo to edgeThree and edgeThree to edgeOne; when they are, it returns
    a reference to one new triangle, appended behind the unchanged old ones,
    that refers to the three edges in the given order and whose id is the
    next one of the id manager, different from the id of every triangle
    already in the mesh. *)
Theorem createTriangle_checked (m : Mesh) (edgeOne edgeTwo edgeThree : EdgeRef)
  (e1 e2 e3 : Edge) :
  _edges m !! edgeOne = Some e1 ->
  _edges m !! edgeTwo = Some e2 ->
  _edges m !! edgeThree = Some e3 ->
  triangleIDsIssued m ->
  let connected :=
    Edge_connectedTo e1 e2 && Edge_connectedTo e2 e3 && Edge_connectedTo e3 e1 in
  (connected = false ->
     createTriangle edgeOne edgeTwo edgeThree m = (FatalError "Edges are not connected!", m)) /\
  (connected = true ->
     exists (t : Triangle) (m' : Mesh),
       createTriangle edgeOne edgeTwo edgeThree m = (Done (length (_triangles m)), m') /\
       _triangles m' = _triangles m ++ [t] /\
       _triangles m' !! length (_triangles m) = Some t /\
       Triangle_edge t 0 = edgeOne /\
       Triangle_edge t 1 = edgeTwo /\
       Triangle_edge t 2 = edgeThree /\
       Triangle_getID t = _manageTriangleIDs m /\
       ~ In (Triangle_getID t) (map Triangle_getID (_triangles m)) /\
       _edges m' = _edges m /\
       triangleIDsIssued m').
Proof.
  intros H1 H2 H3 Hids connected.
  pose proof (createTriangle_run m _ _ _ _ _ _ H1 H2 H3) as Hrun.
  fold connected in Hrun.
  split; intros Hc; rewrite Hc in Hrun.
  - exact Hrun.
  - exists (Triangle_ctor edgeOne edgeTwo edgeThree (_manageTriangleIDs m) (_dimensions m)).
    eexists. split; [exact Hrun |]. simpl.
    split; [reflexivity |].
    split; [apply list_lookup_middle; reflexivity |].
    repeat (split; [reflexivity |]).
    split; [| split; [reflexivity |]].
    + intros Hin. apply in_map_iff in Hin as (t & Hid & Hin).
      unfold triangleIDsIssued in Hids. rewrite List.Forall_forall in Hids.
      specialize (Hids t Hin). simpl in Hids. lia.
    + unfold triangleIDsIssued in *. simpl.
      apply Forall_app. split.
      * eapply List.Forall_impl; [| exact Hids]. simpl. intros t Ht. lia.
      * constructor; [simpl; lia | constructor].
Qed.

End CreateTriangle.

Lemma createTriangle_checked_witness :
  createTriangle (H := samplePrimitives) 0 1 3 sampleTriangleMesh
    = (FatalError "Edges are not connected!", sampleTriangleMesh) /\
  exists (t : Triangle) (m' : Mesh),
    createTriangle (H := samplePrimitives) 2 0 1 sampleTriangleMesh = (Done 1%nat, m') /\
    _triangles m' = _triangles sampleTriangleMesh ++ [t] /\
    Triangle_getID t = 1.
Proof.
  split.
  - refine (proj1 (createTriangle_checked (H := samplePrimitives) sampleTriangleMesh
                     0%nat 1%nat 3%nat _ _ _ eq_refl eq_refl eq_refl _) eq_refl).
    repeat constructor.
  - destruct (proj2 (createTriangle_checked (H := samplePrimitives) sampleTriangleMesh
                       2%nat 0%nat 1%nat _ _ _ eq_refl eq_refl eq_refl
                       ltac:(repeat constructor)) eq_refl)
      as (t & m' & Hrun & Happ & _ & _ & _ & _ & Hid & _).
    exists t, m'. repeat split; assumption.
Defined.

(** ** [createUniqueEdge] *)

Lemma std_is_permutation_pair (a b c d : Z) :
  std_is_permutation [a; b] [c; d] = true <-> (a = c /\ b = d) \/ (a = d /\ b = c).
Proof.
  unfold std_is_permutation. simpl.
  repeat match goal with |- context [Z.eq_dec ?x ?y] => destruct (Z.eq_dec x y) end;
    simpl; split; intros Hp; try discriminate; try reflexivity;
    try (destruct Hp as [[? ?]|[? ?]]; congruence);
    try (left; split; congruence); try (right; split; congruence).
Qed.

Lemma joinsb_joins (m : Mesh) (a b : Z) (e : Edge) :
  joinsb m a b e = true <-> joins m a b e.
Proof.
  unfold joinsb, joins.
  destruct (vertexID m (Edge_vertex0 e)) as [c|]; [destruct (vertexID m (Edge_vertex1 e)) as [d|] |].
  - rewrite std_is_permutation_pair. split.
    + intros [[-> ->]|[-> ->]]; exists c, d; repeat split; [reflexivity | apply perm_swap].
    + intros (c' & d' & [= <-] & [= <-] & Hp).
      apply Permutation_length_2 in Hp as [[-> ->]|[-> ->]]; [left | right]; split; reflexivity.
  - split; [discriminate | intros (c' & d' & _ & Hd & _); discriminate].
  - split; [discriminate | intros (c' & d' & Hc & _ & _); discriminate].
Qed.

Lemma findFrom_Some {A} (p : A -> bool) (l : list A) (pos r : nat) :
  findFrom p l pos = Some r ->
  exists x, (pos <= r)%nat /\ l !! (r - pos)%nat = Some x /\ p x = true /\
            forall y, In y (take (r - pos) l) -> p y = false.
Proof.
  revert pos. induction l as [|x l IH]; intros pos; simpl; [discriminate |].
  destruct (p x) eqn:Hpx.
  - intros [= <-]. exists x. rewrite Nat.sub_diag. simpl.
    repeat split; [lia | assumption | intros y []].
  - intros Hf. apply IH in Hf as (x' & Hle & Hx' & Hp' & Hbefore).
    exists x'. replace (r - pos)%nat with (S (r - S pos)) by lia. simpl.
    repeat split; [lia | assumption | assumption |].
    intros y [<-|Hy]; [assumption | apply Hbefore; assumption].
Qed.

Lemma findFrom_None {A} (p : A -> bool) (l : list A) (pos : nat) :
  findFrom p l pos = None <-> forall x, In x l -> p x = false.
Proof.
  revert pos. induction l as [|x l IH]; intros pos; simpl.
  - split; [intros _ x [] | reflexivity].
  - destruct (p x) eqn:Hpx.
    + split; [discriminate | intros Hall; specialize (Hall x (or_introl eq_refl)); congruence].
    + rewrite IH. split.
      * intros Hall y [<-|Hy]; [assumption | apply Hall; assumption].
      * intros Hall y Hy. apply Hall. right. assumption.
Qed.

Lemma findFrom_app_None {A} (p : A -> bool) (l : list A) (x : A) (pos : nat) :
  findFrom p l pos = None -> p x = true ->
  findFrom p (l ++ [x]) pos = Some (pos + length l)%nat.
Proof.
  revert pos. induction l as [|y l IH]; intros pos; simpl.
  - intros _ ->. f_equal. lia.
  - destruct (p y); [discriminate |]. intros Hn Hx.
    rewrite IH by assumption. f_equal. lia.
Qed.

Lemma vertexAt_Some (m : Mesh) (r : VertexRef) (v : Vertex) :
  _vertices m !! r = Some v -> vertexAt r m = (Done v, m).
Proof. intros Hv. unfold vertexAt. rewrite Hv. reflexivity. Qed.

(** On valid edges the search of [createUniqueEdge] is the pure search. *)
Lemma find_if_run (m : Mesh) (a b : Z) (l : list Edge) (pos : nat) :
  Forall (fun e => is_Some (_vertices m !! Edge_vertex0 e) /\
                   is_Some (_vertices m !! Edge_vertex1 e)) l ->
  std_find_if
    (fun e =>
       let! w0 := vertexAt (Edge_vertex e 0) in
       let! w1 := vertexAt (Edge_vertex e 1) in
       ret (std_is_permutation [a; b] [Vertex_getID w0; Vertex_getID w1]))
    l pos m
  = (Done (findFrom (joinsb m a b) l pos), m).
Proof.
  intros Hvalid. revert pos.
  induction Hvalid as [|e l [[w0 H0] [w1 H1]] _ IH]; intros pos; simpl.
  - reflexivity.
  - unfold bind at 1. unfold bind at 1. simpl.
    rewrite (vertexAt_Some m _ _ H0). unfold bind at 1.
    rewrite (vertexAt_Some m _ _ H1). simpl.
    unfold joinsb, vertexID. rewrite H0, H1. simpl.
    destruct (std_is_permutation [a; b] [Vertex_getID w0; Vertex_getID w1]).
    + reflexivity.
    + apply IH.
Qed.

(** The closed form of [createUniqueEdge] on vertices of a valid mesh. *)
Lemma createUniqueEdge_run (m : Mesh) (v1 v2 : VertexRef) (a b : Z) :
  vertexID m v1 = Some a ->
  vertexID m v2 = Some b ->
  edgesValid m ->
  createUniqueEdge v1 v2 m =
    match findFrom (joinsb m a b) (_edges m) 0 with
    | Some p => (Done p, m)
    | None => createEdge v1 v2 m
    end.
Proof.
  unfold vertexID. intros Ha Hb Hvalid.
  destruct (_vertices m !! v1) as [w1|] eqn:E1; [| discriminate].
  destruct (_vertices m !! v2) as [w2|] eqn:E2; [| discriminate].
  injection Ha as <-. injection Hb as <-.
  unfold createUniqueEdge.
  unfold bind at 1. rewrite (vertexAt_Some m _ _ E1).
  unfold bind at 1. rewrite (vertexAt_Some m _ _ E2).
  cbv zeta. unfold bind at 1. simpl.
  unfold bind at 1. rewrite (find_if_run m _ _ _ 0 Hvalid).
  destruct (findFrom _ _ _); reflexivity.
Qed.

Lemma joinsb_same_vertices (m m' : Mesh) (a b : Z) (e : Edge) :
  _vertices m' = _vertices m -> joinsb m' a b e = joinsb m a b e.
Proof. intros Hv. unfold joinsb, vertexID. rewrite Hv. reflexivity. Qed.

Lemma findFrom_ext {A} (p q : A -> bool) (l : list A) (pos : nat) :
  (forall x, p x = q x) -> findFrom p l pos = findFrom q l pos.
Proof.
  intros Hpq. revert pos. induction l as [|x l IH]; intros pos; simpl.
  - reflexivity.
  - rewrite Hpq, IH. reflexivity.
Qed.

Lemma joinsb_new_edge (m : Mesh) (v1 v2 : VertexRef) (a b : Z) (id dim : Z) :
  vertexID m v1 = Some a ->
  vertexID m v2 = Some b ->
  joinsb m a b (Edge_ctor v1 v2 id dim) = true.
Proof.
  intros Ha Hb. apply joinsb_joins. exists a, b. simpl.
  repeat split; [assumption | assumption | reflexivity].
Qed.

(** C9: on two vertices of a mesh whose edges refer to vertices of the mesh,
    [createUniqueEdge] returns a reference to an edge of the resulting mesh
    whose end vertices have, as ids, a permutation of the ids of the two
    given vertices.  If the mesh already has such an edge, the mesh is left
    as it was and the returned edge is one of the old edges (the first such
    edge); otherwise exactly one edge, from the first to the second vertex,
    is appended and returned.  A second call with the same vertices returns
    the same edge and changes nothing. *)
Theorem createUniqueEdge_unique (m : Mesh) (v1 v2 : VertexRef) (a b : Z) :
  vertexID m v1 = Some a ->
  vertexID m v2 = Some b ->
  edgesValid m ->
  exists (r : EdgeRef) (e : Edge) (m' : Mesh),
    createUniqueEdge v1 v2 m = (Done r, m') /\
    _edges m' !! r = Some e /\
    joins m' a b e /\
    ((exists e0, In e0 (_edges m) /\ joins m a b e0) ->
       m' = m /\ _edges m !! r = Some e /\
       forall e0, In e0 (take r (_edges m)) -> ~ joins m a b e0) /\
    (~ (exists e0, In e0 (_edges m) /\ joins m a b e0) ->
       _edges m' = _edges m ++ [e] /\ r = length (_edges m) /\
       Edge_vertex0 e = v1 /\ Edge_vertex1 e = v2 /\
       _vertices m' = _vertices m) /\
    edgesValid m' /\
    createUniqueEdge v1 v2 m' = (Done r, m').
Proof.
  intros Ha Hb Hvalid.
  pose proof (createUniqueEdge_run m v1 v2 a b Ha Hb Hvalid) as Hrun.
  destruct (findFrom (joinsb m a b) (_edges m) 0) as [p|] eqn:Efind.
  - (* an edge between the two vertices exists *)
    destruct (findFrom_Some _ _ _ _ Efind) as (e & _ & He & Hje & Hbefore).
    rewrite Nat.sub_0_r in He, Hbefore.
    exists p, e, m. split; [exact Hrun |]. split; [exact He |].
    split; [apply joinsb_joins; exact Hje |].
    split; [| split; [| split]].
    + intros _. split; [reflexivity |]. split; [exact He |].
      intros e0 Hin Hj. apply joinsb_joins in Hj.
      rewrite (Hbefore e0 Hin) in Hj. discriminate.
    + intros Hnone. exfalso. apply Hnone. exists e. split.
      * apply list_elem_of_In. eapply list_elem_of_lookup_2. exact He.
      * apply joinsb_joins. exact Hje.
    + exact Hvalid.
    + rewrite Hrun at 1. reflexivity.
  - (* no such edge: one is created *)
    set (e := Edge_ctor v1 v2 (_manageEdgeIDs m) (_dimensions m)).
    set (m' := set_edges (_edges m ++ [e]) (set_manageEdgeIDs (_manageEdgeIDs m + 1) m)).
    assert (Hcreate : createEdge v1 v2 m = (Done (length (_edges m)), m')) by reflexivity.
    assert (Hv : _vertices m' = _vertices m) by reflexivity.
    assert (Hje : joinsb m a b e = true) by (apply joinsb_new_edge; assumption).
    assert (Hvalid' : edgesValid m').
    { unfold edgesValid. rewrite Hv. simpl. apply Forall_app. split; [exact Hvalid |].
      constructor; [| constructor]. simpl. unfold vertexID in Ha, Hb.
      split.
      - destruct (_vertices m !! v1); [eexists; reflexivity | discriminate].
      - destruct (_vertices m !! v2); [eexists; reflexivity | discriminate]. }
    exists (length (_edges m)), e, m'.
    split; [rewrite Hrun; exact Hcreate |].
    split; [simpl; apply list_lookup_middle; reflexivity |].
    split; [apply joinsb_joins; rewrite (joinsb_same_vertices m m') by exact Hv; exact Hje |].
    split; [| split; [| split]].
    + intros (e0 & Hin & Hj). exfalso.
      apply joinsb_joins in Hj.
      rewrite (proj1 (findFrom_None _ _ _) Efind e0 Hin) in Hj. discriminate.
    + intros _. repeat split; reflexivity.
    + exact Hvalid'.
    + rewrite (createUniqueEdge_run m' v1 v2 a b Ha Hb Hvalid').
      rewrite (findFrom_ext (joinsb m' a b) (joinsb m a b))
        by (intros x; apply joinsb_same_vertices; exact Hv).
      simpl _edges.
      rewrite (findFrom_app_None _ _ _ 0 Efind Hje). reflexivity.
Qed.

Lemma createUniqueEdge_unique_witness :
  (exists m', createUniqueEdge 1 0 sampleTriangleMesh = (Done 0%nat, m') /\
              m' = sampleTriangleMesh) /\
  (exists m', createUniqueEdge 0 3 sampleTriangleMesh = (Done 4%nat, m') /\
              length (_edges m') = 5%nat /\
              createUniqueEdge 0 3 m' = (Done 4%nat, m')).
Proof.
  assert (Hvalid : edgesValid sampleTriangleMesh).
  { unfold edgesValid. simpl. repeat constructor; simpl; eexists; reflexivity. }
  split.
  - destruct (createUniqueEdge_unique sampleTriangleMesh 1%nat 0%nat 1 0 eq_refl eq_refl Hvalid)
      as (r & e & m' & Hrun & He & Hj & Hold & Hnew & Hv' & Hagain).
    exists m'. 
    assert (Hex : exists e0, In e0 (_edges sampleTriangleMesh) /\ joins sampleTriangleMesh 1 0 e0).
    { exists (mkEdge 0 1 0 (VectorXd_Zero 3)). split; [left; reflexivity |].
      exists 0, 1. repeat split; try reflexivity. apply perm_swap. }
    destruct (Hold Hex) as (-> & _ & _).
    split; [| reflexivity].
    rewrite Hrun. vm_compute in Hrun. injection Hrun as <-. reflexivity.
  - destruct (createUniqueEdge_unique sampleTriangleMesh 0%nat 3%nat 0 3 eq_refl eq_refl Hvalid)
      as (r & e & m' & Hrun & He & Hj & Hold & Hnew & Hv' & Hagain).
    exists m'.
    assert (Hr : r = 4%nat).
    { vm_compute in Hrun. injection Hrun as <- _. reflexivity. }
    subst r. split; [exact Hrun |]. split; [| exact Hagain].
    vm_compute in Hrun. injection Hrun as <-. reflexivity.
Defined.

(** ** Data ids *)

Lemma forEach_check_run {St A} (b : A -> bool) (msg : string) (l : list A) (s : St) :
  forEach l (fun x => PRECICE_CHECK (b x) msg) s =
    if forallb b l then (Done tt, s) else (FatalError msg, s).
Proof.
  induction l as [|x l IH]; simpl.
  - reflexivity.
  - unfold bind, PRECICE_CHECK at 1. destruct (b x); simpl; [exact IH | reflexivity].
Qed.

(** The closed form of [createData]. *)
Lemma createData_run (name : string) (dimension : Z) (count : DataCount) (m : Mesh) :
  createData name dimension (count, m) =
    if forallb (fun data => negb (String.eqb (Data_getName data) name)) (_data m)
    then if 0 <? dimension
         then (Done (length (_data m)),
               (count + 1, set_data (_data m ++ [mkData [] name count dimension]) m))
         else (AssertionFailed, (count, m))
    else (FatalError (createData_message name (_name m)), (count, m)).
Proof.
  unfold createData. unfold bind at 1. simpl.
  unfold bind at 1. rewrite forEach_check_run.
  destruct (forallb _ _); [| reflexivity].
  unfold Data_getDataCount, Data_ctor, bind, PRECICE_ASSERT. simpl.
  destruct (0 <? dimension); reflexivity.
Qed.

Lemma createData_onMesh_Done (i : nat) (name : string) (dimension : Z)
  (count count' : DataCount) (meshes meshes' : list Mesh) (r : DataRef) :
  onMesh i (createData name dimension) (count, meshes) = (Done r, (count', meshes')) ->
  exists m,
    meshes !! i = Some m /\
    r = length (_data m) /\
    count' = count + 1 /\
    meshes' = <[i := set_data (_data m ++ [mkData [] name count dimension]) m]> meshes.
Proof.
  unfold onMesh. simpl. destruct (meshes !! i) as [m|] eqn:Em; [| discriminate].
  rewrite createData_run.
  destruct (forallb _ _); [| discriminate].
  destruct (0 <? dimension); [| discriminate].
  intros [= <- <- <-]. exists m. repeat split; reflexivity.
Qed.

Lemma allDataIDs_app (l1 l2 : list Mesh) :
  allDataIDs (l1 ++ l2) = allDataIDs l1 ++ allDataIDs l2.
Proof. unfold allDataIDs. apply flat_map_app. Qed.

(** Appending a data object to one mesh adds its id to the ids in use. *)
Lemma allDataIDs_insert (meshes : list Mesh) (i : nat) (m : Mesh) (d : Data) :
  meshes !! i = Some m ->
  Permutation (allDataIDs (<[i := set_data (_data m ++ [d]) m]> meshes))
              (Data_getID d :: allDataIDs meshes).
Proof.
  intros Hm.
  rewrite <- (take_drop_middle meshes i m Hm) at 2.
  rewrite insert_take_drop by (eapply lookup_lt_Some; exact Hm).
  rewrite !allDataIDs_app. simpl.
  rewrite map_app. simpl.
  rewrite <- !app_assoc. simpl.
  rewrite !app_assoc.
  symmetry. apply Permutation_middle.
Qed.

Lemma dataID_insert_keeps (meshes : list Mesh) (i : nat) (m : Mesh) (d : Data)
  (ref : nat * DataRef) (id : Z) :
  meshes !! i = Some m ->
  dataID meshes ref = Some id ->
  dataID (<[i := set_data (_data m ++ [d]) m]> meshes) ref = Some id.
Proof.
  intros Hm. unfold dataID. destruct ref as [j r]. simpl.
  destruct (decide (i = j)) as [<-|Hne].
  - rewrite list_lookup_insert_eq by (eapply lookup_lt_Some; exact Hm).
    rewrite Hm. simpl.
    destruct (_data m !! r) as [d0|] eqn:Ed; [| discriminate].
    rewrite (lookup_app_l_Some _ _ _ _ Ed). trivial.
  - rewrite list_lookup_insert_ne by exact Hne. trivial.
Qed.

Lemma dataID_insert_new (meshes : list Mesh) (i : nat) (m : Mesh) (d : Data) :
  meshes !! i = Some m ->
  dataID (<[i := set_data (_data m ++ [d]) m]> meshes) (i, length (_data m))
  = Some (Data_getID d).
Proof.
  intros Hm. unfold dataID. simpl.
  rewrite list_lookup_insert_eq by (eapply lookup_lt_Some; exact Hm).
  simpl. rewrite list_lookup_middle by reflexivity. reflexivity.
Qed.

(** A run of [createData] calls keeps the ids of the objects that exist. *)
Lemma createDataRun_keeps (reqs : list (nat * string * Z)) :
  forall count meshes refs count' meshes' ref id,
    createDataRun reqs (count, meshes) = (Done refs, (count', meshes')) ->
    dataID meshes ref = Some id ->
    dataID meshes' ref = Some id.
Proof.
  induction reqs as [|[[i name] dimension] reqs IH];
    intros count meshes refs count' meshes' ref id Hrun Hid; simpl in Hrun.
  - injection Hrun as _ _ <-. exact Hid.
  - unfold bind at 1 in Hrun.
    destruct (onMesh i (createData name dimension) (count, meshes))
      as [[r| | | |] [count1 meshes1]] eqn:Estep; try discriminate.
    apply createData_onMesh_Done in Estep as (m & Hm & -> & -> & ->).
    unfold bind at 1 in Hrun.
    destruct (createDataRun reqs _) as [[rs| | | |] [count2 meshes2]] eqn:Erest;
      try discriminate.
    injection Hrun as _ <- <-.
    eapply IH; [exact Erest |].
    apply dataID_insert_keeps; assumption.
Qed.

Lemma dataIDsIssued_step (count : DataCount) (meshes : list Mesh) (i : nat) (m : Mesh)
  (name : string) (dimension : Z) :
  meshes !! i = Some m ->
  dataIDsIssued count meshes ->
  dataIDsIssued (count + 1)
    (<[i := set_data (_data m ++ [mkData [] name count dimension]) m]> meshes).
Proof.
  intros Hm [Hnodup Hbelow].
  pose proof (allDataIDs_insert meshes i m (mkData [] name count dimension) Hm) as Hperm.
  simpl in Hperm. unfold dataIDsIssued. rewrite Hperm. split.
  - constructor; [| exact Hnodup].
    intros Hin. apply list_elem_of_In in Hin.
    rewrite List.Forall_forall in Hbelow.
    specialize (Hbelow count Hin). lia.
  - constructor; [lia |].
    eapply List.Forall_impl; [| exact Hbelow]. simpl. intros id Hid. lia.
Qed.

Lemma createDataRun_ids (reqs : list (nat * string * Z)) :
  forall count meshes refs count' meshes',
    dataIDsIssued count meshes ->
    createDataRun reqs (count, meshes) = (Done refs, (count', meshes')) ->
    length refs = length reqs /\
    count' = count + Z.of_nat (length reqs) /\
    (forall k ref, refs !! k = Some ref ->
                   dataID meshes' ref = Some (count + Z.of_nat k)) /\
    dataIDsIssued count' meshes'.
Proof.
  induction reqs as [|[[i name] dimension] reqs IH];
    intros count meshes refs count' meshes' Hinv Hrun; simpl in Hrun.
  - injection Hrun as <- <- <-. simpl.
    repeat split; [lia | intros k ref Hk; discriminate | apply Hinv | apply Hinv].
  - unfold bind at 1 in Hrun.
    destruct (onMesh i (createData name dimension) (count, meshes))
      as [[r| | | |] [count1 meshes1]] eqn:Estep; try discriminate.
    apply createData_onMesh_Done in Estep as (m & Hm & -> & -> & ->).
    unfold bind at 1 in Hrun.
    destruct (createDataRun reqs _) as [[rs| | | |] [count2 meshes2]] eqn:Erest;
      try discriminate.
    injection Hrun as <- <- <-.
    pose proof (dataIDsIssued_step count meshes i m name dimension Hm Hinv) as Hinv1.
    destruct (IH _ _ _ _ _ Hinv1 Erest) as (Hlen & Hcount & Hids & Hinv2).
    split; [simpl; congruence |].
    split; [simpl length; lia |].
    split; [| exact Hinv2].
    intros [|k] ref Hk; simpl in Hk.
    + injection Hk as <-. rewrite Z.add_0_r.
      eapply createDataRun_keeps; [exact Erest |].
      apply (dataID_insert_new meshes i m (mkData [] name count dimension) Hm).
    + rewrite (Hids k ref Hk). f_equal. lia.
Qed.

(** C3: in a program state in which the data ids in use are pairwise
    distinct and were handed out by the counter, every run of successful
    [createData] calls, each on any of the meshes, gives the k-th created
    data object the id (counter + k): an id that no data object had before
    the run, and that differs from the id of every other object created in
    the run; afterwards the ids of all data objects of all meshes are still
    pairwise distinct. *)
Theorem createData_ids_unique (reqs : list (nat * string * Z))
  (count count' : DataCount) (meshes meshes' : list Mesh) (refs : list (nat * DataRef)) :
  dataIDsIssued count meshes ->
  createDataRun reqs (count, meshes) = (Done refs, (count', meshes')) ->
  length refs = length reqs /\
  (forall k ref, refs !! k = Some ref ->
     dataID meshes' ref = Some (count + Z.of_nat k) /\
     ~ In (count + Z.of_nat k) (allDataIDs meshes)) /\
  (forall j k rj rk, refs !! j = Some rj -> refs !! k = Some rk -> j <> k ->
     dataID meshes' rj <> dataID meshes' rk) /\
  NoDup (allDataIDs meshes').
Proof.
  intros Hinv Hrun.
  destruct (createDataRun_ids reqs _ _ _ _ _ Hinv Hrun) as (Hlen & _ & Hids & Hinv').
  split; [exact Hlen |]. split; [| split].
  - intros k ref Hk. split; [apply Hids; exact Hk |].
    intros Hin. destruct Hinv as [_ Hbelow].
    rewrite List.Forall_forall in Hbelow. specialize (Hbelow _ Hin). lia.
  - intros j k rj rk Hj Hk Hne.
    rewrite (Hids j rj Hj), (Hids k rk Hk). intros [= Heq]. lia.
  - apply Hinv'.
Qed.

Lemma createData_ids_unique_witness :
  exists refs count' meshes',
    createDataRun [(0%nat, "Forces"%string, 3); (1%nat, "Forces"%string, 3);
                   (0%nat, "Pressure"%string, 1)] sampleWorld
      = (Done refs, (count', meshes')) /\
    map (dataID meshes') refs = [Some 0; Some 1; Some 2] /\
    NoDup (allDataIDs meshes').
Proof.
  eexists. eexists. eexists.
  split; [vm_compute; reflexivity |].
  split; [vm_compute; reflexivity |].
  refine (proj2 (proj2 (proj2
    (createData_ids_unique
       [(0%nat, "Forces"%string, 3); (1%nat, "Forces"%string, 3);
        (0%nat, "Pressure"%string, 1)]
       0 _ (snd sampleWorld) _ _ _ _)))).
  - split; [constructor | constructor].
  - vm_compute. reflexivity.
Defined.

(** ** The bounding box *)

(** *** The order of binary64 numbers *)

Ltac sf_cases :=
  repeat match goal with
    | |- context [Z.compare ?x ?y] => destruct (Z.compare_spec x y)
    | |- context [Pos.compare_cont Eq ?x ?y] =>
        change (Pos.compare_cont Eq x y) with (Pos.compare x y);
        destruct (Pos.compare_spec x y)
    | H : context [Z.compare ?x ?y] |- _ => destruct (Z.compare_spec x y)
    | H : context [Pos.compare_cont Eq ?x ?y] |- _ =>
        change (Pos.compare_cont Eq x y) with (Pos.compare x y) in H;
        destruct (Pos.compare_spec x y)
    end.

Lemma SFleb_refl (a : spec_float) : a <> S754_nan -> SFleb a a = true.
Proof.
  unfold SFleb, SFcompare. destruct a as [s| s | |s m e]; intros Hn;
    try destruct s; try reflexivity; try contradiction.
  - rewrite Z.compare_refl. change (Pos.compare_cont Eq m m) with (Pos.compare m m).
    rewrite Pos.compare_refl. reflexivity.
  - rewrite Z.compare_refl. change (Pos.compare_cont Eq m m) with (Pos.compare m m).
    rewrite Pos.compare_refl. reflexivity.
Qed.

Lemma SFltb_leb (a b : spec_float) : SFltb a b = true -> SFleb a b = true.
Proof. unfold SFltb, SFleb. destruct (SFcompare a b) as [[| |]|]; congruence. Qed.

Lemma SFleb_total (a b : spec_float) :
  a <> S754_nan -> b <> S754_nan -> SFltb a b = false -> SFleb b a = true.
Proof.
  unfold SFltb, SFleb, SFcompare.
  destruct a as [s1| s1 | |s1 m1 e1]; destruct b as [s2|s2| |s2 m2 e2];
    intros Ha Hb; try contradiction;
    try destruct s1; try destruct s2; simpl; try congruence;
    sf_cases; simpl; try congruence; try lia.
Qed.

Lemma SFleb_trans (a b c : spec_float) :
  SFleb a b = true -> SFleb b c = true -> SFleb a c = true.
Proof.
  unfold SFleb, SFcompare.
  destruct a as [s1| s1 | |s1 m1 e1]; destruct b as [s2|s2| |s2 m2 e2];
    destruct c as [s3|s3| |s3 m3 e3];
    try destruct s1; try destruct s2; try destruct s3; simpl; try congruence;
    intros H1 H2; sf_cases; simpl in *; try congruence; try lia.
Qed.

Lemma notNaN_spec (a : double) : notNaN a -> Prim2SF a <> S754_nan.
Proof.
  unfold notNaN, PrimFloat.is_nan. rewrite FloatAxioms.eqb_spec. intros Ha Hnan.
  rewrite Hnan in Ha. discriminate.
Qed.

Lemma dle_refl (a : double) : notNaN a -> dle a a.
Proof. intros Ha. unfold dle. rewrite FloatAxioms.leb_spec. apply SFleb_refl, notNaN_spec, Ha. Qed.

Lemma ltb_dle (a b : double) : (a <? b)%float = true -> dle a b.
Proof. unfold dle. rewrite FloatAxioms.ltb_spec, FloatAxioms.leb_spec. apply SFltb_leb. Qed.

Lemma dle_total (a b : double) :
  notNaN a -> notNaN b -> (a <? b)%float = false -> dle b a.
Proof.
  intros Ha Hb. unfold dle. rewrite FloatAxioms.ltb_spec, FloatAxioms.leb_spec.
  apply SFleb_total; apply notNaN_spec; assumption.
Qed.

Lemma dle_trans (a b c : double) : dle a b -> dle b c -> dle a c.
Proof. unfold dle. rewrite !FloatAxioms.leb_spec. apply SFleb_trans. Qed.

(** *** Expansion by a vertex *)

Lemma std_min_expands (c lo x : double) :
  notNaN c -> notNaN lo ->
  notNaN (std_min c lo) /\ dle (std_min c lo) c /\ (dle lo x -> dle (std_min c lo) x).
Proof.
  intros Hc Hlo. unfold std_min. destruct (lo <? c)%float eqn:Hlt.
  - split; [exact Hlo |]. split; [apply ltb_dle; exact Hlt | trivial].
  - split; [exact Hc |]. split; [apply dle_refl; exact Hc |].
    intros Hx. eapply dle_trans; [| exact Hx]. apply dle_total; assumption.
Qed.

Lemma std_max_expands (c hi x : double) :
  notNaN c -> notNaN hi ->
  notNaN (std_max c hi) /\ dle c (std_max c hi) /\ (dle x hi -> dle x (std_max c hi)).
Proof.
  intros Hc Hhi. unfold std_max. destruct (c <? hi)%float eqn:Hlt.
  - split; [exact Hhi |]. split; [apply ltb_dle; exact Hlt | trivial].
  - split; [exact Hc |]. split; [apply dle_refl; exact Hc |].
    intros Hx. eapply dle_trans; [exact Hx |]. apply dle_total; assumption.
Qed.

Lemma expandBy_lookup (bb : BoundingBox) (v : Vertex) (d : nat) :
  BoundingBox_bounds (BoundingBox_expandBy bb v) !! d =
    (fun b => match Vertex_getCoords v !! d with
              | Some c => (std_min c (fst b), std_max c (snd b))
              | None => b
              end) <$> (BoundingBox_bounds bb !! d).
Proof. unfold BoundingBox_expandBy. simpl. apply list_lookup_imap. Qed.

Lemma expandBy_numbers (bb : BoundingBox) (v : Vertex) :
  boundsAreNumbers bb -> coordsAreNumbers v ->
  boundsAreNumbers (BoundingBox_expandBy bb v).
Proof.
  unfold boundsAreNumbers, coordsAreNumbers. intros Hbb Hv.
  apply Forall_lookup_2. intros d [lo' hi'] Hd.
  rewrite expandBy_lookup in Hd.
  destruct (BoundingBox_bounds bb !! d) as [[lo hi]|] eqn:Eb; [| discriminate].
  destruct (Forall_lookup_1 _ _ _ _ Hbb Eb) as [Hlo Hhi]. simpl in *.
  destruct (Vertex_getCoords v !! d) as [c|] eqn:Ec.
  - pose proof (Forall_lookup_1 _ _ _ _ Hv Ec) as Hc.
    injection Hd as <- <-. split.
    + exact (proj1 (std_min_expands c lo c Hc Hlo)).
    + exact (proj1 (std_max_expands c hi c Hc Hhi)).
  - injection Hd as <- <-. split; assumption.
Qed.

Lemma expandBy_contains_self (bb : BoundingBox) (v : Vertex) :
  boundsAreNumbers bb -> coordsAreNumbers v ->
  contains (BoundingBox_expandBy bb v) v.
Proof.
  unfold boundsAreNumbers, coordsAreNumbers, contains.
  intros Hbb Hv d lo' hi' c Hd Hc.
  rewrite expandBy_lookup, Hc in Hd.
  destruct (BoundingBox_bounds bb !! d) as [[lo hi]|] eqn:Eb; [| discriminate].
  destruct (Forall_lookup_1 _ _ _ _ Hbb Eb) as [Hlo Hhi]. simpl in *.
  pose proof (Forall_lookup_1 _ _ _ _ Hv Hc) as Hcn.
  injection Hd as <- <-. split.
  - exact (proj1 (proj2 (std_min_expands c lo c Hcn Hlo))).
  - exact (proj1 (proj2 (std_max_expands c hi c Hcn Hhi))).
Qed.

Lemma expandBy_contains_still (bb : BoundingBox) (v w : Vertex) :
  boundsAreNumbers bb -> coordsAreNumbers v ->
  contains bb w -> contains (BoundingBox_expandBy bb v) w.
Proof.
  unfold boundsAreNumbers, coordsAreNumbers, contains.
  intros Hbb Hv Hw d lo' hi' x Hd Hx.
  rewrite expandBy_lookup in Hd.
  destruct (BoundingBox_bounds bb !! d) as [[lo hi]|] eqn:Eb; [| discriminate].
  destruct (Forall_lookup_1 _ _ _ _ Hbb Eb) as [Hlo Hhi]. simpl in *.
  destruct (Hw d lo hi x Eb Hx) as [Hlox Hxhi].
  destruct (Vertex_getCoords v !! d) as [c|] eqn:Ec.
  - pose proof (Forall_lookup_1 _ _ _ _ Hv Ec) as Hc.
    injection Hd as <- <-. split.
    + exact (proj2 (proj2 (std_min_expands c lo x Hc Hlo)) Hlox).
    + exact (proj2 (proj2 (std_max_expands c hi x Hc Hhi)) Hxhi).
  - injection Hd as <- <-. split; assumption.
Qed.

Lemma expandBy_all (vs : list Vertex) :
  forall bb,
    boundsAreNumbers bb -> Forall coordsAreNumbers vs ->
    (forall w, contains bb w -> contains (fold_left BoundingBox_expandBy vs bb) w) /\
    (forall w, In w vs -> contains (fold_left BoundingBox_expandBy vs bb) w) /\
    length (BoundingBox_bounds (fold_left BoundingBox_expandBy vs bb))
    = length (BoundingBox_bounds bb).
Proof.
  induction vs as [|v vs IH]; intros bb Hbb Hvs; simpl.
  - split; [trivial | split; [intros w [] | reflexivity]].
  - apply Forall_cons_1 in Hvs as [Hv Hvs].
    destruct (IH (BoundingBox_expandBy bb v) (expandBy_numbers bb v Hbb Hv) Hvs)
      as (Hkeep & Hin & Hlen).
    split; [| split].
    + intros w Hw. apply Hkeep. apply expandBy_contains_still; assumption.
    + intros w [<-|Hw].
      * apply Hkeep. apply expandBy_contains_self; assumption.
      * apply Hin. exact Hw.
    + rewrite Hlen. unfold BoundingBox_expandBy. simpl. apply length_imap.
Qed.

Lemma BoundingBox_ctor_numbers (dimensions : Z) :
  boundsAreNumbers (BoundingBox_ctor dimensions).
Proof.
  unfold boundsAreNumbers, BoundingBox_ctor. simpl.
  apply Forall_forall. intros b Hb. apply list_elem_of_In, repeat_spec in Hb as ->.
  split; reflexivity.
Qed.

(** C6: on a mesh whose vertex coordinates are numbers (no NaN),
    [computeBoundingBox] returns, changes nothing but the bounding box, and
    the new box has one (min, max) pair per dimension of the mesh and
    contains every vertex of the mesh: in each dimension the minimum is at
    most, and the maximum at least, the coordinate of the vertex. *)
Theorem computeBoundingBox_contains_vertices (m : Mesh) :
  Forall coordsAreNumbers (_vertices m) ->
  exists m',
    computeBoundingBox m = (Done tt, m') /\
    m' = set_boundingBox (_boundingBox m') m /\
    length (BoundingBox_bounds (_boundingBox m')) = Z.to_nat (_dimensions m) /\
    forall v, In v (_vertices m') -> contains (_boundingBox m') v.
Proof.
  intros Hvs.
  exists (snd (computeBoundingBox m)).
  split; [reflexivity |]. split; [reflexivity |]. simpl.
  destruct (expandBy_all (_vertices m) (BoundingBox_ctor (_dimensions m))
              (BoundingBox_ctor_numbers _) Hvs) as (_ & Hin & Hlen).
  split; [| exact Hin].
  rewrite Hlen. unfold BoundingBox_ctor. simpl. apply repeat_length.
Qed.

Lemma computeBoundingBox_contains_vertices_witness :
  exists m',
    computeBoundingBox sampleTriangleMesh = (Done tt, m') /\
    BoundingBox_bounds (_boundingBox m') = [(0, 6); (0, 6); (0, 6)]%float /\
    forall v, In v (_vertices m') -> contains (_boundingBox m') v.
Proof.
  destruct (computeBoundingBox_contains_vertices sampleTriangleMesh)
    as (m' & Hrun & _ & _ & Hin).
  - repeat constructor.
  - exists m'. split; [exact Hrun |]. split; [| exact Hin].
    vm_compute in Hrun. injection Hrun as <-. reflexivity.
Defined.

(** ** The quad convexity routine *)

Lemma wrapStep_lt (coords : list Vector3d) (currentVertex : nat) :
  (wrapStep coords currentVertex < 4)%nat.
Proof.
  unfold wrapStep.
  assert (Hstart : ((currentVertex + 1) mod 4 < 4)%nat) by (apply Nat.mod_upper_bound; lia).
  generalize dependent ((currentVertex + 1) mod 4)%nat.
  intros n Hn. simpl.
  repeat match goal with
         | |- context [if ?b then _ else _] => destruct b
         end; lia.
Qed.

Lemma writeID_Done (i : nat) (x : Z) (ids ids' : list Z) :
  writeID i x ids = (Done tt, ids') -> (i < length ids)%nat /\ ids' = <[i := x]> ids.
Proof.
  unfold writeID. destruct (Nat.ltb_spec i (length ids)); [| discriminate].
  intros [= <-]. split; [assumption | reflexivity].
Qed.

(** What the loop stores in the array are positions 0..3 of the array, not
    the ids that the array held on entry. *)
Lemma hullLoop_writes_positions (fuel : nat) (coords : list Vector3d) (idLowestPoint : nat) :
  forall (currentVertex counter n : nat) (ids ids' : list Z),
    (currentVertex < 4)%nat ->
    (forall i x, (i < counter)%nat -> ids !! i = Some x -> 0 <= x < 4) ->
    hullLoop fuel coords idLowestPoint currentVertex counter ids = (Done n, ids') ->
    (counter < n)%nat /\
    forall i x, (i < n)%nat -> ids' !! i = Some x -> 0 <= x < 4.
Proof.
  induction fuel as [|fuel IH]; intros currentVertex counter n ids ids' Hcur Hinv Hrun;
    simpl in Hrun; [discriminate |].
  unfold bind at 1 in Hrun.
  destruct (writeID counter (Z.of_nat currentVertex) ids) as [[[]| | | |] ids1] eqn:Ew;
    try discriminate.
  apply writeID_Done in Ew as [Hlen ->].
  assert (Hinv1 : forall i x, (i < S counter)%nat ->
                              <[counter := Z.of_nat currentVertex]> ids !! i = Some x ->
                              0 <= x < 4).
  { intros i x Hi Hx. destruct (decide (i = counter)) as [->|Hne].
    - rewrite list_lookup_insert_eq in Hx by exact Hlen. injection Hx as <-. lia.
    - rewrite list_lookup_insert_ne in Hx by congruence. apply (Hinv i x); [lia | exact Hx]. }
  destruct (Nat.eqb (wrapStep coords currentVertex) idLowestPoint).
  - injection Hrun as <- <-. split; [lia | exact Hinv1].
  - destruct (IH _ _ _ _ _ (wrapStep_lt coords currentVertex) Hinv1 Hrun) as [Hlt Hall].
    split; [lia | exact Hall].
Qed.

Lemma readID_Done (i : nat) (ids ids' : list Z) (x : Z) :
  readID i ids = (Done x, ids') -> ids' = ids.
Proof. unfold readID. destruct (ids !! i); [intros [= _ <-]; reflexivity | discriminate]. Qed.

Lemma coordsOf_Done (m : Mesh) (id : Z) (ids ids' : list Z) (p : Vector3d) :
  coordsOf m id ids = (Done p, ids') -> ids' = ids.
Proof.
  unfold coordsOf, toVector3d, undefined, ret.
  destruct (id <? 0); [discriminate |].
  destruct (_vertices m !! Z.to_nat id) as [v|]; [| discriminate].
  destruct (Vertex_getCoords v) as [|x [|y [|z [|? ?]]]]; try discriminate.
  intros [= _ <-]. reflexivity.
Qed.

(** X1: whenever the routine reports a convex quad, the four entries of the
    array are numbers in 0..3, whatever ids were passed in. *)
Lemma computeQuadConvexityFromPoints_positions (m : Mesh) (fuel : nat)
  (vertexIDs vertexIDs' : list Z) :
  computeQuadConvexityFromPoints m fuel vertexIDs = (Done true, vertexIDs') ->
  forall i x, (i < 4)%nat -> vertexIDs' !! i = Some x -> 0 <= x < 4.
Proof.
  unfold computeQuadConvexityFromPoints. intros Hrun.
  repeat (apply bind_Done in Hrun as (? & ? & Hstep & Hrun);
          first [ apply readID_Done in Hstep | apply coordsOf_Done in Hstep ];
          subst).
  cbv zeta in Hrun.
  apply bind_Done in Hrun as (n & ids1 & Hloop & Hret).
  unfold ret in Hret. injection Hret as Hn <-.
  apply Nat.eqb_eq in Hn. subst n.
  match type of Hloop with
  | hullLoop _ ?coords ?low ?cur _ _ = _ =>
      assert (Hlow : (cur < 4)%nat)
  end.
  { simpl. repeat match goal with
                  | |- context [if ?b then _ else _] => destruct b
                  end; lia. }
  eapply hullLoop_writes_positions in Hloop; [| exact Hlow | intros j y Hj; lia].
  apply Hloop.
Qed.

(** C2 (the code departs from the claim): called with the array 4, 5, 6, 7,
    the ids of the corners of the unit square of [sampleSquareMesh] in
    their order around the square, [computeQuadConvexityFromPoints] returns
    true and leaves 0, 3, 2, 1 in the array: positions of the array, which
    here are ids of four other vertices of the mesh, not the ids 4, 5, 6, 7
    in hull order. *)
Theorem computeQuadConvexityFromPoints_overwrites_ids :
  computeQuadConvexityFromPoints sampleSquareMesh 4 [4; 5; 6; 7]
  = (Done true, [0; 3; 2; 1]).
Proof. vm_compute. reflexivity. Qed.

Lemma computeQuadConvexityFromPoints_positions_witness :
  computeQuadConvexityFromPoints sampleSquareMesh 4 [4; 5; 6; 7] = (Done true, [0; 3; 2; 1]) /\
  0 <= 3 < 4.
Proof.
  assert (Hrun : computeQuadConvexityFromPoints sampleSquareMesh 4 [4; 5; 6; 7]
                 = (Done true, [0; 3; 2; 1])) by (vm_compute; reflexivity).
  split; [exact Hrun |].
  exact (computeQuadConvexityFromPoints_positions sampleSquareMesh 4 [4; 5; 6; 7]
           [0; 3; 2; 1] Hrun 1%nat 3 ltac:(lia) eq_refl).
Defined.

(** ** [addMesh] *)

Lemma createVertex_run (coords : VectorXd) (m : Mesh) :
  createVertex coords m =
    if Z.of_nat (length coords) =? _dimensions m
    then (Done (length (_vertices m)),
          appendVertices [Vertex_ctor coords (_manageVertexIDs m)] m)
    else (AssertionFailed, m).
Proof.
  unfold createVertex, bind, get, PRECICE_ASSERT. simpl.
  destruct (Z.of_nat (length coords) =? _dimensions m); reflexivity.
Qed.

Lemma updateVertex_last (vs : list Vertex) (x : Vertex) (f : Vertex -> Vertex) (m : Mesh) :
  _vertices m = vs ++ [x] ->
  updateVertex (length vs) f m = (Done tt, set_vertices (vs ++ [f x]) m).
Proof.
  intros Hvs. unfold updateVertex, bind, vertexAt, modify.
  rewrite Hvs, list_lookup_middle by reflexivity.
  cbv beta. rewrite Hvs.
  rewrite insert_app_r_alt by lia. rewrite Nat.sub_diag. reflexivity.
Qed.

Lemma set_vertices_twice (l l' : list Vertex) (m : Mesh) :
  set_vertices l (set_vertices l' m) = set_vertices l m.
Proof. reflexivity. Qed.

Lemma addMesh_vertex_Done (vertexMap vertexMap' : gmap Z nat) (v : Vertex) (m m' : Mesh) :
  addMesh_vertex vertexMap v m = (Done vertexMap', m') ->
  m' = appendVertices [copiedVertex (_manageVertexIDs m) v] m /\
  vertexMap' = <[Vertex_getID v := length (_vertices m)]> vertexMap.
Proof.
  unfold addMesh_vertex. cbv zeta. intros Hrun.
  apply bind_Done in Hrun as (r & m1 & Hcreate & Hrun).
  rewrite createVertex_run in Hcreate.
  destruct (Z.of_nat (length (Vertex_getCoords v)) =? _dimensions m); [| discriminate].
  injection Hcreate as <- <-.
  apply bind_Done in Hrun as ([] & m2 & Hgi & Hrun).
  erewrite updateVertex_last in Hgi by reflexivity.
  injection Hgi as <-.
  apply bind_Done in Hrun as ([] & m3 & Htag & Hrun).
  apply bind_Done in Hrun as ([] & m4 & Hown & Hrun).
  apply bind_Done in Hrun as ([] & m5 & Hassert & Hrun).
  apply assert_Done in Hassert as [_ ->].
  apply ret_Done in Hrun as [-> ->].
  split; [| reflexivity].
  destruct (Vertex_isTagged v) eqn:Etag.
  - erewrite updateVertex_last in Htag by reflexivity.
    injection Htag as <-.
    erewrite updateVertex_last in Hown by reflexivity.
    injection Hown as <-.
    unfold appendVertices, copiedVertex. simpl. rewrite Etag. reflexivity.
  - apply ret_Done in Htag as [_ ->].
    erewrite updateVertex_last in Hown by reflexivity.
    injection Hown as <-.
    unfold appendVertices, copiedVertex. simpl. rewrite Etag. reflexivity.
Qed.

Lemma appendVertices_app (l1 l2 : list Vertex) (m : Mesh) :
  appendVertices l2 (appendVertices l1 m) = appendVertices (l1 ++ l2) m.
Proof.
  unfold appendVertices. destruct m. simpl.
  rewrite <- app_assoc, length_app, Nat2Z.inj_add, Z.add_assoc. reflexivity.
Qed.

Lemma appendEdges_app (l1 l2 : list Edge) (m : Mesh) :
  appendEdges l2 (appendEdges l1 m) = appendEdges (l1 ++ l2) m.
Proof.
  unfold appendEdges. destruct m. simpl.
  rewrite <- app_assoc, length_app, Nat2Z.inj_add, Z.add_assoc. reflexivity.
Qed.

Lemma appendTriangles_app (l1 l2 : list Triangle) (m : Mesh) :
  appendTriangles l2 (appendTriangles l1 m) = appendTriangles (l1 ++ l2) m.
Proof.
  unfold appendTriangles. destruct m. simpl.
  rewrite <- app_assoc, length_app, Nat2Z.inj_add, Z.add_assoc. reflexivity.
Qed.

Lemma appendVertices_nil (m : Mesh) : appendVertices [] m = m.
Proof. unfold appendVertices. destruct m. simpl. rewrite app_nil_r, Z.add_0_r. reflexivity. Qed.

Lemma appendEdges_nil (m : Mesh) : appendEdges [] m = m.
Proof. unfold appendEdges. destruct m. simpl. rewrite app_nil_r, Z.add_0_r. reflexivity. Qed.

Lemma appendTriangles_nil (m : Mesh) : appendTriangles [] m = m.
Proof. unfold appendTriangles. destruct m. simpl. rewrite app_nil_r, Z.add_0_r. reflexivity. Qed.

(** The first loop of [addMesh]: [done] are the vertices of the delta mesh
    handled before, [l] the ones still to handle. *)
Lemma addMesh_vertices_Done (l : list Vertex) :
  forall (done : list Vertex) (offset : nat) (vertexMap vertexMap' : gmap Z nat) (m m' : Mesh),
    length (_vertices m) = (offset + length done)%nat ->
    vertexMapOK done offset vertexMap ->
    foldM addMesh_vertex l vertexMap m = (Done vertexMap', m') ->
    m' = appendVertices
           (imap (fun k v => copiedVertex (_manageVertexIDs m + Z.of_nat k) v) l) m /\
    vertexMapOK (done ++ l) offset vertexMap'.
Proof.
  induction l as [|v l IH]; intros done offset vertexMap vertexMap' m m' Hlen Hmap Hrun;
    simpl in Hrun.
  - apply ret_Done in Hrun as [-> ->]. simpl.
    rewrite appendVertices_nil, app_nil_r. split; [reflexivity | exact Hmap].
  - apply bind_Done in Hrun as (vertexMap1 & m1 & Hstep & Hrun).
    apply addMesh_vertex_Done in Hstep as [-> ->].
    apply (IH (done ++ [v]) offset) in Hrun.
    + destruct Hrun as [-> Hmap']. split.
      * rewrite appendVertices_app. f_equal. simpl. rewrite Z.add_0_r. f_equal.
        apply imap_ext. intros k w _. simpl. f_equal. lia.
      * rewrite <- app_assoc in Hmap'. exact Hmap'.
    + simpl. rewrite !length_app. simpl. lia.
    + intros id r Hr. destruct (decide (Vertex_getID v = id)) as [<-|Hne].
      * rewrite lookup_insert_eq in Hr. injection Hr as <-.
        exists (length done), v. rewrite list_lookup_middle by reflexivity.
        repeat split; try reflexivity; lia.
      * rewrite lookup_insert_ne in Hr by exact Hne.
        destruct (Hmap id r Hr) as (j & u & Hj & Hid & ->).
        exists j, u. rewrite (lookup_app_l_Some _ _ _ _ Hj).
        repeat split; try reflexivity; exact Hid.
Qed.

Lemma idOfVertexIn_Done {St} (deltaMesh : Mesh) (r : VertexRef) (s s' : St) (id : Z) :
  idOfVertexIn deltaMesh r s = (Done id, s') ->
  exists w, _vertices deltaMesh !! r = Some w /\ Vertex_getID w = id /\ s' = s.
Proof.
  unfold idOfVertexIn. destruct (_vertices deltaMesh !! r) as [w|]; [| discriminate].
  intros H. apply ret_Done in H as [-> ->]. exists w. repeat split; reflexivity.
Qed.

Lemma idOfEdgeIn_Done {St} (deltaMesh : Mesh) (r : EdgeRef) (s s' : St) (id : Z) :
  idOfEdgeIn deltaMesh r s = (Done id, s') ->
  exists w, _edges deltaMesh !! r = Some w /\ Edge_getID w = id /\ s' = s.
Proof.
  unfold idOfEdgeIn. destruct (_edges deltaMesh !! r) as [w|]; [| discriminate].
  intros H. apply ret_Done in H as [-> ->]. exists w. repeat split; reflexivity.
Qed.

Lemma mapAt_Done {St} (map : gmap Z nat) (key : Z) (s s' : St) (r : nat) :
  mapAt map key s = (Done r, s') -> map !! key = Some r /\ s' = s.
Proof.
  unfold mapAt. destruct (map !! key) as [r0|]; [| discriminate].
  intros H. apply ret_Done in H as [-> ->]. split; reflexivity.
Qed.

Lemma createEdge_run (v1 v2 : VertexRef) (m : Mesh) :
  createEdge v1 v2 m =
    (Done (length (_edges m)),
     appendEdges [Edge_ctor v1 v2 (_manageEdgeIDs m) (_dimensions m)] m).
Proof. reflexivity. Qed.

Lemma addMesh_edge_Done (deltaMesh : Mesh) (vertexMap edgeMap edgeMap' : gmap Z nat)
  (e : Edge) (m m' : Mesh) :
  addMesh_edge deltaMesh vertexMap edgeMap e m = (Done edgeMap', m') ->
  exists (w0 w1 : Vertex) (r0 r1 : VertexRef),
    _vertices deltaMesh !! Edge_vertex0 e = Some w0 /\
    _vertices deltaMesh !! Edge_vertex1 e = Some w1 /\
    vertexMap !! Vertex_getID w0 = Some r0 /\
    vertexMap !! Vertex_getID w1 = Some r1 /\
    m' = appendEdges [Edge_ctor r0 r1 (_manageEdgeIDs m) (_dimensions m)] m /\
    edgeMap' = <[Edge_getID e := length (_edges m)]> edgeMap.
Proof.
  unfold addMesh_edge. intros Hrun.
  apply bind_Done in Hrun as (i1 & m1 & H1 & Hrun).
  apply idOfVertexIn_Done in H1 as (w0 & Hw0 & <- & ->).
  apply bind_Done in Hrun as (i2 & m2 & H2 & Hrun).
  apply idOfVertexIn_Done in H2 as (w1 & Hw1 & <- & ->).
  apply bind_Done in Hrun as ([] & m3 & Hassert & Hrun).
  apply assert_Done in Hassert as [_ ->].
  apply bind_Done in Hrun as (r0 & m4 & Hr0 & Hrun).
  apply mapAt_Done in Hr0 as [Hr0 ->].
  apply bind_Done in Hrun as (r1 & m5 & Hr1 & Hrun).
  apply mapAt_Done in Hr1 as [Hr1 ->].
  apply bind_Done in Hrun as (r & m6 & Hcreate & Hrun).
  rewrite createEdge_run in Hcreate. injection Hcreate as <- <-.
  apply ret_Done in Hrun as [-> ->].
  exists w0, w1, r0, r1. repeat split; assumption.
Qed.

(** The second loop of [addMesh]. *)
Lemma addMesh_edges_Done (deltaMesh : Mesh) (offset : nat) (vertexMap : gmap Z nat)
  (l : list Edge) :
  vertexMapOK (_vertices deltaMesh) offset vertexMap ->
  forall (done : list Edge) (eoffset : nat) (edgeMap edgeMap' : gmap Z nat) (m m' : Mesh),
    length (_edges m) = (eoffset + length done)%nat ->
    edgeMapOK done eoffset edgeMap ->
    foldM (addMesh_edge deltaMesh vertexMap) l edgeMap m = (Done edgeMap', m') ->
    exists newEdges,
      m' = appendEdges newEdges m /\
      Forall2 (edgeCopy deltaMesh offset) l newEdges /\
      edgeMapOK (done ++ l) eoffset edgeMap'.
Proof.
  intros Hvmap.
  induction l as [|e l IH]; intros done eoffset edgeMap edgeMap' m m' Hlen Hmap Hrun;
    simpl in Hrun.
  - apply ret_Done in Hrun as [-> ->]. exists [].
    rewrite appendEdges_nil, app_nil_r. repeat split; [constructor | exact Hmap].
  - apply bind_Done in Hrun as (edgeMap1 & m1 & Hstep & Hrun).
    apply addMesh_edge_Done in Hstep
      as (w0 & w1 & r0 & r1 & Hw0 & Hw1 & Hr0 & Hr1 & -> & ->).
    apply (IH (done ++ [e]) eoffset) in Hrun.
    + destruct Hrun as (newEdges & -> & Hcopies & Hmap').
      exists (Edge_ctor r0 r1 (_manageEdgeIDs m) (_dimensions m) :: newEdges).
      split; [apply appendEdges_app |]. split.
      * constructor; [| exact Hcopies]. split; simpl.
        -- destruct (Hvmap _ _ Hr0) as (j & u & Hj & Hid & ->).
           exists w0, u, j. repeat split; assumption.
        -- destruct (Hvmap _ _ Hr1) as (j & u & Hj & Hid & ->).
           exists w1, u, j. repeat split; assumption.
      * rewrite <- app_assoc in Hmap'. exact Hmap'.
    + simpl. rewrite !length_app. simpl. lia.
    + intros id r Hr. destruct (decide (Edge_getID e = id)) as [<-|Hne].
      * rewrite lookup_insert_eq in Hr. injection Hr as <-.
        exists (length done), e. rewrite list_lookup_middle by reflexivity.
        repeat split; try reflexivity; lia.
      * rewrite lookup_insert_ne in Hr by exact Hne.
        destruct (Hmap id r Hr) as (j & u & Hj & Hid & ->).
        exists j, u. rewrite (lookup_app_l_Some _ _ _ _ Hj).
        repeat split; try reflexivity; exact Hid.
Qed.

Section AddMeshTriangles.
Context `{MeshPrimitives}.

Lemma createTriangle_Done (e1 e2 e3 : EdgeRef) (m m' : Mesh) (r : TriangleRef) :
  createTriangle e1 e2 e3 m = (Done r, m') ->
  m' = appendTriangles [Triangle_ctor e1 e2 e3 (_manageTriangleIDs m) (_dimensions m)] m.
Proof.
  unfold createTriangle. intros Hrun.
  apply bind_Done in Hrun as (E1 & m1 & H1 & Hrun).
  unfold edgeAt in H1. destruct (_edges m !! e1); [| discriminate]. injection H1 as _ <-.
  apply bind_Done in Hrun as (E2 & m2 & H2 & Hrun).
  unfold edgeAt in H2. destruct (_edges m !! e2); [| discriminate]. injection H2 as _ <-.
  apply bind_Done in Hrun as (E3 & m3 & H3 & Hrun).
  unfold edgeAt in H3. destruct (_edges m !! e3); [| discriminate]. injection H3 as _ <-.
  apply bind_Done in Hrun as ([] & m4 & Hcheck & Hrun).
  apply check_Done in Hcheck as [_ ->].
  unfold getFreeTriangleID, bind, get, put, ret in Hrun. simpl in Hrun.
  injection Hrun as _ <-. reflexivity.
Qed.

Lemma addMesh_triangle_Done (deltaMesh : Mesh) (eoffset : nat) (edgeMap : gmap Z nat)
  (t : Triangle) (m m' : Mesh) :
  edgeMapOK (_edges deltaMesh) eoffset edgeMap ->
  addMesh_triangle deltaMesh edgeMap t m = (Done tt, m') ->
  exists t', m' = appendTriangles [t'] m /\ triangleCopy deltaMesh eoffset t t'.
Proof.
  unfold addMesh_triangle. intros Hmap Hrun.
  apply bind_Done in Hrun as (i1 & m1 & H1 & Hrun).
  apply idOfEdgeIn_Done in H1 as (w1 & Hw1 & <- & ->).
  apply bind_Done in Hrun as (i2 & m2 & H2 & Hrun).
  apply idOfEdgeIn_Done in H2 as (w2 & Hw2 & <- & ->).
  apply bind_Done in Hrun as (i3 & m3 & H3 & Hrun).
  apply idOfEdgeIn_Done in H3 as (w3 & Hw3 & <- & ->).
  apply bind_Done in Hrun as ([] & m4 & Hassert & Hrun).
  apply assert_Done in Hassert as [_ ->].
  apply bind_Done in Hrun as (r1 & m5 & Hr1 & Hrun).
  apply mapAt_Done in Hr1 as [Hr1 ->].
  apply bind_Done in Hrun as (r2 & m6 & Hr2 & Hrun).
  apply mapAt_Done in Hr2 as [Hr2 ->].
  apply bind_Done in Hrun as (r3 & m7 & Hr3 & Hrun).
  apply mapAt_Done in Hr3 as [Hr3 ->].
  apply bind_Done in Hrun as (r & m8 & Hcreate & Hrun).
  apply createTriangle_Done in Hcreate as ->.
  apply ret_Done in Hrun as [_ ->].
  eexists. split; [reflexivity |].
  unfold triangleCopy. simpl.
  destruct (Hmap _ _ Hr1) as (j1 & u1 & Hj1 & Hid1 & ->).
  destruct (Hmap _ _ Hr2) as (j2 & u2 & Hj2 & Hid2 & ->).
  destruct (Hmap _ _ Hr3) as (j3 & u3 & Hj3 & Hid3 & ->).
  split; [| split].
  - exists w1, u1, j1. repeat split; assumption.
  - exists w2, u2, j2. repeat split; assumption.
  - exists w3, u3, j3. repeat split; assumption.
Qed.

(** The third loop of [addMesh]. *)
Lemma addMesh_triangles_Done (deltaMesh : Mesh) (eoffset : nat) (edgeMap : gmap Z nat)
  (l : list Triangle) :
  edgeMapOK (_edges deltaMesh) eoffset edgeMap ->
  forall (m m' : Mesh),
    forEach l (addMesh_triangle deltaMesh edgeMap) m = (Done tt, m') ->
    exists newTriangles,
      m' = appendTriangles newTriangles m /\
      Forall2 (triangleCopy deltaMesh eoffset) l newTriangles.
Proof.
  intros Hmap. induction l as [|t l IH]; intros m m' Hrun; simpl in Hrun.
  - apply ret_Done in Hrun as [_ ->]. exists [].
    rewrite appendTriangles_nil. split; [reflexivity | constructor].
  - apply bind_Done in Hrun as ([] & m1 & Hstep & Hrun).
    apply (addMesh_triangle_Done _ _ _ _ _ _ Hmap) in Hstep as (t' & -> & Hcopy).
    apply IH in Hrun as (newTriangles & -> & Hcopies).
    exists (t' :: newTriangles).
    split; [apply appendTriangles_app | constructor; assumption].
Qed.

End AddMeshTriangles.

Section AddMesh.
Context `{MeshPrimitives}.

(** C10: when [addMesh] returns, the two meshes have the same
    dimensionality, and the receiving mesh has, behind its old vertices, one
    new vertex per vertex of the delta mesh, in the same order, with the
    coordinates, global index, owner flag and tagged flag of that vertex (and
    an id of the receiving mesh); behind its old edges one new edge per edge
    of the delta mesh, joining the copies of vertices with the ids of that
    edge's end vertices; in a 3-dimensional mesh, behind its old triangles
    one new triangle per triangle of the delta mesh, on the copies of edges
    with the ids of that triangle's edges, and in any other mesh the
    triangles it had; and exactly the quads (and data fields) it had before,
    whatever quads the delta mesh has. *)
Theorem addMesh_copies (m deltaMesh m' : Mesh) :
  addMesh deltaMesh m = (Done tt, m') ->
  getDimensions deltaMesh = getDimensions m /\
  _vertices m' =
    _vertices m ++
      imap (fun k v => copiedVertex (_manageVertexIDs m + Z.of_nat k) v) (_vertices deltaMesh) /\
  (forall k v, _vertices deltaMesh !! k = Some v ->
     exists w, _vertices m' !! (length (_vertices m) + k)%nat = Some w /\
               Vertex_getCoords w = Vertex_getCoords v /\
               Vertex_getGlobalIndex w = Vertex_getGlobalIndex v /\
               Vertex_isOwner w = Vertex_isOwner v /\
               Vertex_isTagged w = Vertex_isTagged v) /\
  (exists newEdges,
     _edges m' = _edges m ++ newEdges /\
     Forall2 (edgeCopy deltaMesh (length (_vertices m))) (_edges deltaMesh) newEdges) /\
  (_dimensions m = 3 ->
     exists newTriangles,
       _triangles m' = _triangles m ++ newTriangles /\
       Forall2 (triangleCopy deltaMesh (length (_edges m)))
               (_triangles deltaMesh) newTriangles) /\
  (_dimensions m <> 3 -> _triangles m' = _triangles m) /\
  _quads m' = _quads m /\
  _data m' = _data m.
Proof.
  unfold addMesh. intros Hrun.
  apply bind_Done in Hrun as (m0 & m1 & Hget & Hrun).
  apply get_Done in Hget as [-> ->].
  apply bind_Done in Hrun as ([] & m1 & Hassert & Hrun).
  apply assert_Done in Hassert as [Hdim ->].
  apply Z.eqb_eq in Hdim.
  apply bind_Done in Hrun as (vertexMap & m1 & Hvs & Hrun).
  apply (addMesh_vertices_Done _ [] (length (_vertices m))) in Hvs;
    [| simpl; lia | intros id r Hr; rewrite lookup_empty in Hr; discriminate].
  destruct Hvs as [-> Hvmap]. simpl in Hvmap.
  apply bind_Done in Hrun as (edgeMap & m2 & Hes & Hrun).
  apply (addMesh_edges_Done _ _ _ _ Hvmap [] (length (_edges m))) in Hes;
    [| simpl; lia | intros id r Hr; rewrite lookup_empty in Hr; discriminate].
  destruct Hes as (newEdges & -> & Hedges & Hemap). simpl in Hemap.
  split; [symmetry; exact Hdim |].
  assert (Hlookup : forall k v, _vertices deltaMesh !! k = Some v ->
     exists w,
       (_vertices m ++
          imap (fun k v => copiedVertex (_manageVertexIDs m + Z.of_nat k) v)
               (_vertices deltaMesh)) !! (length (_vertices m) + k)%nat = Some w /\
       Vertex_getCoords w = Vertex_getCoords v /\
       Vertex_getGlobalIndex w = Vertex_getGlobalIndex v /\
       Vertex_isOwner w = Vertex_isOwner v /\
       Vertex_isTagged w = Vertex_isTagged v).
  { intros k v Hk. exists (copiedVertex (_manageVertexIDs m + Z.of_nat k) v).
    split; [| repeat split].
    rewrite lookup_app_r by lia.
    replace (length (_vertices m) + k - length (_vertices m))%nat with k by lia.
    rewrite list_lookup_imap, Hk. reflexivity. }
  destruct (Z.eqb_spec (_dimensions m) 3) as [H3|H3].
  - apply (addMesh_triangles_Done _ _ _ _ Hemap) in Hrun
      as (newTriangles & -> & Htriangles).
    simpl.
    split; [reflexivity |]. split; [exact Hlookup |].
    split; [exists newEdges; split; [reflexivity | exact Hedges] |].
    split; [intros _; exists newTriangles; split; [reflexivity | exact Htriangles] |].
    split; [intros Hne; contradiction |].
    split; reflexivity.
  - apply ret_Done in Hrun as [_ ->]. simpl.
    split; [reflexivity |]. split; [exact Hlookup |].
    split; [exists newEdges; split; [reflexivity | exact Hedges] |].
    split; [intros Heq; contradiction |].
    split; [intros _; reflexivity |].
    split; reflexivity.
Qed.

(** X2: meshes of different dimensionality are refused before anything is
    copied. *)
Lemma addMesh_requires_equal_dimensions (m deltaMesh : Mesh) :
  getDimensions deltaMesh <> getDimensions m ->
  addMesh deltaMesh m = (AssertionFailed, m).
Proof.
  intros Hne. unfold addMesh, bind, get, PRECICE_ASSERT. simpl.
  destruct (Z.eqb_spec (_dimensions m) (getDimensions deltaMesh)) as [Heq|_].
  - exfalso. apply Hne. symmetry. exact Heq.
  - reflexivity.
Qed.

End AddMesh.

Lemma addMesh_copies_witness :
  exists m',
    addMesh (H := samplePrimitives) sampleDeltaMesh sampleSquareMesh = (Done tt, m') /\
    length (_vertices m') = 12%nat /\
    length (_edges m') = 5%nat /\
    length (_triangles m') = 1%nat /\
    _quads sampleDeltaMesh <> [] /\
    _quads m' = [].
Proof.
  destruct (addMesh (H := samplePrimitives) sampleDeltaMesh sampleSquareMesh)
    as [r m'] eqn:Erun.
  assert (Hr : r = Done tt) by (vm_compute in Erun; injection Erun as <- _; reflexivity).
  subst r. exists m'. split; [reflexivity |].
  destruct (addMesh_copies (H := samplePrimitives) sampleSquareMesh sampleDeltaMesh m' Erun)
    as (_ & Hvs & _ & (newEdges & Hes & Hcopies) & Hts & _ & Hqs & _).
  destruct (Hts eq_refl) as (newTriangles & Htri & Htcopies).
  split; [rewrite Hvs; reflexivity |].
  split; [rewrite Hes; simpl; apply Forall2_length in Hcopies; rewrite <- Hcopies; reflexivity |].
  split; [rewrite Htri; simpl; apply Forall2_length in Htcopies; rewrite <- Htcopies; reflexivity |].
  split; [discriminate | exact Hqs].
Defined.

Lemma addMesh_requires_equal_dimensions_witness :
  addMesh (H := samplePrimitives) emptyMesh2D sampleSquareMesh
  = (AssertionFailed, sampleSquareMesh).
Proof.
  apply (addMesh_requires_equal_dimensions (H := samplePrimitives)).
  discriminate.
Defined.

(** *** Runs of [addMesh] that return *)

Lemma addMesh_vertex_returns (vertexMap : gmap Z nat) (v : Vertex) (m : Mesh) :
  Z.of_nat (length (Vertex_getCoords v)) = _dimensions m ->
  0 <= Vertex_getID v ->
  addMesh_vertex vertexMap v m =
    (Done (<[Vertex_getID v := length (_vertices m)]> vertexMap),
     appendVertices [copiedVertex (_manageVertexIDs m) v] m).
Proof.
  intros Hdim Hid.
  destruct (addMesh_vertex vertexMap v m) as [r m'] eqn:Erun.
  assert (Hdone : exists vertexMap', r = Done vertexMap').
  { unfold addMesh_vertex in Erun. cbv zeta in Erun. unfold bind at 1 in Erun.
    rewrite createVertex_run in Erun.
    rewrite (proj2 (Z.eqb_eq _ _) Hdim) in Erun.
    unfold bind at 1 in Erun. erewrite updateVertex_last in Erun by reflexivity.
    unfold bind at 1 in Erun.
    destruct (Vertex_isTagged v).
    - erewrite updateVertex_last in Erun by reflexivity.
      unfold bind at 1 in Erun. erewrite updateVertex_last in Erun by reflexivity.
      unfold bind, PRECICE_ASSERT, ret in Erun.
      rewrite (proj2 (Z.leb_le _ _) Hid) in Erun.
      injection Erun as <- _. eexists. reflexivity.
    - unfold ret at 1 in Erun.
      unfold bind at 1 in Erun. erewrite updateVertex_last in Erun by reflexivity.
      unfold bind, PRECICE_ASSERT, ret in Erun.
      rewrite (proj2 (Z.leb_le _ _) Hid) in Erun.
      injection Erun as <- _. eexists. reflexivity. }
  destruct Hdone as [vertexMap' ->].
  apply addMesh_vertex_Done in Erun as [-> ->]. reflexivity.
Qed.

Lemma addMesh_vertices_return (l : list Vertex) :
  forall (vertexMap : gmap Z nat) (m : Mesh),
    Forall (fun v => Z.of_nat (length (Vertex_getCoords v)) = _dimensions m /\
                     0 <= Vertex_getID v) l ->
    exists vertexMap' m',
      foldM addMesh_vertex l vertexMap m = (Done vertexMap', m') /\
      (forall v, In v l -> is_Some (vertexMap' !! Vertex_getID v)) /\
      (forall id, is_Some (vertexMap !! id) -> is_Some (vertexMap' !! id)).
Proof.
  induction l as [|v l IH]; intros vertexMap m Hl; simpl.
  - exists vertexMap, m. split; [reflexivity |]. split; [intros v [] | trivial].
  - apply Forall_cons_1 in Hl as [[Hdim Hid] Hl].
    unfold bind. rewrite (addMesh_vertex_returns vertexMap v m Hdim Hid).
    destruct (IH (<[Vertex_getID v := length (_vertices m)]> vertexMap)
                 (appendVertices [copiedVertex (_manageVertexIDs m) v] m) Hl)
      as (vertexMap' & m' & Hrun & Hin & Hkeep).
    exists vertexMap', m'. split; [exact Hrun |]. split.
    + intros w [<-|Hw]; [| apply Hin; exact Hw].
      apply Hkeep. rewrite lookup_insert_eq. eexists. reflexivity.
    + intros id Hsome. apply Hkeep.
      destruct (decide (Vertex_getID v = id)) as [<-|Hne].
      * rewrite lookup_insert_eq. eexists. reflexivity.
      * rewrite lookup_insert_ne by exact Hne. exact Hsome.
Qed.

Lemma addMesh_edge_returns (deltaMesh : Mesh) (vertexMap edgeMap : gmap Z nat)
  (e : Edge) (m : Mesh) :
  (forall v, In v (_vertices deltaMesh) -> is_Some (vertexMap !! Vertex_getID v)) ->
  is_Some (_vertices deltaMesh !! Edge_vertex0 e) ->
  is_Some (_vertices deltaMesh !! Edge_vertex1 e) ->
  exists edgeMap' m', addMesh_edge deltaMesh vertexMap edgeMap e m = (Done edgeMap', m').
Proof.
  intros Hmap [w0 Hw0] [w1 Hw1].
  destruct (Hmap w0) as [r0 Hr0];
    [apply list_elem_of_In; eapply list_elem_of_lookup_2; exact Hw0 |].
  destruct (Hmap w1) as [r1 Hr1];
    [apply list_elem_of_In; eapply list_elem_of_lookup_2; exact Hw1 |].
  unfold addMesh_edge, idOfVertexIn, mapAt, count1. simpl.
  rewrite Hw0, Hw1. unfold bind at 1. unfold ret at 1.
  unfold bind at 1. unfold ret at 1.
  rewrite Hr0, Hr1.
  rewrite !bool_decide_eq_true_2 by (eexists; reflexivity).
  eexists. eexists. reflexivity.
Qed.

Lemma addMesh_edges_return (deltaMesh : Mesh) (vertexMap : gmap Z nat) (l : list Edge) :
  (forall v, In v (_vertices deltaMesh) -> is_Some (vertexMap !! Vertex_getID v)) ->
  Forall (fun e => is_Some (_vertices deltaMesh !! Edge_vertex0 e) /\
                   is_Some (_vertices deltaMesh !! Edge_vertex1 e)) l ->
  forall (edgeMap : gmap Z nat) (m : Mesh),
    exists edgeMap' m',
      foldM (addMesh_edge deltaMesh vertexMap) l edgeMap m = (Done edgeMap', m').
Proof.
  intros Hmap Hl. induction Hl as [|e l [H0 H1] _ IH]; intros edgeMap m; simpl.
  - exists edgeMap, m. reflexivity.
  - destruct (addMesh_edge_returns deltaMesh vertexMap edgeMap e m Hmap H0 H1)
      as (edgeMap1 & m1 & Hstep).
    unfold bind. rewrite Hstep. apply IH.
Qed.

Section AddMeshReturns.
Context `{MeshPrimitives}.

(** X3: on a well-formed delta mesh of the same dimensionality, [addMesh]
    returns whenever no triangle has to be copied: the delta mesh has none,
    or the meshes are not 3-dimensional. *)
Lemma addMesh_returns (m deltaMesh : Mesh) :
  getDimensions deltaMesh = getDimensions m ->
  deltaWellFormed (_dimensions m) deltaMesh ->
  _triangles deltaMesh = [] \/ _dimensions m <> 3 ->
  exists m', addMesh deltaMesh m = (Done tt, m').
Proof.
  intros Hdim [Hvs Hes] Hnt. unfold getDimensions in Hdim.
  unfold addMesh, getDimensions. unfold bind at 1. simpl.
  unfold bind at 1, PRECICE_ASSERT.
  rewrite (proj2 (Z.eqb_eq _ _) (eq_sym Hdim)).
  destruct (addMesh_vertices_return (_vertices deltaMesh) ∅ m Hvs)
    as (vertexMap & m1 & Hrun1 & Hin & _).
  unfold bind at 1. rewrite Hrun1.
  destruct (addMesh_edges_return deltaMesh vertexMap (_edges deltaMesh) Hin Hes ∅ m1)
    as (edgeMap & m2 & Hrun2).
  unfold bind at 1. rewrite Hrun2.
  destruct Hnt as [Hnone|Hne].
  - rewrite Hnone. destruct (_dimensions m =? 3); eexists; reflexivity.
  - destruct (Z.eqb_spec (_dimensions m) 3); [contradiction |].
    eexists. reflexivity.
Qed.

End AddMeshReturns.

Lemma addMesh_returns_witness :
  exists m', addMesh (H := samplePrimitives) sampleDeltaMesh2D emptyMesh2D = (Done tt, m').
Proof.
  apply (addMesh_returns (H := samplePrimitives) emptyMesh2D sampleDeltaMesh2D).
  - reflexivity.
  - split.
    + repeat constructor; simpl; lia.
    + unfold edgesValid. simpl. repeat constructor; simpl; eexists; reflexivity.
  - left. reflexivity.
Defined.

(** ** More on the quad convexity routine *)









(** Four rounds of the loop that end at the starting point. *)
Lemma hullLoop_four (coords : list Vector3d) (low fuel : nat) (a b c d : Z) (ids' : list Z) :
  hullLoop fuel coords low low 0 [a; b; c; d] = (Done 4%nat, ids') ->
  let f := wrapStep coords in
  ids' = map Z.of_nat [low; f low; f (f low); f (f (f low))] /\
  f (f (f (f low))) = low /\
  f low <> low /\ f (f low) <> low /\ f (f (f low)) <> low.
Proof.
  intros Hrun f.
  destruct fuel as [|fuel]; [discriminate |]. simpl in Hrun. unfold bind in Hrun.
  simpl in Hrun. fold f in Hrun.
  destruct (Nat.eqb_spec (f low) low) as [|H1]; [discriminate |].
  destruct fuel as [|fuel]; [discriminate |]. simpl in Hrun. unfold bind in Hrun.
  simpl in Hrun. fold f in Hrun.
  destruct (Nat.eqb_spec (f (f low)) low) as [|H2]; [discriminate |].
  destruct fuel as [|fuel]; [discriminate |]. simpl in Hrun. unfold bind in Hrun.
  simpl in Hrun. fold f in Hrun.
  destruct (Nat.eqb_spec (f (f (f low))) low) as [|H3]; [discriminate |].
  destruct fuel as [|fuel]; [discriminate |]. simpl in Hrun. unfold bind in Hrun.
  simpl in Hrun. fold f in Hrun.
  destruct (Nat.eqb_spec (f (f (f (f low)))) low) as [H4|H4].
  - injection Hrun as <-. repeat split; assumption.
  - destruct fuel as [|fuel]; discriminate.
Qed.

(** X5: when the quad convexity routine returns true on an array of four
    entries, the array holds each of the positions 0, 1, 2, 3 exactly once:
    it is a permutation of the positions, whatever vertex ids it held on
    entry. *)
Theorem computeQuadConvexityFromPoints_permutation (m : Mesh) (fuel : nat)
  (a b c d : Z) (vertexIDs' : list Z) :
  computeQuadConvexityFromPoints m fuel [a; b; c; d] = (Done true, vertexIDs') ->
  Permutation vertexIDs' [0; 1; 2; 3].
Proof.
  unfold computeQuadConvexityFromPoints. intros Hrun.
  repeat (apply bind_Done in Hrun as (? & ? & Hstep & Hrun);
          first [ apply readID_Done in Hstep | apply coordsOf_Done in Hstep ];
          subst).
  cbv zeta in Hrun.
  apply bind_Done in Hrun as (n & ids1 & Hloop & Hret).
  unfold ret in Hret. injection Hret as Hn <-.
  apply Nat.eqb_eq in Hn. subst n.
  match type of Hloop with
  | hullLoop _ ?coords ?low _ _ _ = _ =>
      assert (Hlow : (low < 4)%nat);
      [ simpl; repeat match goal with
                      | |- context [if ?b then _ else _] => destruct b
                      end; lia
      | remember low as l0 eqn:El0; remember coords as cs eqn:Ecs; clear El0 Ecs ]
  end.
  apply hullLoop_four in Hloop as (-> & H4 & H1 & H2 & H3).
  remember (wrapStep cs) as f eqn:Ef.
  assert (Hb : forall k, (f k < 4)%nat) by (intros k; subst f; apply wrapStep_lt).
  clear Ef.
  pose proof (Hb l0) as Hb1. pose proof (Hb (f l0)) as Hb2.
  pose proof (Hb (f (f l0))) as Hb3.
  assert (H12 : f l0 <> f (f l0)) by (intros E; congruence).
  assert (H23 : f (f l0) <> f (f (f l0))) by (intros E; congruence).
  assert (H13 : f l0 <> f (f (f l0))) by (intros E; congruence).
  apply submseteq_length_Permutation; [| simpl; lia].
  apply NoDup_submseteq.
  - simpl. repeat (apply NoDup_cons; split);
      rewrite ?list_elem_of_In; simpl; try apply NoDup_nil_2; lia.
  - intros y Hy. apply list_elem_of_In in Hy. simpl in Hy.
    apply list_elem_of_In. simpl. lia.
Qed.

Lemma computeQuadConvexityFromPoints_permutation_witness :
  Permutation [0; 3; 2; 1] [0; 1; 2; 3].
Proof.
  apply (computeQuadConvexityFromPoints_permutation sampleSquareMesh 4 4 5 6 7).
  vm_compute. reflexivity.
Defined.

(** ** The edge order of a quad *)

Lemma edgeVertexID_run {St} (m : Mesh) (edgeID : Z) (i : nat) (s : St) :
  edgeVertexID m edgeID i s =
    match endID m edgeID i with
    | Some a => (Done a, s)
    | None => (UndefinedBehaviour, s)
    end.
Proof.
  unfold edgeVertexID, endID. destruct (edgeID <? 0); [reflexivity |].
  destruct (_edges m !! Z.to_nat edgeID) as [e|]; [| reflexivity].
  destruct (_vertices m !! Edge_vertex e i); reflexivity.
Qed.

Lemma edgeVertexID_Done {St} (m : Mesh) (edgeID : Z) (i : nat) (s s' : St) (a : Z) :
  edgeVertexID m edgeID i s = (Done a, s') -> endID m edgeID i = Some a /\ s' = s.
Proof.
  rewrite edgeVertexID_run. destruct (endID m edgeID i); [| discriminate].
  intros [= <- <-]. split; reflexivity.
Qed.

Lemma readID_Some (i : nat) (ids ids' : list Z) (x : Z) :
  readID i ids = (Done x, ids') -> ids !! i = Some x /\ ids' = ids.
Proof.
  unfold readID. destruct (ids !! i); [| discriminate].
  intros [= <- <-]. split; reflexivity.
Qed.

Lemma computeQuadEdgeOrder_body_Done (m : Mesh) (v0 v1 : Z)
  (acc acc' : list (option Z) * list (option Z)) (j : nat) (ids ids' : list Z) :
  computeQuadEdgeOrder_body m v0 v1 acc j ids = (Done acc', ids') ->
  exists e a b,
    ids !! j = Some e /\ edgeEnds m e a b /\
    acc' = quadStep v0 v1 e a b acc /\ ids' = ids.
Proof.
  unfold computeQuadEdgeOrder_body. destruct acc as [edgeOrder vertexIDs]. intros Hrun.
  apply bind_Done in Hrun as (e & s1 & He & Hrun). apply readID_Some in He as [He ->].
  apply bind_Done in Hrun as (a & s1 & Ha & Hrun). apply edgeVertexID_Done in Ha as [Ha ->].
  apply bind_Done in Hrun as (b & s1 & Hb & Hrun). apply edgeVertexID_Done in Hb as [Hb ->].
  exists e, a, b. split; [exact He |]. split; [split; assumption |].
  unfold quadStep.
  destruct (negb (a =? v0) && negb (b =? v0) && negb (a =? v1) && negb (b =? v1)).
  { apply ret_Done in Hrun as [-> ->]. split; reflexivity. }
  destruct (((a =? v0) || (b =? v0)) && (negb (a =? v1) && negb (b =? v1))).
  { apply bind_Done in Hrun as (other & s1 & Ho & Hrun).
    apply ret_Done in Hrun as [-> ->].
    destruct (a =? v0); apply edgeVertexID_Done in Ho as [Ho ->];
      split; try reflexivity; repeat f_equal; congruence. }
  destruct (((a =? v1) || (b =? v1)) && (negb (a =? v0) && negb (b =? v0))).
  { apply bind_Done in Hrun as (other & s1 & Ho & Hrun).
    apply ret_Done in Hrun as [-> ->].
    destruct (a =? v1); apply edgeVertexID_Done in Ho as [Ho ->];
      split; try reflexivity; repeat f_equal; congruence. }
  apply ret_Done in Hrun as [-> ->]. split; reflexivity.
Qed.

(** The four things a round of the loop can do. *)
Lemma quadStep_cases (v0 v1 e a b : Z) (edgeOrder vertexIDs : list (option Z)) :
  (quadStep v0 v1 e a b (edgeOrder, vertexIDs) = (<[2%nat := Some e]> edgeOrder, vertexIDs) /\
   a <> v0 /\ b <> v0 /\ a <> v1 /\ b <> v1) \/
  (exists x,
     quadStep v0 v1 e a b (edgeOrder, vertexIDs)
     = (<[3%nat := Some e]> edgeOrder, <[3%nat := Some x]> vertexIDs) /\
     ((a = v0 /\ x = b) \/ (b = v0 /\ x = a)) /\ a <> v1 /\ b <> v1) \/
  (exists x,
     quadStep v0 v1 e a b (edgeOrder, vertexIDs)
     = (<[1%nat := Some e]> edgeOrder, <[2%nat := Some x]> vertexIDs) /\
     ((a = v1 /\ x = b) \/ (b = v1 /\ x = a)) /\ a <> v0 /\ b <> v0) \/
  quadStep v0 v1 e a b (edgeOrder, vertexIDs) = (edgeOrder, vertexIDs).
Proof.
  unfold quadStep.
  destruct (Z.eqb_spec a v0), (Z.eqb_spec b v0), (Z.eqb_spec a v1), (Z.eqb_spec b v1);
    simpl;
    first
      [ left; repeat split; solve [ reflexivity | assumption ]
      | right; left; eexists; split; [reflexivity |];
        repeat split; solve [ tauto | assumption | left; split; congruence
                            | right; split; congruence ]
      | right; right; left; eexists; split; [reflexivity |];
        repeat split; solve [ tauto | assumption | left; split; congruence
                            | right; split; congruence ]
      | right; right; right; reflexivity ].
Qed.

Lemma readLocal_Done {St} (arr : list (option Z)) (i : nat) (s s' : St) (x : Z) :
  readLocal arr i s = (Done x, s') -> arr !! i = Some (Some x) /\ s' = s.
Proof.
  unfold readLocal. destruct (arr !! i) as [[y|]|]; try discriminate.
  intros [= <- <-]. split; reflexivity.
Qed.

Lemma perm3_132 (x y z : Z) : Permutation [x; z; y] [x; y; z].
Proof. apply perm_skip, perm_swap. Qed.

Lemma perm3_213 (x y z : Z) : Permutation [y; x; z] [x; y; z].
Proof. apply perm_swap. Qed.

Lemma perm3_231 (x y z : Z) : Permutation [y; z; x] [x; y; z].
Proof. eapply perm_trans; [apply perm_skip, perm_swap | apply perm_swap]. Qed.

Lemma perm3_312 (x y z : Z) : Permutation [z; x; y] [x; y; z].
Proof. eapply perm_trans; [apply perm_swap | apply perm_skip, perm_swap]. Qed.

Lemma perm3_321 (x y z : Z) : Permutation [z; y; x] [x; y; z].
Proof.
  eapply perm_trans; [apply perm_swap |].
  eapply perm_trans; [apply perm_skip, perm_swap | apply perm_swap].
Qed.

(** X6: whenever [computeQuadEdgeOrder] returns on the array of four edge
    ids e0, e1, e2, e3, it leaves e0 first in the array, followed by a
    permutation o1, o2, o3 of e1, e2, e3, and returns four vertex ids v0,
    v1, v2, v3 such that edge e0 goes from v0 to v1, edge o1 joins v1 and v2
    and does not end at v0, edge o3 joins v0 and v3 and does not end at v1,
    and edge o2 ends at neither v0 nor v1. *)
Theorem computeQuadEdgeOrder_orders (m : Mesh) (e0 e1 e2 e3 : Z)
  (vertexIDs edgeIDs' : list Z) :
  computeQuadEdgeOrder m [e0; e1; e2; e3] = (Done vertexIDs, edgeIDs') ->
  exists v0 v1 v2 v3 o1 o2 o3,
    vertexIDs = [v0; v1; v2; v3] /\
    edgeIDs' = [e0; o1; o2; o3] /\
    Permutation [o1; o2; o3] [e1; e2; e3] /\
    edgeEnds m e0 v0 v1 /\
    edgeJoins m o1 v1 v2 /\ edgeAvoids m o1 v0 /\
    edgeJoins m o3 v0 v3 /\ edgeAvoids m o3 v1 /\
    edgeAvoids m o2 v0 /\ edgeAvoids m o2 v1.
Proof.
  unfold computeQuadEdgeOrder. cbv zeta. intros Hrun.
  apply bind_Done in Hrun as (e & s1 & He & Hrun). apply readID_Some in He as [He ->].
  simpl in He. injection He as <-.
  apply bind_Done in Hrun as (v0 & s1 & Hv0 & Hrun). apply edgeVertexID_Done in Hv0 as [Hv0 ->].
  apply bind_Done in Hrun as (v1 & s1 & Hv1 & Hrun). apply edgeVertexID_Done in Hv1 as [Hv1 ->].
  apply bind_Done in Hrun as ([edgeOrder vertexIDs0] & s1 & Hloop & Hrun).
  cbn [seq foldM] in Hloop.
  apply bind_Done in Hloop as (acc1 & s2 & H1 & Hloop).
  apply computeQuadEdgeOrder_body_Done in H1 as (x1 & a1 & b1 & Hx1 & Hends1 & -> & ->).
  simpl in Hx1. injection Hx1 as <-.
  apply bind_Done in Hloop as (acc2 & s2 & H2 & Hloop).
  apply computeQuadEdgeOrder_body_Done in H2 as (x2 & a2 & b2 & Hx2 & Hends2 & -> & ->).
  simpl in Hx2. injection Hx2 as <-.
  apply bind_Done in Hloop as (acc3 & s2 & H3 & Hloop).
  apply computeQuadEdgeOrder_body_Done in H3 as (x3 & a3 & b3 & Hx3 & Hends3 & -> & ->).
  simpl in Hx3. injection Hx3 as <-.
  apply ret_Done in Hloop as [Hacc ->].
  apply bind_Done in Hrun as (o1 & s1 & Ho1 & Hrun). apply readLocal_Done in Ho1 as [Ho1 ->].
  apply bind_Done in Hrun as ([] & s1 & Hw1 & Hrun). apply writeID_Done in Hw1 as [_ ->].
  apply bind_Done in Hrun as (o2 & s1 & Ho2 & Hrun). apply readLocal_Done in Ho2 as [Ho2 ->].
  apply bind_Done in Hrun as ([] & s1 & Hw2 & Hrun). apply writeID_Done in Hw2 as [_ ->].
  apply bind_Done in Hrun as (o3 & s1 & Ho3 & Hrun). apply readLocal_Done in Ho3 as [Ho3 ->].
  apply bind_Done in Hrun as ([] & s1 & Hw3 & Hrun). apply writeID_Done in Hw3 as [_ ->].
  apply bind_Done in Hrun as (r0 & s1 & Hr0 & Hrun). apply readLocal_Done in Hr0 as [Hr0 ->].
  apply bind_Done in Hrun as (r1 & s1 & Hr1 & Hrun). apply readLocal_Done in Hr1 as [Hr1 ->].
  apply bind_Done in Hrun as (r2 & s1 & Hr2 & Hrun). apply readLocal_Done in Hr2 as [Hr2 ->].
  apply bind_Done in Hrun as (r3 & s1 & Hr3 & Hrun). apply readLocal_Done in Hr3 as [Hr3 ->].
  apply ret_Done in Hrun as [-> ->].
  exists r0, r1, r2, r3, o1, o2, o3. simpl.
  split; [reflexivity |]. split; [reflexivity |].
  match type of Hacc with
  | context [quadStep v0 v1 e1 a1 b1 (?eo, ?vi)] =>
      destruct (quadStep_cases v0 v1 e1 a1 b1 eo vi)
        as [(E1 & ?)|[(y1 & E1 & ?)|[(y1 & E1 & ?)|E1]]]; rewrite E1 in Hacc; clear E1
  end;
  match type of Hacc with
  | context [quadStep v0 v1 e2 a2 b2 (?eo, ?vi)] =>
      destruct (quadStep_cases v0 v1 e2 a2 b2 eo vi)
        as [(E2 & ?)|[(y2 & E2 & ?)|[(y2 & E2 & ?)|E2]]]; rewrite E2 in Hacc; clear E2
  end;
  match type of Hacc with
  | context [quadStep v0 v1 e3 a3 b3 (?eo, ?vi)] =>
      destruct (quadStep_cases v0 v1 e3 a3 b3 eo vi)
        as [(E3 & ?)|[(y3 & E3 & ?)|[(y3 & E3 & ?)|E3]]]; rewrite E3 in Hacc; clear E3
  end;
  simpl in Hacc; injection Hacc as -> ->;
  simpl in Ho1, Ho2, Ho3, Hr0, Hr1, Hr2, Hr3;
  try discriminate;
  injection Ho1 as <-; injection Ho2 as <-; injection Ho3 as <-;
  injection Hr0 as <-; injection Hr1 as <-; injection Hr2 as <-; injection Hr3 as <-;
  (split; [first [ reflexivity | apply perm3_132 | apply perm3_213 | apply perm3_231
                 | apply perm3_312 | apply perm3_321 ] |]);
  (split; [split; assumption |]);
  unfold edgeJoins, edgeAvoids;
  repeat split;
  solve [ eexists; eexists; split; [eassumption | intuition congruence] ].
Qed.

Lemma computeQuadEdgeOrder_orders_witness :
  computeQuadEdgeOrder sampleQuadMesh [0; 1; 2; 3] = (Done [0; 1; 2; 3], [0; 3; 1; 2]) /\
  exists v0 v1 v2 v3 o1 o2 o3,
    [0; 1; 2; 3] = [v0; v1; v2; v3] /\
    [0; 3; 1; 2] = [0; o1; o2; o3] /\
    Permutation [o1; o2; o3] [1; 2; 3] /\
    edgeEnds sampleQuadMesh 0 v0 v1 /\
    edgeJoins sampleQuadMesh o1 v1 v2 /\ edgeAvoids sampleQuadMesh o1 v0 /\
    edgeJoins sampleQuadMesh o3 v0 v3 /\ edgeAvoids sampleQuadMesh o3 v1 /\
    edgeAvoids sampleQuadMesh o2 v0 /\ edgeAvoids sampleQuadMesh o2 v1.
Proof.
  assert (Hrun : computeQuadEdgeOrder sampleQuadMesh [0; 1; 2; 3]
                 = (Done [0; 1; 2; 3], [0; 3; 1; 2])) by (vm_compute; reflexivity).
  split; [exact Hrun |].
  exact (computeQuadEdgeOrder_orders sampleQuadMesh 0 1 2 3 _ _ Hrun).
Defined.

(** ** Looking up a data field by its id *)

Lemma find_if_pure {St A} (p : A -> bool) (l : list A) (pos : nat) (s : St) :
  std_find_if (fun x => ret (p x)) l pos s = (Done (findFrom p l pos), s).
Proof.
  revert pos. induction l as [|x l IH]; intros pos; simpl.
  - reflexivity.
  - unfold bind, ret at 1. destruct (p x); [reflexivity | apply IH].
Qed.

Lemma Mesh_data_run (dataID : Z) (m : Mesh) :
  Mesh_data dataID m =
    match findFrom (fun d => Data_getID d =? dataID) (_data m) 0 with
    | Some r => (Done r, m)
    | None => (AssertionFailed, m)
    end.
Proof.
  unfold Mesh_data. unfold bind at 1. simpl.
  unfold bind. rewrite find_if_pure.
  destruct (findFrom _ _ _); reflexivity.
Qed.

Lemma findFrom_first {A} (p : A -> bool) (l : list A) (r : nat) (x : A) :
  l !! r = Some x -> p x = true ->
  (forall y, In y (take r l) -> p y = false) ->
  forall pos, findFrom p l pos = Some (pos + r)%nat.
Proof.
  revert r. induction l as [|y l IH]; intros r Hr Hx Hbefore pos; [discriminate |].
  destruct r as [|r]; simpl in *.
  - injection Hr as ->. rewrite Hx. f_equal. lia.
  - rewrite (Hbefore y (or_introl eq_refl)).
    rewrite (IH r Hr Hx (fun z Hz => Hbefore z (or_intror Hz)) (S pos)).
    f_equal. lia.
Qed.

(** X7: [Mesh::data(dataID)] leaves the mesh as it is; it returns the
    reference [r] exactly when [r] is the first position of the data
    container that holds a field with the id, and it fails its assertion
    exactly when no data field of the mesh has the id. *)
Theorem Mesh_data_finds (m : Mesh) (dataID : Z) :
  snd (Mesh_data dataID m) = m /\
  (forall r,
     fst (Mesh_data dataID m) = Done r <->
     exists d, _data m !! r = Some d /\ Data_getID d = dataID /\
               forall d', In d' (take r (_data m)) -> Data_getID d' <> dataID) /\
  (fst (Mesh_data dataID m) = AssertionFailed <->
   forall d, In d (_data m) -> Data_getID d <> dataID).
Proof.
  rewrite Mesh_data_run.
  destruct (findFrom (fun d => Data_getID d =? dataID) (_data m) 0) as [p|] eqn:Efind.
  - split; [reflexivity |].
    destruct (findFrom_Some _ _ _ _ Efind) as (d & _ & Hd & Hid & Hbefore).
    rewrite Nat.sub_0_r in Hd, Hbefore. apply Z.eqb_eq in Hid.
    split.
    + intros r. simpl. split.
      * intros [= <-]. exists d. repeat split; try assumption.
        intros d' Hin Heq. apply Z.eqb_eq in Heq.
        rewrite (Hbefore d' Hin) in Heq. discriminate.
      * intros (d0 & Hd0 & Hid0 & Hbefore0).
        assert (Hf : findFrom (fun d => Data_getID d =? dataID) (_data m) 0 = Some (0 + r)%nat).
        { apply (findFrom_first _ _ r d0 Hd0); [apply Z.eqb_eq; exact Hid0 |].
          intros y Hy. apply Z.eqb_neq. apply Hbefore0. exact Hy. }
        rewrite Efind in Hf. simpl in Hf. exact (f_equal Done (eq_sym (eq_sym (f_equal (fun o => match o with Some k => k | None => r end) Hf)))).
    + simpl. split; [discriminate |].
      intros Hnone. exfalso. apply (Hnone d).
      * apply list_elem_of_In. eapply list_elem_of_lookup_2. exact Hd.
      * exact Hid.
  - split; [reflexivity |]. split.
    + intros r. simpl. split; [discriminate |].
      intros (d & Hd & Hid & _). exfalso.
      assert (Hin : In d (_data m))
        by (apply list_elem_of_In; eapply list_elem_of_lookup_2; exact Hd).
      pose proof (proj1 (findFrom_None _ _ _) Efind d Hin) as Hp. simpl in Hp.
      apply Z.eqb_neq in Hp. contradiction.
    + simpl. split; [| reflexivity].
      intros _ d Hin. pose proof (proj1 (findFrom_None _ _ _) Efind d Hin) as Hp.
      simpl in Hp. apply Z.eqb_neq in Hp. exact Hp.
Qed.

(** X8: on a mesh whose data ids were handed out by the counter, the id
    that a returning [createData] gives to the new field finds that field
    again: [data(id)] returns the reference that [createData] returned,
    the field there has the given name and dimension and an empty buffer,
    and every lookup that returned a field before returns the same
    reference afterwards. *)
Theorem createData_then_data (name : string) (dimension : Z) (count count' : DataCount)
  (m m' : Mesh) (r : DataRef) :
  Forall (fun d => Data_getID d < count) (_data m) ->
  createData name dimension (count, m) = (Done r, (count', m')) ->
  Mesh_data count m' = (Done r, m') /\
  _data m' !! r = Some (mkData [] name count dimension) /\
  forall id r0, Mesh_data id m = (Done r0, m) -> Mesh_data id m' = (Done r0, m').
Proof.
  intros Hbelow Hrun. rewrite createData_run in Hrun.
  destruct (forallb _ _); [| discriminate].
  destruct (0 <? dimension); [| discriminate].
  injection Hrun as <- <- <-.
  split; [| split].
  - rewrite Mesh_data_run. simpl.
    rewrite (findFrom_app_None (fun d => Data_getID d =? count) (_data m)
               (mkData [] name count dimension) 0).
    + reflexivity.
    + apply findFrom_None. intros d Hd. rewrite List.Forall_forall in Hbelow.
      specialize (Hbelow d Hd). simpl. apply Z.eqb_neq. lia.
    + simpl. apply Z.eqb_refl.
  - simpl. apply list_lookup_middle. reflexivity.
  - intros id r0 Hfind. rewrite Mesh_data_run in Hfind. rewrite Mesh_data_run. simpl.
    destruct (findFrom (fun d => Data_getID d =? id) (_data m) 0) as [p|] eqn:Efind;
      [| discriminate].
    injection Hfind as <-.
    destruct (findFrom_Some _ _ _ _ Efind) as (d & _ & Hd & Hid & Hbefore).
    rewrite Nat.sub_0_r in Hd, Hbefore.
    rewrite (findFrom_first (fun d => Data_getID d =? id) _ p d
               (lookup_app_l_Some _ _ _ _ Hd) Hid).
    + reflexivity.
    + intros y Hy. apply Hbefore.
      rewrite take_app_le in Hy by (apply Nat.lt_le_incl; eapply lookup_lt_Some; exact Hd).
      exact Hy.
Qed.

Lemma createData_then_data_witness :
  exists m',
    createData "Pressure" 1 (8, sampleQuadMesh) = (Done 1%nat, (9, m')) /\
    Mesh_data 8 m' = (Done 1%nat, m') /\
    Mesh_data 7 m' = (Done 0%nat, m').
Proof.
  destruct (createData "Pressure" 1 (8, sampleQuadMesh)) as [o [c m']] eqn:Erun.
  assert (Ho : o = Done 1%nat /\ c = 9).
  { vm_compute in Erun. injection Erun as <- <- _. split; reflexivity. }
  destruct Ho as [-> ->]. exists m'. split; [reflexivity |].
  destruct (createData_then_data "Pressure" 1 8 9 sampleQuadMesh m' 1%nat) as (Hnew & _ & Hold).
  - repeat constructor.
  - exact Erun.
  - split; [exact Hnew |]. apply Hold. reflexivity.
Defined.

(** ** Tagging all vertices *)

Lemma updateVertex_run (r : VertexRef) (f : Vertex -> Vertex) (v : Vertex) (m : Mesh) :
  _vertices m !! r = Some v ->
  updateVertex r f m = (Done tt, set_vertices (<[r := f v]> (_vertices m)) m).
Proof.
  intros Hr. unfold updateVertex, bind, vertexAt, modify. rewrite Hr. reflexivity.
Qed.

Lemma forEach_updateVertex (f : Vertex -> Vertex) (rest pre : list Vertex) (m : Mesh) :
  _vertices m = pre ++ rest ->
  forEach (seq (length pre) (length rest)) (fun k => updateVertex k f) m =
    (Done tt, set_vertices (pre ++ map f rest) m).
Proof.
  revert pre m. induction rest as [|v rest IH]; intros pre m Hvs.
  - simpl. rewrite app_nil_r in *. unfold ret. rewrite <- Hvs.
    destruct m; reflexivity.
  - cbn [length seq forEach]. unfold bind.
    rewrite (updateVertex_run _ f v) by (rewrite Hvs; apply list_lookup_middle; reflexivity).
    rewrite Hvs, insert_app_r_alt by lia. rewrite Nat.sub_diag. cbn [insert list_insert].
    specialize (IH (pre ++ [f v]) (set_vertices (pre ++ f v :: rest) m)).
    rewrite length_app, Nat.add_1_r in IH. rewrite IH.
    + rewrite set_vertices_twice, <- app_assoc. reflexivity.
    + simpl. rewrite <- app_assoc. reflexivity.
Qed.

Lemma tagAll_run (m : Mesh) :
  tagAll m = (Done tt, set_vertices (map Vertex_tag (_vertices m)) m).
Proof.
  unfold tagAll, bind, get, forRange.
  exact (forEach_updateVertex Vertex_tag (_vertices m) [] m eq_refl).
Qed.

(** X9: [Mesh::tagAll] returns on every mesh and never reads outside the
    vertex container; afterwards the mesh has as many vertices as before,
    the vertex at every position is tagged and has the coordinates, id,
    global index, owner flag and normal it had, and edges, triangles,
    quads, data, id managers and bounding box are as before.  Tagging all
    vertices a second time changes nothing. *)
Theorem tagAll_tags_every_vertex (m : Mesh) :
  exists m',
    tagAll m = (Done tt, m') /\
    length (_vertices m') = length (_vertices m) /\
    (forall k v, _vertices m !! k = Some v ->
       exists v', _vertices m' !! k = Some v' /\
         Vertex_isTagged v' = true /\
         Vertex_getCoords v' = Vertex_getCoords v /\
         Vertex_getID v' = Vertex_getID v /\
         Vertex_getGlobalIndex v' = Vertex_getGlobalIndex v /\
         Vertex_isOwner v' = Vertex_isOwner v /\
         Vertex_getNormal v' = Vertex_getNormal v) /\
    set_vertices (_vertices m) m' = m /\
    tagAll m' = (Done tt, m').
Proof.
  exists (set_vertices (map Vertex_tag (_vertices m)) m).
  split; [apply tagAll_run |].
  split; [simpl; apply length_map |].
  split; [| split].
  - intros k v Hk. exists (Vertex_tag v). simpl.
    rewrite list_lookup_fmap, Hk. repeat split.
  - rewrite set_vertices_twice. destruct m; reflexivity.
  - rewrite tagAll_run. simpl. rewrite set_vertices_twice.
    f_equal. f_equal. rewrite map_map. apply map_ext. intros v. reflexivity.
Qed.

(** ** The data of the owned vertices *)

Lemma int_result_run {St} (z : Z) (s : St) :
  INT_MIN <= z <= INT_MAX -> int_result z s = (Done z, s).
Proof.
  intros Hz. unfold int_result.
  destruct (INT_MIN <=? z) eqn:E1; [| apply Z.leb_gt in E1; lia].
  destruct (z <=? INT_MAX) eqn:E2; [| apply Z.leb_gt in E2; lia].
  reflexivity.
Qed.

Lemma VectorXd_coeff_run {St} (v : VectorXd) (i : nat) (z : Z) (x : double) (s : St) :
  z = Z.of_nat i -> v !! i = Some x -> VectorXd_coeff v z s = (Done x, s).
Proof.
  intros -> Hi. unfold VectorXd_coeff.
  destruct (Z.of_nat i <? 0) eqn:E; [apply Z.ltb_lt in E; lia |].
  rewrite Nat2Z.id, Hi. reflexivity.
Qed.

Section OwnedVertexData.
Variables (m : Mesh) (dataID : Z) (r : DataRef) (d : Data).
Hypothesis Hfind : fst (Mesh_data dataID m) = Done r.
Hypothesis Hd : _data m !! r = Some d.
Hypothesis Hdim : 0 <= Data_getDimensions d.
Hypothesis Hint : Z.of_nat (length (Data_values d)) <= INT_MAX.

Let valueDim := Z.to_nat (Data_getDimensions d).

Lemma Mesh_data_found : Mesh_data dataID m = (Done r, m).
Proof using Hfind.
  rewrite Mesh_data_run in *.
  destruct (findFrom _ _ _); simpl in Hfind; [| discriminate].
  injection Hfind as ->. reflexivity.
Qed.

Lemma dataAt_found : dataAt r m = (Done d, m).
Proof using Hd. unfold dataAt. rewrite Hd. reflexivity. Qed.

Lemma getOwnedVertexData_values_run (index : nat) (n a : nat) (owned : list double) :
  (index * valueDim + a + n <= length (Data_values d))%nat ->
  foldM
    (fun owned dim =>
       let! r0 := Mesh_data dataID in
       let! d0 := dataAt r0 in
       let! offset := int_result (Z.of_nat index * Data_getDimensions d) in
       let! i := int_result (offset + dim) in
       let! x := VectorXd_coeff (Data_values d0) i in
       ret (owned ++ [x]))
    (map Z.of_nat (seq a n)) owned m =
  (Done (owned ++ take n (drop (index * valueDim + a) (Data_values d))), m).
Proof using Hfind Hd Hdim Hint.
  revert a owned. induction n as [|n IH]; intros a owned Hlen.
  - simpl. rewrite app_nil_r. reflexivity.
  - cbn [seq map foldM].
    assert (Hx : exists x, Data_values d !! (index * valueDim + a)%nat = Some x).
    { apply lookup_lt_is_Some. lia. }
    destruct Hx as [x Hx].
    assert (Hoff : Z.of_nat index * Data_getDimensions d = Z.of_nat (index * valueDim)).
    { unfold valueDim. rewrite Nat2Z.inj_mul, Z2Nat.id by exact Hdim. reflexivity. }
    unfold INT_MAX in Hint.
    unfold bind at 1. cbv beta.
    unfold bind at 1. rewrite Mesh_data_found.
    unfold bind at 1. rewrite dataAt_found.
    unfold bind at 1. rewrite int_result_run by (unfold INT_MIN, INT_MAX; lia).
    unfold bind at 1. rewrite int_result_run by (unfold INT_MIN, INT_MAX; lia).
    unfold bind at 1.
    rewrite (VectorXd_coeff_run _ (index * valueDim + a) _ x) by (try exact Hx; lia).
    unfold bind at 1, ret at 1.
    rewrite IH by lia.
    rewrite (drop_S _ _ _ Hx). cbn [take].
    rewrite <- app_assoc. cbn [app].
    replace (index * valueDim + S a)%nat with (S (index * valueDim + a)) by lia.
    reflexivity.
Qed.

Lemma getOwnedVertexData_loop_run (vs : list Vertex) (index : nat) (owned : list double) :
  ((index + length vs) * valueDim <= length (Data_values d))%nat ->
  Z.of_nat (index + length vs) <= INT_MAX ->
  foldM
    (fun (acc : list double * Z) vertex =>
       let '(ownedDataVector, index) := acc in
       let! ownedDataVector :=
         (if Vertex_isOwner vertex
          then getOwnedVertexData_values dataID (Data_getDimensions d) index ownedDataVector
          else ret ownedDataVector) in
       let! index := int_result (index + 1) in
       ret (ownedDataVector, index))
    vs (owned, Z.of_nat index) m =
  (Done (owned ++ ownedValues valueDim vs (drop (index * valueDim) (Data_values d)),
         Z.of_nat (index + length vs)), m).
Proof using Hfind Hd Hdim Hint.
  revert index owned. induction vs as [|v vs IH]; intros index owned Hlen Hmax.
  - simpl. rewrite app_nil_r, Nat.add_0_r. reflexivity.
  - cbn [foldM length ownedValues] in *.
    unfold bind at 1. cbv beta iota. unfold bind at 1.
    assert (Hstep :
      (if Vertex_isOwner v
       then getOwnedVertexData_values dataID (Data_getDimensions d) (Z.of_nat index) owned
       else ret owned) m =
      (Done (owned ++ (if Vertex_isOwner v
                       then take valueDim (drop (index * valueDim) (Data_values d))
                       else [])), m)).
    { destruct (Vertex_isOwner v).
      - etransitivity;
          [apply (getOwnedVertexData_values_run index valueDim 0 owned); nia |].
        rewrite Nat.add_0_r. reflexivity.
      - rewrite app_nil_r. reflexivity. }
    rewrite Hstep.
    unfold bind at 1. rewrite int_result_run by (unfold INT_MIN, INT_MAX in *; lia).
    unfold bind at 1, ret at 1.
    replace (Z.of_nat index + 1) with (Z.of_nat (S index)) by lia.
    rewrite IH by (try nia; lia).
    rewrite drop_drop, <- app_assoc.
    replace (S index * valueDim)%nat with (index * valueDim + valueDim)%nat by lia.
    replace (S index + length vs)%nat with (index + S (length vs))%nat by lia.
    reflexivity.
Qed.

Lemma getOwnedVertexData_run :
  length (Data_values d) = (length (_vertices m) * valueDim)%nat ->
  Z.of_nat (length (_vertices m)) <= INT_MAX ->
  getOwnedVertexData dataID m =
    (Done (ownedValues valueDim (_vertices m) (Data_values d)), m).
Proof using Hfind Hd Hdim Hint.
  intros Hlen Hmax. unfold getOwnedVertexData.
  unfold bind at 1. rewrite Mesh_data_found.
  unfold bind at 1. rewrite dataAt_found.
  unfold bind at 1, get at 1.
  unfold bind at 1. cbv zeta.
  pose proof (getOwnedVertexData_loop_run (_vertices m) 0 []) as Hloop.
  change (Z.of_nat 0) with 0 in Hloop.
  cbn [Nat.add Nat.mul drop app] in Hloop.
  rewrite Hloop by lia. reflexivity.
Qed.
End OwnedVertexData.

Lemma ownedValues_length (valueDim : nat) (vs : list Vertex) (values : list double) :
  length values = (length vs * valueDim)%nat ->
  length (ownedValues valueDim vs values) = (length (owners vs) * valueDim)%nat.
Proof.
  revert values. induction vs as [|v vs IH]; intros values Hlen; [reflexivity |].
  cbn [ownedValues]. rewrite length_app, IH by (rewrite length_drop; simpl in Hlen; lia).
  unfold owners. cbn [List.filter]. simpl in Hlen.
  destruct (Vertex_isOwner v); simpl.
  - rewrite length_take. lia.
  - reflexivity.
Qed.

Lemma ownedValues_all (valueDim : nat) (vs : list Vertex) (values : list double) :
  length values = (length vs * valueDim)%nat ->
  owners vs = vs ->
  ownedValues valueDim vs values = values.
Proof.
  revert values. induction vs as [|v vs IH]; intros values Hlen Hall.
  - destruct values; [reflexivity | discriminate].
  - cbn [ownedValues]. unfold owners in Hall. cbn [List.filter] in Hall.
    destruct (Vertex_isOwner v) eqn:Eo.
    + injection Hall as Hall.
      rewrite IH; [apply take_drop | rewrite length_drop; simpl in Hlen; lia | exact Hall].
    + exfalso. pose proof (List.filter_length_le Vertex_isOwner vs) as Hle.
      apply (f_equal length) in Hall. simpl in Hall. lia.
Qed.

(** X10: [Mesh::getOwnedVertexData(dataID)], on a mesh that has a data
    field with the id whose buffer holds one block of [getDimensions()]
    values per vertex (as [allocateDataValues] leaves it) and whose sizes
    fit an [int], returns and leaves the mesh as it is; the result is the
    concatenation, in vertex order, of the blocks of the vertices that are
    owners, so it has dimension times number-of-owners entries, and it is
    the whole buffer when every vertex is an owner. *)
Theorem getOwnedVertexData_owned_blocks (m : Mesh) (dataID : Z) (r : DataRef) (d : Data) :
  fst (Mesh_data dataID m) = Done r ->
  _data m !! r = Some d ->
  0 <= Data_getDimensions d ->
  length (Data_values d) = (length (_vertices m) * Z.to_nat (Data_getDimensions d))%nat ->
  Z.of_nat (length (_vertices m)) <= INT_MAX ->
  Z.of_nat (length (Data_values d)) <= INT_MAX ->
  exists ownedData,
    getOwnedVertexData dataID m = (Done ownedData, m) /\
    ownedData = ownedValues (Z.to_nat (Data_getDimensions d)) (_vertices m) (Data_values d) /\
    length ownedData = (length (owners (_vertices m)) * Z.to_nat (Data_getDimensions d))%nat /\
    (owners (_vertices m) = _vertices m -> ownedData = Data_values d).
Proof.
  intros Hfind Hd Hdim Hlen Hmax Hint.
  eexists. split; [apply (getOwnedVertexData_run m dataID r d); assumption |].
  split; [reflexivity |]. split.
  - apply ownedValues_length. exact Hlen.
  - intros Hall. apply ownedValues_all; assumption.
Qed.

Lemma getOwnedVertexData_owned_blocks_witness :
  exists ownedData,
    getOwnedVertexData 7 sampleQuadMesh = (Done ownedData, sampleQuadMesh) /\
    length ownedData = 8%nat.
Proof.
  destruct (getOwnedVertexData_owned_blocks sampleQuadMesh 7 0%nat
              (mkData [1; 2; 3; 4; 5; 6; 7; 8]%float "Forces" 7 2))
    as (ownedData & Hrun & _ & Hlen & _).
  - reflexivity.
  - reflexivity.
  - simpl. lia.
  - reflexivity.
  - vm_compute. discriminate.
  - vm_compute. discriminate.
  - exists ownedData. split; [exact Hrun | exact Hlen].
Defined.

(** ** Valid ids *)

(** X11: for an [int] id and containers whose size is a [size_t],
    [isValidVertexID] and [isValidEdgeID] hold exactly for the ids that
    are positions of the vertex and of the edge container: an id that
    passes the test can be used as an index, and a negative id never
    passes, whatever the cast to [size_t] makes of it. *)
Theorem isValidID_in_range (m : Mesh) (id : Z) :
  INT_MIN <= id <= INT_MAX ->
  Z.of_nat (length (_vertices m)) < 2 ^ 64 ->
  Z.of_nat (length (_edges m)) < 2 ^ 64 ->
  (isValidVertexID m id = true <-> 0 <= id /\ is_Some (_vertices m !! Z.to_nat id)) /\
  (isValidEdgeID m id = true <-> 0 <= id /\ is_Some (_edges m !! Z.to_nat id)).
Proof.
  intros Hint Hvs Hes. unfold INT_MIN, INT_MAX in Hint.
  unfold isValidVertexID, isValidEdgeID.
  rewrite !andb_true_iff, !Z.leb_le, !Z.ltb_lt, !lookup_lt_is_Some.
  rewrite (to_size_t_small (Z.of_nat (length (_vertices m)))) by lia.
  rewrite (to_size_t_small (Z.of_nat (length (_edges m)))) by lia.
  split; split.
  - intros [Hpos Hlt]. rewrite to_size_t_small in Hlt by lia. lia.
  - intros [Hpos Hlt]. rewrite to_size_t_small by lia. lia.
  - intros [Hpos Hlt]. rewrite to_size_t_small in Hlt by lia. lia.
  - intros [Hpos Hlt]. rewrite to_size_t_small by lia. lia.
Qed.

Lemma isValidID_in_range_witness :
  isValidVertexID sampleQuadMesh 3 = true /\ isValidVertexID sampleQuadMesh (-1) = false /\
  isValidEdgeID sampleQuadMesh 4 = true /\ isValidEdgeID sampleQuadMesh 5 = false.
Proof.
  assert (Hsizes : Z.of_nat (length (_vertices sampleQuadMesh)) < 2 ^ 64 /\
                   Z.of_nat (length (_edges sampleQuadMesh)) < 2 ^ 64)
    by (split; reflexivity).
  destruct Hsizes as [Hvs Hes].
  assert (Hint : forall z, -1 <= z <= 5 -> INT_MIN <= z <= INT_MAX)
    by (unfold INT_MIN, INT_MAX; lia).
  pose proof (isValidID_in_range sampleQuadMesh 3 (Hint 3 ltac:(lia)) Hvs Hes) as [H3 _].
  pose proof (isValidID_in_range sampleQuadMesh (-1) (Hint (-1) ltac:(lia)) Hvs Hes) as [Hm1 _].
  pose proof (isValidID_in_range sampleQuadMesh 4 (Hint 4 ltac:(lia)) Hvs Hes) as [_ H4].
  pose proof (isValidID_in_range sampleQuadMesh 5 (Hint 5 ltac:(lia)) Hvs Hes) as [_ H5].
  split; [| split; [| split]].
  - apply H3. split; [lia | eexists; reflexivity].
  - destruct (isValidVertexID sampleQuadMesh (-1)); [| reflexivity].
    destruct (proj1 Hm1 eq_refl) as [Hneg _]. lia.
  - apply H4. split; [lia | eexists; reflexivity].
  - destruct (isValidEdgeID sampleQuadMesh 5); [| reflexivity].
    destruct (proj1 H5 eq_refl) as [_ [e He]]. discriminate He.
Defined.

(** ** Clearing a mesh *)

Section Clear.
Context `{MeshPrimitives}.

Lemma VectorXd_resize_0 (v : VectorXd) : VectorXd_resize 0 v = [].
Proof. unfold VectorXd_resize. destruct v; reflexivity. Qed.

Lemma allocateDataValues_body_empty (d : Data) :
  Data_values d = [] -> allocateDataValues_body (to_size_t (Z.of_nat 0)) d = d.
Proof.
  intros Hv. unfold allocateDataValues_body. rewrite Hv. reflexivity.
Qed.

Lemma set_data_same (m : Mesh) : set_data (_data m) m = m.
Proof. destruct m; reflexivity. Qed.

(** X12: [Mesh::clear] returns on every mesh.  Afterwards the mesh has no
    vertices, edges, triangles and quads; it has the data fields it had,
    with their names, ids and dimensions, each with an empty buffer; the id
    managers of vertices, edges and triangles are reset, while the id
    manager of quads is left where it was, as are the name, the
    dimensionality, the flag and the bounding box.  Clearing again, or
    allocating the data values of the cleared mesh, changes nothing. *)
Theorem clear_empties (m : Mesh) :
  exists m',
    clear m = (Done tt, m') /\
    (_vertices m' = [] /\ _edges m' = [] /\ _triangles m' = [] /\ _quads m' = []) /\
    _data m' = map (Data_setValues []) (_data m) /\
    (_manageVertexIDs m' = 0 /\ _manageEdgeIDs m' = 0 /\ _manageTriangleIDs m' = 0) /\
    _manageQuadIDs m' = _manageQuadIDs m /\
    (_name m' = _name m /\ _dimensions m' = _dimensions m /\
     _flipNormals m' = _flipNormals m /\ _id m' = _id m /\
     _boundingBox m' = _boundingBox m) /\
    clear m' = (Done tt, m') /\
    allocateDataValues m' = (Done tt, m').
Proof.
  assert (Hdata : forall l : list Data,
            map (fun data => Data_setValues (VectorXd_resize 0 (Data_values data)) data) l
            = map (Data_setValues []) l).
  { intros l. apply map_ext. intros d. rewrite VectorXd_resize_0. reflexivity. }
  eexists. split; [reflexivity |]. simpl.
  split; [repeat split |]. split; [apply Hdata |].
  split; [repeat split |]. split; [reflexivity |].
  split; [repeat split |]. split.
  - unfold clear, bind, modify. simpl. f_equal. unfold set_data. simpl. f_equal.
    rewrite !Hdata, map_map. reflexivity.
  - unfold allocateDataValues, bind, get, put. simpl. f_equal.
    unfold set_data. simpl. f_equal.
    rewrite Hdata, map_map. apply map_ext. intros d.
    apply allocateDataValues_body_empty. reflexivity.
Qed.

End Clear.

(** ** What [allocateDataValues] keeps *)

Section AllocateKeeps.
Context `{MeshPrimitives}.

Lemma allocateDataValues_body_grows (n : nat) (d : Data) :
  Data_inRange n d ->
  Z.of_nat (length (Data_values d)) <= Z.of_nat n * Data_getDimensions d ->
  allocateDataValues_body (to_size_t (Z.of_nat n)) d =
    Data_setValues
      (Data_values d ++
         VectorXd_Zero (Z.to_nat (Z.of_nat n * Data_getDimensions d)
                        - length (Data_values d)))
      d.
Proof.
  intros (Hdim & [Hlo Hhi] & [Hlo' Hhi']) Hle.
  unfold allocateDataValues_body.
  assert (Hexp : to_size_t (to_size_t (Z.of_nat n) * to_size_t (Data_getDimensions d))
                 = Z.of_nat n * Data_getDimensions d).
  { unfold to_size_t. rewrite <- Z.mul_mod by lia. apply Z.mod_small. lia. }
  rewrite Hexp.
  rewrite (to_size_t_small (Z.of_nat (length (Data_values d)))) by lia.
  destruct (Z.ltb_spec (Z.of_nat n * Data_getDimensions d) (Z.of_nat (length (Data_values d))))
    as [Habs|_]; [lia |].
  destruct (Z.ltb_spec (Z.of_nat (length (Data_values d))) (Z.of_nat n * Data_getDimensions d))
    as [Hgrow|Hsame].
  - rewrite to_size_t_small by lia. unfold utils_append. do 3 f_equal. lia.
  - replace (Z.to_nat (Z.of_nat n * Data_getDimensions d) - length (Data_values d))%nat
      with 0%nat by lia.
    simpl. rewrite app_nil_r. destruct d; reflexivity.
Qed.

Lemma allocateDataValues_body_inRange (n : nat) (d : Data) :
  Data_inRange n d -> Data_inRange n (allocateDataValues_body (to_size_t (Z.of_nat n)) d).
Proof.
  intros Hd. pose proof (allocateDataValues_body_length n d Hd) as Hlen.
  pose proof (allocateDataValues_body_signature (to_size_t (Z.of_nat n)) d) as Hsig.
  unfold Data_signature in Hsig. injection Hsig as _ _ Hdims.
  destruct Hd as (Hdim & Hfit & Hfit').
  unfold Data_inRange. rewrite Hdims, Hlen. repeat split; try apply Hfit; exact Hdim.
Qed.

Lemma allocateDataValues_body_twice (n : nat) (d : Data) :
  Data_inRange n d ->
  allocateDataValues_body (to_size_t (Z.of_nat n))
    (allocateDataValues_body (to_size_t (Z.of_nat n)) d)
  = allocateDataValues_body (to_size_t (Z.of_nat n)) d.
Proof.
  intros Hd. pose proof (allocateDataValues_body_length n d Hd) as Hlen.
  pose proof (allocateDataValues_body_signature (to_size_t (Z.of_nat n)) d) as Hsig.
  unfold Data_signature in Hsig. injection Hsig as _ _ Hdims.
  rewrite (allocateDataValues_body_grows n (allocateDataValues_body _ d))
    by (try apply allocateDataValues_body_inRange; try exact Hd; rewrite Hdims, Hlen; lia).
  rewrite Hdims.
  replace (Z.to_nat (Z.of_nat n * Data_getDimensions d)
           - length (Data_values (allocateDataValues_body (to_size_t (Z.of_nat n)) d)))%nat
    with 0%nat by lia.
  simpl. rewrite app_nil_r.
  destruct (allocateDataValues_body (to_size_t (Z.of_nat n)) d); reflexivity.
Qed.

(** X13: on a mesh whose data fields have sizes in the range of Eigen's
    index type, [allocateDataValues] keeps what a buffer held whenever the
    buffer is not too long: the field then holds its old values followed
    by zeros, one block per vertex in all (so a buffer of the right length
    is left as it is).  A second call changes nothing. *)
Theorem allocateDataValues_keeps_values (m : Mesh) :
  Forall (Data_inRange (length (_vertices m))) (_data m) ->
  exists m',
    allocateDataValues m = (Done tt, m') /\
    (forall k d,
       _data m !! k = Some d ->
       Z.of_nat (length (Data_values d))
         <= Z.of_nat (length (_vertices m)) * Data_getDimensions d ->
       exists zeros : nat,
         _data m' !! k = Some (Data_setValues (Data_values d ++ VectorXd_Zero zeros) d) /\
         Z.of_nat (length (Data_values d) + zeros)
           = Z.of_nat (length (_vertices m)) * Data_getDimensions d) /\
    allocateDataValues m' = (Done tt, m').
Proof.
  intros Hrange.
  exists (snd (allocateDataValues m)). split; [reflexivity |]. simpl. split.
  - intros k d Hk Hle.
    assert (Hd : Data_inRange (length (_vertices m)) d).
    { rewrite List.Forall_forall in Hrange. apply Hrange.
      apply list_elem_of_In. eapply list_elem_of_lookup_2. exact Hk. }
    eexists. split.
    + rewrite list_lookup_fmap, Hk. simpl. f_equal.
      apply allocateDataValues_body_grows; assumption.
    + destruct Hd as (Hdim & [Hlo Hhi] & _). lia.
  - unfold allocateDataValues, bind, get, put. simpl. f_equal.
    unfold set_data. simpl. f_equal.
    rewrite map_map. apply map_ext_in. intros d Hd.
    apply allocateDataValues_body_twice.
    rewrite List.Forall_forall in Hrange. apply Hrange. exact Hd.
Qed.

End AllocateKeeps.

Lemma allocateDataValues_keeps_values_witness :
  exists m',
    allocateDataValues (H := samplePrimitives) sampleMeshWithData = (Done tt, m') /\
    _data m' !! 2%nat = Some (mkData ([2; 2] ++ VectorXd_Zero 0)%float "Heat" 2 1) /\
    allocateDataValues (H := samplePrimitives) m' = (Done tt, m').
Proof.
  destruct (allocateDataValues_keeps_values (H := samplePrimitives) sampleMeshWithData)
    as (m' & Hrun & Hkeeps & Htwice).
  - unfold Data_inRange, fitsIndex. simpl.
    repeat (constructor; [simpl; lia |]). constructor.
  - exists m'. split; [exact Hrun |]. split; [| exact Htwice].
    destruct (Hkeeps 2%nat (mkData [2; 2]%float "Heat" 2 1) eq_refl) as (zeros & Hk & Hz).
    + simpl. lia.
    + simpl in Hz. assert (zeros = 0%nat) as -> by lia. exact Hk.
Defined.

(** ** What [computeState] changes *)

#[local] Instance onlyNormalsChanged_preorder : PreOrder onlyNormalsChanged.
Proof.
  split.
  - intros m. unfold onlyNormalsChanged. repeat split.
  - intros m1 m2 m3 H12 H23. unfold onlyNormalsChanged in *.
    destruct H12 as (? & ? & ? & ? & ? & (? & ? & ? & ?) & (? & ? & ? & ? & ?)).
    destruct H23 as (? & ? & ? & ? & ? & (? & ? & ? & ?) & (? & ? & ? & ? & ?)).
    repeat split; congruence.
Qed.

(** As [stable_tac], with the tactic that closes the leaves as a parameter. *)
Ltac stable_by leaf :=
  cbv beta zeta;
  lazymatch goal with
  | |- stable _ (bind get _) =>
      first
        [ solve [ apply stable_bind; [exact _ | apply stable_get; exact _ | intros; stable_by leaf] ]
        | apply stable_get_bind; intros;
          cbv [bind put ret modify get PRECICE_ASSERT PRECICE_CHECK]; simpl; leaf ]
  | |- stable _ (bind _ _) => apply stable_bind; [exact _ | stable_by leaf | intros; stable_by leaf]
  | |- stable _ (forEach _ _) => apply stable_forEach; [exact _ | intros; stable_by leaf]
  | |- stable _ (forRange _ _) => apply stable_forEach; [exact _ | intros; stable_by leaf]
  | |- stable _ (foldM _ _ _) => apply stable_foldM; [exact _ | intros; stable_by leaf]
  | |- stable _ (std_find_if _ _ _) => apply stable_find_if; [exact _ | intros; stable_by leaf]
  | |- stable _ (if _ then _ else _) => apply stable_if; stable_by leaf
  | |- stable _ (match ?x with (_, _) => _ end) => destruct x; stable_by leaf
  | |- stable _ (match ?x with Some _ => _ | None => _ end) => destruct x; stable_by leaf
  | |- _ =>
      first
        [ apply stable_ret; exact _ | apply stable_get; exact _
        | apply stable_assert; exact _ | apply stable_check; exact _
        | apply stable_undefined; exact _
        | apply stable_modify; intros; leaf
        | solve [ auto with stable_db ]
        | intros ?; leaf ]
  end.

Ltac onlyNormals_leaf :=
  unfold onlyNormalsChanged; simpl; rewrite ?length_insert; repeat split; reflexivity.

Section ComputeState.
Context `{MeshPrimitives}.

Lemma vertexAt_onlyNormals r : stable onlyNormalsChanged (vertexAt r).
Proof. intros s. unfold vertexAt. destruct (_ !! _); reflexivity. Qed.

Lemma edgeAt_onlyNormals r : stable onlyNormalsChanged (edgeAt r).
Proof. intros s. unfold edgeAt. destruct (_ !! _); reflexivity. Qed.

Lemma triangleAt_onlyNormals r : stable onlyNormalsChanged (triangleAt r).
Proof. intros s. unfold triangleAt. destruct (_ !! _); reflexivity. Qed.

Lemma quadAt_onlyNormals r : stable onlyNormalsChanged (quadAt r).
Proof. intros s. unfold quadAt. destruct (_ !! _); reflexivity. Qed.

Lemma updateVertex_onlyNormals r f :
  (forall v, Vertex_core (f v) = Vertex_core v) ->
  stable onlyNormalsChanged (updateVertex r f).
Proof.
  intros Hf m. unfold updateVertex, bind, vertexAt, modify. cbv beta.
  destruct (_ !! _) as [v|] eqn:Ev; simpl; [| reflexivity].
  unfold onlyNormalsChanged. simpl. split; [| repeat split].
  change (Vertex_core <$> <[r := f v]> (_vertices m) = Vertex_core <$> _vertices m).
  rewrite list_fmap_insert, Hf. apply list_insert_id.
  unfold VertexRef in *. rewrite list_lookup_fmap, Ev. reflexivity.
Qed.

Lemma updateEdge_onlyNormals r f : stable onlyNormalsChanged (updateEdge r f).
Proof.
  intros m. unfold updateEdge, bind, edgeAt, modify. cbv beta.
  destruct (_ !! _) as [e|]; simpl; [| reflexivity].
  onlyNormals_leaf.
Qed.

Lemma accumulateVertexNormal_onlyNormals r n :
  stable onlyNormalsChanged (accumulateVertexNormal r n).
Proof. apply updateVertex_onlyNormals. intros v. reflexivity. Qed.

#[local] Hint Resolve vertexAt_onlyNormals edgeAt_onlyNormals triangleAt_onlyNormals
  quadAt_onlyNormals updateEdge_onlyNormals accumulateVertexNormal_onlyNormals : stable_db.

Lemma computeState_onlyNormals : stable onlyNormalsChanged computeState.
Proof.
  unfold computeState, computeState_edges2D, computeState_triangles,
    computeState_quads, assertVerticesDiffer, accumulateEdgeNormal.
  stable_by ltac:(first [ onlyNormals_leaf
                        | apply updateVertex_onlyNormals; intros v; reflexivity ]).
Qed.

(** X14: whatever the normals are that the faces compute, and however a
    run of [computeState] ends, it changes of the vertices nothing but
    their normals: the mesh has the same number of vertices, and the vertex
    at every position has the coordinates, id, global index, owner flag and
    tagged flag it had.  The numbers of edges, triangles and quads, the
    data fields, the id managers, the name, the dimensionality, the flag
    and the bounding box are as before. *)
Theorem computeState_changes_only_normals (m : Mesh) :
  onlyNormalsChanged m (snd (computeState m)) /\
  length (_vertices (snd (computeState m))) = length (_vertices m) /\
  forall k v,
    _vertices m !! k = Some v ->
    exists v', _vertices (snd (computeState m)) !! k = Some v' /\
               Vertex_core v' = Vertex_core v.
Proof.
  pose proof (computeState_onlyNormals m) as Hframe.
  split; [exact Hframe |].
  destruct Hframe as (Hvs & _).
  split.
  - apply (f_equal length) in Hvs. rewrite !length_map in Hvs. exact Hvs.
  - intros k v Hk.
    assert (Hcore : (Vertex_core <$> _vertices (snd (computeState m))) !! k
                    = Some (Vertex_core v)).
    { change ((map Vertex_core (_vertices (snd (computeState m)))) !! k = Some (Vertex_core v)).
      rewrite Hvs. change ((Vertex_core <$> _vertices m) !! k = Some (Vertex_core v)).
      rewrite list_lookup_fmap, Hk. reflexivity. }
    rewrite list_lookup_fmap in Hcore.
    destruct (_vertices (snd (computeState m)) !! k) as [v'|]; [| discriminate].
    exists v'. split; [reflexivity |]. simpl in Hcore. congruence.
Qed.

End ComputeState.

(** ** The data fields of a mesh over its lifetime *)

#[local] Instance dataKept_preorder : PreOrder dataKept.
Proof.
  split.
  - intros m. split; reflexivity.
  - intros m1 m2 m3 [? ?] [? ?]. split; congruence.
Qed.

#[local] Instance dataGrows_preorder : PreOrder dataGrows.
Proof.
  split.
  - intros s. split; [reflexivity |]. split; [exists []; rewrite app_nil_r; reflexivity | auto].
  - intros s1 s2 s3 (Hn12 & [e12 He12] & Hd12) (Hn23 & [e23 He23] & Hd23).
    split; [congruence |]. split; [| auto].
    exists (e12 ++ e23). rewrite He23, He12, app_assoc. reflexivity.
Qed.

Lemma stable_weaken {St A} (R R' : St -> St -> Prop) (c : M St A) :
  (forall s s', R s s' -> R' s s') -> stable R c -> stable R' c.
Proof. intros Himp Hc s. apply Himp, Hc. Qed.

Lemma dataNames_signature (m : Mesh) :
  dataNames m = map (fun sg : string * Z * Z => fst (fst sg)) (map Data_signature (_data m)).
Proof. unfold dataNames. rewrite map_map. reflexivity. Qed.

Lemma dataKept_dataGrows (s s' : DataCount * Mesh) :
  dataKept (snd s) (snd s') -> dataGrows s s'.
Proof.
  intros [Hname Hsig]. split; [exact Hname |]. split.
  - exists []. rewrite app_nil_r. exact Hsig.
  - rewrite !dataNames_signature, Hsig. auto.
Qed.

Ltac dataKept_leaf := unfold dataKept; simpl; split; reflexivity.

Section DataKept.
Context `{MeshPrimitives}.

Lemma vertexAt_dataKept r : stable dataKept (vertexAt r).
Proof. intros s. unfold vertexAt. destruct (_ !! _); reflexivity. Qed.

Lemma edgeAt_dataKept r : stable dataKept (edgeAt r).
Proof. intros s. unfold edgeAt. destruct (_ !! _); reflexivity. Qed.

Lemma triangleAt_dataKept r : stable dataKept (triangleAt r).
Proof. intros s. unfold triangleAt. destruct (_ !! _); reflexivity. Qed.

Lemma quadAt_dataKept r : stable dataKept (quadAt r).
Proof. intros s. unfold quadAt. destruct (_ !! _); reflexivity. Qed.

#[local] Hint Resolve vertexAt_dataKept edgeAt_dataKept triangleAt_dataKept
  quadAt_dataKept : stable_db.

Lemma updateVertex_dataKept r f : stable dataKept (updateVertex r f).
Proof. unfold updateVertex. stable_by dataKept_leaf. Qed.

Lemma updateEdge_dataKept r f : stable dataKept (updateEdge r f).
Proof. unfold updateEdge. stable_by dataKept_leaf. Qed.

#[local] Hint Resolve updateVertex_dataKept updateEdge_dataKept : stable_db.

Lemma createVertex_dataKept coords : stable dataKept (createVertex coords).
Proof. unfold createVertex, getFreeVertexID. stable_by dataKept_leaf. Qed.

Lemma createEdge_dataKept v1 v2 : stable dataKept (createEdge v1 v2).
Proof. unfold createEdge, getFreeEdgeID. stable_by dataKept_leaf. Qed.

#[local] Hint Resolve createVertex_dataKept createEdge_dataKept : stable_db.

Lemma createUniqueEdge_dataKept v1 v2 : stable dataKept (createUniqueEdge v1 v2).
Proof. unfold createUniqueEdge. stable_by dataKept_leaf. Qed.

Lemma createTriangle_dataKept e1 e2 e3 : stable dataKept (createTriangle e1 e2 e3).
Proof. unfold createTriangle, getFreeTriangleID. stable_by dataKept_leaf. Qed.

#[local] Hint Resolve createTriangle_dataKept : stable_db.

Lemma createQuad_dataKept e1 e2 e3 e4 : stable dataKept (createQuad e1 e2 e3 e4).
Proof. unfold createQuad, getFreeQuadID. stable_by dataKept_leaf. Qed.

Lemma allocateDataValues_dataKept : stable dataKept allocateDataValues.
Proof.
  intros m. split; [reflexivity |]. simpl.
  rewrite map_map. apply map_ext. intros d. apply allocateDataValues_body_signature.
Qed.

Lemma computeBoundingBox_dataKept : stable dataKept computeBoundingBox.
Proof. unfold computeBoundingBox. stable_by dataKept_leaf. Qed.

Lemma clear_dataKept : stable dataKept clear.
Proof.
  intros m. split; [reflexivity |]. simpl.
  rewrite map_map. apply map_ext. intros d. reflexivity.
Qed.

Lemma computeState_dataKept : stable dataKept computeState.
Proof.
  unfold computeState, computeState_edges2D, computeState_triangles,
    computeState_quads, assertVerticesDiffer, accumulateVertexNormal,
    accumulateEdgeNormal.
  stable_by dataKept_leaf.
Qed.

Lemma addMesh_dataKept deltaMesh : stable dataKept (addMesh deltaMesh).
Proof.
  unfold addMesh, addMesh_vertex, addMesh_edge, addMesh_triangle,
    idOfVertexIn, idOfEdgeIn, mapAt.
  stable_by dataKept_leaf.
Qed.

Lemma forallb_names_fresh (name : string) (l : list Data) :
  forallb (fun data => negb (String.eqb (Data_getName data) name)) l = true ->
  ~ In name (map Data_getName l).
Proof.
  intros Hall Hin. apply in_map_iff in Hin as (d & Hd & Hin).
  rewrite forallb_forall in Hall. specialize (Hall d Hin).
  rewrite <- Hd, String.eqb_refl in Hall. discriminate.
Qed.

Lemma forallb_names_taken (name : string) (l : list Data) :
  In name (map Data_getName l) ->
  forallb (fun data => negb (String.eqb (Data_getName data) name)) l = false.
Proof.
  intros Hin. destruct (forallb _ l) eqn:Hall; [| reflexivity].
  exfalso. exact (forallb_names_fresh name l Hall Hin).
Qed.

Lemma createData_dataGrows name dimension : stable dataGrows (createData name dimension).
Proof.
  intros [count m]. rewrite createData_run.
  destruct (forallb _ _) eqn:Hfresh; [| reflexivity].
  destruct (0 <? dimension); [| reflexivity].
  unfold dataGrows. simpl. split; [reflexivity |]. split.
  - eexists. rewrite List.map_app. reflexivity.
  - intros Hnd. unfold dataNames. simpl. rewrite List.map_app. simpl.
    apply NoDup_app. split; [exact Hnd |]. split; [| apply NoDup_singleton].
    intros x Hx Hname. apply list_elem_of_singleton in Hname. subst x.
    apply list_elem_of_In in Hx. exact (forallb_names_fresh name _ Hfresh Hx).
Qed.

Lemma onSnd_dataGrows {A} (c : M Mesh A) :
  stable dataKept c -> stable dataGrows (onSnd (S1 := DataCount) c).
Proof.
  intros Hc. apply (stable_weaken (fun s s' => dataKept (snd s) (snd s'))).
  - apply dataKept_dataGrows.
  - exact (stable_onSnd dataKept c Hc).
Qed.

Lemma call_dataGrows (c : MeshCall) : stable dataGrows (call c).
Proof.
  destruct c; simpl;
    try (apply onSnd_dataGrows; try (apply discard_dims; [exact _ |])).
  - apply createVertex_dataKept.
  - apply createEdge_dataKept.
  - apply createUniqueEdge_dataKept.
  - apply createTriangle_dataKept.
  - apply createQuad_dataKept.
  - apply discard_dims; [exact _ | apply createData_dataGrows].
  - apply allocateDataValues_dataKept.
  - apply clear_dataKept.
  - apply addMesh_dataKept.
  - apply computeState_dataKept.
  - apply computeBoundingBox_dataKept.
Qed.

Lemma calls_dataGrows (cs : list MeshCall) : stable dataGrows (calls cs).
Proof. unfold calls. apply stable_forEach; [exact _ | apply call_dataGrows]. Qed.

(** X15: over any sequence of calls of the operations of a mesh
    ([createVertex], [createEdge], [createUniqueEdge], [createTriangle],
    [createQuad], [createData], [allocateDataValues], [clear], [addMesh],
    [computeState], [computeBoundingBox]), however the run ends, no data
    field is removed, moved or renamed: the mesh keeps its name, and at
    every position of the data container that held a field there is
    afterwards a field with the same name, id and dimension.  Not even
    [clear] removes a data field. *)
Theorem data_fields_stay (cs : list MeshCall) (s : DataCount * Mesh) :
  _name (snd (snd (calls cs s))) = _name (snd s) /\
  forall k d,
    _data (snd s) !! k = Some d ->
    exists d', _data (snd (snd (calls cs s))) !! k = Some d' /\
               Data_signature d' = Data_signature d.
Proof.
  destruct (calls_dataGrows cs s) as (Hname & [extra Hextra] & _).
  split; [exact Hname |].
  intros k d Hk.
  assert (Hsig : (Data_signature <$> _data (snd (snd (calls cs s)))) !! k
                 = Some (Data_signature d)).
  { change ((map Data_signature (_data (snd (snd (calls cs s))))) !! k
            = Some (Data_signature d)).
    rewrite Hextra. apply lookup_app_l_Some.
    change ((Data_signature <$> _data (snd s)) !! k = Some (Data_signature d)).
    rewrite list_lookup_fmap, Hk. reflexivity. }
  rewrite list_lookup_fmap in Hsig.
  destruct (_data (snd (snd (calls cs s))) !! k) as [d'|]; [| discriminate].
  exists d'. split; [reflexivity |]. simpl in Hsig. congruence.
Qed.

(** X16: a name under which [createData] created a data field stays taken:
    after any sequence of calls of the operations of the mesh, however it
    ends, [createData] with that name aborts with the error message that
    names the field and the mesh, and leaves the counter and the mesh as
    they are. *)
Theorem createData_name_stays_taken (name : string) (dimension dimension' : Z)
  (s s1 : DataCount * Mesh) (r : DataRef) (cs : list MeshCall) :
  createData name dimension s = (Done r, s1) ->
  createData name dimension' (snd (calls cs s1)) =
    (FatalError (createData_message name (_name (snd s))), snd (calls cs s1)).
Proof.
  intros Hrun. destruct s as [count m]. rewrite createData_run in Hrun.
  destruct (forallb _ _); [| discriminate].
  destruct (0 <? dimension); [| discriminate].
  injection Hrun as _ <-.
  set (s1 := (count + 1, set_data (_data m ++ [mkData [] name count dimension]) m)).
  destruct (calls_dataGrows cs s1) as (Hname & [extra Hextra] & _).
  destruct (snd (calls cs s1)) as [count2 m2] eqn:Es2. simpl in Hname, Hextra.
  rewrite createData_run, Hname.
  rewrite forallb_names_taken; [reflexivity |].
  change (In name (dataNames m2)). rewrite dataNames_signature, Hextra.
  rewrite !List.map_app. simpl. apply in_or_app. left. apply in_or_app. right. left. reflexivity.
Qed.

(** X17: if no two data fields of a mesh have the same name, this stays so
    over any sequence of calls of the operations of the mesh, however the
    run ends. *)
Theorem data_names_stay_distinct (cs : list MeshCall) (s : DataCount * Mesh) :
  NoDup (dataNames (snd s)) ->
  NoDup (dataNames (snd (snd (calls cs s)))).
Proof.
  intros Hnd. destruct (calls_dataGrows cs s) as (_ & _ & Hkeep). exact (Hkeep Hnd).
Qed.

End DataKept.

Lemma createData_name_stays_taken_witness :
  exists s1,
    createData "Pressure" 1 (8, sampleQuadMesh) = (Done 1%nat, s1) /\
    fst (createData "Pressure" 3
           (snd (calls (H := samplePrimitives)
                   [Call_clear; Call_createVertex [0; 0; 0]%float; Call_allocateDataValues] s1)))
    = FatalError (createData_message "Pressure" "Mesh").
Proof.
  destruct (createData "Pressure" 1 (8, sampleQuadMesh)) as [o s1] eqn:Erun.
  assert (Ho : o = Done 1%nat) by (vm_compute in Erun; congruence).
  subst o. exists s1. split; [reflexivity |].
  rewrite (createData_name_stays_taken (H := samplePrimitives) "Pressure" 1 3
             (8, sampleQuadMesh) s1 1%nat _ Erun).
  reflexivity.
Defined.

Lemma data_names_stay_distinct_witness :
  NoDup (dataNames (snd (snd (calls (H := samplePrimitives)
                                [Call_createData "Pressure" 1; Call_clear;
                                 Call_createData "Forces" 3]
                                (8, sampleQuadMesh))))).
Proof.
  apply (data_names_stay_distinct (H := samplePrimitives)).
  simpl. apply NoDup_singleton.
Defined.

(** ** Allocating, then reading the owned values *)

Lemma findFrom_map {A B} (f : A -> B) (p : B -> bool) (l : list A) (pos : nat) :
  findFrom p (map f l) pos = findFrom (fun x => p (f x)) l pos.
Proof.
  revert pos. induction l as [|x l IH]; intros pos; simpl.
  - reflexivity.
  - rewrite IH. reflexivity.
Qed.

Section AllocateThenRead.
Context `{MeshPrimitives}.

Lemma Mesh_data_after_allocate (m : Mesh) (dataID : Z) :
  fst (Mesh_data dataID (snd (allocateDataValues m))) = fst (Mesh_data dataID m).
Proof.
  rewrite !Mesh_data_run. simpl. rewrite findFrom_map.
  rewrite (findFrom_ext _ (fun d => Data_getID d =? dataID)).
  - destruct (findFrom _ _ _); reflexivity.
  - intros d.
    pose proof (allocateDataValues_body_signature
                  (to_size_t (Z.of_nat (length (_vertices m)))) d) as Hsig.
    unfold Data_signature in Hsig. injection Hsig as _ -> _. reflexivity.
Qed.

(** X18: after [allocateDataValues], on a mesh whose sizes fit the integer
    types, [getOwnedVertexData] returns for every data id that the mesh
    has, and the result has one block of as many values as the dimension
    of the field for every vertex that is an owner. *)
Theorem allocateDataValues_then_getOwnedVertexData (m : Mesh) (dataID : Z)
  (r : DataRef) (d : Data) :
  Forall (Data_inRange (length (_vertices m))) (_data m) ->
  fst (Mesh_data dataID m) = Done r ->
  _data m !! r = Some d ->
  Z.of_nat (length (_vertices m)) <= INT_MAX ->
  Z.of_nat (length (_vertices m)) * Data_getDimensions d <= INT_MAX ->
  exists m' ownedData,
    allocateDataValues m = (Done tt, m') /\
    getOwnedVertexData dataID m' = (Done ownedData, m') /\
    Z.of_nat (length ownedData)
      = Z.of_nat (length (owners (_vertices m))) * Data_getDimensions d.
Proof.
  intros Hrange Hfind Hd Hmax Hmax'. unfold DataRef in *.
  assert (Hin : Data_inRange (length (_vertices m)) d).
  { rewrite List.Forall_forall in Hrange. apply Hrange.
    apply list_elem_of_In. eapply list_elem_of_lookup_2. exact Hd. }
  set (n := to_size_t (Z.of_nat (length (_vertices m)))).
  pose proof (allocateDataValues_body_length _ d Hin) as Hlen. fold n in Hlen.
  pose proof (allocateDataValues_body_signature n d) as Hsig.
  unfold Data_signature in Hsig. injection Hsig as _ _ Hdims.
  destruct Hin as (Hdim & _ & _).
  assert (Hlen' : length (Data_values (allocateDataValues_body n d))
                  = (length (_vertices m) * Z.to_nat (Data_getDimensions d))%nat) by nia.
  exists (snd (allocateDataValues m)),
         (ownedValues (Z.to_nat (Data_getDimensions d)) (_vertices m)
            (Data_values (allocateDataValues_body n d))).
  split; [reflexivity |]. split.
  - rewrite <- Hdims at 1.
    apply (getOwnedVertexData_run (snd (allocateDataValues m)) dataID r
             (allocateDataValues_body n d)).
    + rewrite Mesh_data_after_allocate. exact Hfind.
    + simpl. change (map (allocateDataValues_body n) (_data m) !! r
                     = Some (allocateDataValues_body n d)).
      change ((allocateDataValues_body n <$> _data m) !! r
              = Some (allocateDataValues_body n d)).
      rewrite list_lookup_fmap, Hd. reflexivity.
    + rewrite Hdims. exact Hdim.
    + rewrite Hlen. exact Hmax'.
    + simpl. rewrite Hdims. exact Hlen'.
    + exact Hmax.
  - rewrite ownedValues_length by exact Hlen'. nia.
Qed.

End AllocateThenRead.

Lemma allocateDataValues_then_getOwnedVertexData_witness :
  exists m' ownedData,
    allocateDataValues (H := samplePrimitives) sampleMeshWithData = (Done tt, m') /\
    getOwnedVertexData 0 m' = (Done ownedData, m') /\
    Z.of_nat (length ownedData) = 6.
Proof.
  destruct (allocateDataValues_then_getOwnedVertexData (H := samplePrimitives)
              sampleMeshWithData 0 0%nat (mkData (repeat 1%float 10) "Forces" 0 3))
    as (m' & ownedData & Hrun & Hread & Hlen).
  - unfold Data_inRange, fitsIndex. simpl.
    repeat (constructor; [simpl; lia |]). constructor.
  - reflexivity.
  - reflexivity.
  - vm_compute. discriminate.
  - vm_compute. discriminate.
  - exists m', ownedData. split; [exact Hrun |]. split; [exact Hread | exact Hlen].
Defined.

(** ** [createEdge] against [createUniqueEdge] *)

Lemma findFrom_app_true {A} (p : A -> bool) (l : list A) (x : A) (pos : nat) :
  p x = true ->
  exists r, findFrom p (l ++ [x]) pos = Some r /\
            (pos <= r <= pos + length l)%nat /\
            (r = (pos + length l)%nat <-> findFrom p l pos = None).
Proof.
  intros Hx. revert pos. induction l as [|y l IH]; intros pos; simpl.
  - rewrite Hx. exists pos. split; [reflexivity |]. split; [lia |].
    split; [reflexivity | intros _; lia].
  - destruct (p y).
    + exists pos. split; [reflexivity |]. split; [lia |].
      split; [intros Hr; lia | discriminate].
    + destruct (IH (S pos)) as (r & Hr & Hle & Hiff).
      exists r. split; [exact Hr |]. split; [lia |].
      rewrite <- Hiff. split; intros; lia.
Qed.

(** X19: [createEdge] on two vertices of a mesh always adds one edge, from
    the first to the second vertex, behind the edges the mesh has, with
    the id from the id manager, whether or not the mesh has an edge
    between these vertices; vertices, triangles, quads and data stay.  On a
    mesh whose edges refer to its vertices, [createUniqueEdge] on the same
    vertices, in either order, then returns an edge the mesh has and
    changes nothing; it returns the edge just created exactly when no
    older edge joins the two vertices. *)
Theorem createEdge_then_createUniqueEdge (m : Mesh) (v1 v2 : VertexRef) (a b : Z) :
  vertexID m v1 = Some a ->
  vertexID m v2 = Some b ->
  edgesValid m ->
  exists (r : EdgeRef) (m' : Mesh),
    createEdge v1 v2 m = (Done r, m') /\
    r = length (_edges m) /\
    _edges m' = _edges m ++ [Edge_ctor v1 v2 (_manageEdgeIDs m) (_dimensions m)] /\
    (_vertices m' = _vertices m /\ _triangles m' = _triangles m /\
     _quads m' = _quads m /\ _data m' = _data m) /\
    forall w1 w2, (w1 = v1 /\ w2 = v2) \/ (w1 = v2 /\ w2 = v1) ->
      exists r' : EdgeRef,
        createUniqueEdge w1 w2 m' = (Done r', m') /\
        (r' <= r)%nat /\
        (r' = r <-> forall e0, In e0 (_edges m) -> ~ joins m a b e0).
Proof.
  intros Ha Hb Hvalid.
  set (e := Edge_ctor v1 v2 (_manageEdgeIDs m) (_dimensions m)).
  exists (length (_edges m)), (appendEdges [e] m).
  split; [apply createEdge_run |]. split; [reflexivity |].
  split; [reflexivity |]. split; [repeat split |].
  set (m' := appendEdges [e] m).
  assert (Hv : _vertices m' = _vertices m) by reflexivity.
  assert (Hvalid' : edgesValid m').
  { unfold edgesValid. rewrite Hv. simpl. apply Forall_app. split; [exact Hvalid |].
    constructor; [| constructor]. simpl. unfold vertexID in Ha, Hb.
    split.
    - destruct (_vertices m !! v1); [eexists; reflexivity | discriminate].
    - destruct (_vertices m !! v2); [eexists; reflexivity | discriminate]. }
  assert (Hje : joinsb m a b e = true) by (apply joinsb_new_edge; assumption).
  assert (Hswap : forall x, joinsb m b a x = joinsb m a b x).
  { intros x. destruct (joinsb m a b x) eqn:Ex.
    - apply joinsb_joins. apply joinsb_joins in Ex as (c & d & Hc & Hd & Hp).
      exists c, d. repeat split; try assumption.
      etransitivity; [exact Hp | apply perm_swap].
    - destruct (joinsb m b a x) eqn:Ey; [| reflexivity].
      apply joinsb_joins in Ey as (c & d & Hc & Hd & Hp).
      assert (Hj : joinsb m a b x = true).
      { apply joinsb_joins. exists c, d. repeat split; try assumption.
        etransitivity; [exact Hp | apply perm_swap]. }
      congruence. }
  assert (Hnone : findFrom (joinsb m a b) (_edges m) 0 = None
                  <-> forall e0, In e0 (_edges m) -> ~ joins m a b e0).
  { rewrite findFrom_None. split.
    - intros Hall e0 Hin Hj. apply joinsb_joins in Hj. rewrite (Hall e0 Hin) in Hj.
      discriminate.
    - intros Hall e0 Hin. destruct (joinsb m a b e0) eqn:Ej; [| reflexivity].
      exfalso. apply (Hall e0 Hin). apply joinsb_joins. exact Ej. }
  destruct (findFrom_app_true (joinsb m a b) (_edges m) e 0 Hje) as (r' & Hr' & Hle & Hiff).
  intros w1 w2 [[-> ->]|[-> ->]]; exists r'.
  - rewrite (createUniqueEdge_run m' v1 v2 a b Ha Hb Hvalid').
    rewrite (findFrom_ext (joinsb m' a b) (joinsb m a b))
      by (intros x; apply joinsb_same_vertices; exact Hv).
    simpl _edges. rewrite Hr'. split; [reflexivity |]. split; [lia |].
    rewrite <- Hnone, <- Hiff. reflexivity.
  - rewrite (createUniqueEdge_run m' v2 v1 b a Hb Ha Hvalid').
    rewrite (findFrom_ext (joinsb m' b a) (joinsb m a b))
      by (intros x; rewrite (joinsb_same_vertices m m') by exact Hv; apply Hswap).
    simpl _edges. rewrite Hr'. split; [reflexivity |]. split; [lia |].
    rewrite <- Hnone, <- Hiff. reflexivity.
Qed.

Lemma createEdge_then_createUniqueEdge_witness :
  exists m',
    createEdge 1 0 sampleTriangleMesh = (Done 4%nat, m') /\
    createUniqueEdge 0 1 m' = (Done 0%nat, m').
Proof.
  assert (Hvalid : edgesValid sampleTriangleMesh).
  { unfold edgesValid. simpl. repeat constructor; simpl; eexists; reflexivity. }
  destruct (createEdge_then_createUniqueEdge sampleTriangleMesh 1%nat 0%nat 1 0
              eq_refl eq_refl Hvalid)
    as (r & m' & Hrun & -> & _ & _ & Hunique).
  exists m'. split; [exact Hrun |].
  destruct (Hunique 0%nat 1%nat (or_intror (conj eq_refl eq_refl))) as (r' & Hrun' & _ & _).
  rewrite Hrun'. f_equal. f_equal.
  vm_compute in Hrun. injection Hrun as <-.
  vm_compute in Hrun'. injection Hrun' as <-. reflexivity.
Defined.

(** ** [addMesh] keeps the references of a mesh valid *)

Lemma is_Some_app_l {A} (l k : list A) (i : nat) :
  is_Some (l !! i) -> is_Some ((l ++ k) !! i).
Proof. intros [x Hx]. exists x. apply lookup_app_l_Some. exact Hx. Qed.

Lemma is_Some_app_r {A} (l k : list A) (j : nat) :
  (j < length k)%nat -> is_Some ((l ++ k) !! (length l + j)%nat).
Proof.
  intros Hj. apply lookup_lt_is_Some. rewrite length_app. lia.
Qed.

Section AddMeshValid.
Context `{MeshPrimitives}.

(** X20: when [addMesh] returns on a mesh whose edges refer to vertices of
    the mesh and whose triangles refer to edges of the mesh, the same holds
    of the resulting mesh: the copied edges refer to copied vertices and
    the copied triangles to copied edges, and no reference dangles. *)
Theorem addMesh_keeps_references_valid (m deltaMesh m' : Mesh) :
  edgesValid m ->
  trianglesValid m ->
  addMesh deltaMesh m = (Done tt, m') ->
  edgesValid m' /\ trianglesValid m'.
Proof.
  intros Hev Htv Hrun. unfold addMesh in Hrun.
  apply bind_Done in Hrun as (m0 & m1 & Hget & Hrun).
  apply get_Done in Hget as [-> ->].
  apply bind_Done in Hrun as ([] & m1 & Hassert & Hrun).
  apply assert_Done in Hassert as [Hdim ->].
  apply bind_Done in Hrun as (vertexMap & m1 & Hvs & Hrun).
  apply (addMesh_vertices_Done _ [] (length (_vertices m))) in Hvs;
    [| simpl; lia | intros id r Hr; rewrite lookup_empty in Hr; discriminate].
  destruct Hvs as [-> Hvmap]. simpl in Hvmap.
  apply bind_Done in Hrun as (edgeMap & m2 & Hes & Hrun).
  apply (addMesh_edges_Done _ _ _ _ Hvmap [] (length (_edges m))) in Hes;
    [| simpl; lia | intros id r Hr; rewrite lookup_empty in Hr; discriminate].
  destruct Hes as (newEdges & -> & Hedges & Hemap). simpl in Hemap.
  set (copies := imap (fun k v => copiedVertex (_manageVertexIDs m + Z.of_nat k) v)
                      (_vertices deltaMesh)) in *.
  assert (Hcopies : length copies = length (_vertices deltaMesh))
    by (unfold copies; apply length_imap).
  assert (HnewEdges : length newEdges = length (_edges deltaMesh))
    by (symmetry; eapply Forall2_length; exact Hedges).
  assert (Hvref : forall r0 r, vertexCopyRef deltaMesh (length (_vertices m)) r0 r ->
                    is_Some ((_vertices m ++ copies) !! r)).
  { intros r0 r (w & u & j & _ & Hj & _ & ->).
    apply is_Some_app_r. rewrite Hcopies. eapply lookup_lt_Some. exact Hj. }
  assert (Heref : forall r0 r, edgeCopyRef deltaMesh (length (_edges m)) r0 r ->
                    is_Some ((_edges m ++ newEdges) !! r)).
  { intros r0 r (w & u & j & _ & Hj & _ & ->).
    apply is_Some_app_r. rewrite HnewEdges. eapply lookup_lt_Some. exact Hj. }
  assert (Hev' : Forall (fun e => is_Some ((_vertices m ++ copies) !! Edge_vertex0 e) /\
                                  is_Some ((_vertices m ++ copies) !! Edge_vertex1 e))
                        (_edges m ++ newEdges)).
  { apply Forall_app. split.
    - eapply List.Forall_impl; [| exact Hev].
      intros e [H0 H1]. split; apply is_Some_app_l; assumption.
    - clear -Hedges Hvref. induction Hedges as [|e f l k [H0 H1] _ IH]; constructor.
      + split; [exact (Hvref _ _ H0) | exact (Hvref _ _ H1)].
      + exact IH. }
  assert (Htv' : Forall (fun t => is_Some ((_edges m ++ newEdges) !! Triangle_edge0 t) /\
                                  is_Some ((_edges m ++ newEdges) !! Triangle_edge1 t) /\
                                  is_Some ((_edges m ++ newEdges) !! Triangle_edge2 t))
                        (_triangles m)).
  { eapply List.Forall_impl; [| exact Htv].
    intros t (H0 & H1 & H2). repeat split; apply is_Some_app_l; assumption. }
  destruct (Z.eqb_spec (_dimensions m) 3) as [H3|H3].
  - apply (addMesh_triangles_Done _ _ _ _ Hemap) in Hrun
      as (newTriangles & -> & Htriangles).
    split; [exact Hev' |].
    unfold trianglesValid. simpl. apply Forall_app. split; [exact Htv' |].
    clear -Htriangles Heref.
    induction Htriangles as [|t t' l k (H0 & H1 & H2) _ IH]; constructor.
    + repeat split; [exact (Heref _ _ H0) | exact (Heref _ _ H1) | exact (Heref _ _ H2)].
    + exact IH.
  - apply ret_Done in Hrun as [_ ->].
    split; [exact Hev' | exact Htv'].
Qed.

End AddMeshValid.

Lemma addMesh_keeps_references_valid_witness :
  exists m',
    addMesh (H := samplePrimitives) sampleDeltaMesh sampleTriangleMesh = (Done tt, m') /\
    edgesValid m' /\ trianglesValid m'.
Proof.
  destruct (addMesh (H := samplePrimitives) sampleDeltaMesh sampleTriangleMesh)
    as [o m'] eqn:Erun.
  assert (Ho : o = Done tt) by (vm_compute in Erun; congruence).
  subst o. exists m'. split; [reflexivity |].
  apply (addMesh_keeps_references_valid (H := samplePrimitives)
           sampleTriangleMesh sampleDeltaMesh m').
  - unfold edgesValid. simpl. repeat constructor; simpl; eexists; reflexivity.
  - unfold trianglesValid. simpl. repeat constructor; simpl; eexists; reflexivity.
  - exact Erun.
Defined.

(** ** The quad convexity routine needs three coordinates *)

Lemma coordsOf_run {St} (m : Mesh) (id : Z) (c : VectorXd) (s : St) :
  coordsAt m id c ->
  (length c = 3%nat /\ exists p, coordsOf m id s = (Done p, s)) \/
  (length c <> 3%nat /\ coordsOf m id s = (AssertionFailed, s)).
Proof.
  intros (Hpos & v & Hv & <-). unfold coordsOf.
  destruct (Z.ltb_spec id 0) as [Hneg|_]; [lia |].
  rewrite Hv. unfold toVector3d.
  destruct (Vertex_getCoords v) as [|x [|y [|z [|? ?]]]]; simpl;
    try (right; split; [discriminate | reflexivity]).
  left. split; [reflexivity | eexists; reflexivity].
Qed.

(** X21: [computeQuadConvexityFromPoints] on the ids of four vertices of
    the mesh of which one does not have three coordinates (as every vertex
    of a mesh of dimension 2) fails the size assertion of the fixed-size
    vectors it reads the coordinates into, whatever the coordinates are;
    the array is left as it was. *)
Theorem computeQuadConvexityFromPoints_needs_three_coordinates (m : Mesh) (fuel : nat)
  (id0 id1 id2 id3 : Z) (c0 c1 c2 c3 : VectorXd) :
  coordsAt m id0 c0 -> coordsAt m id1 c1 -> coordsAt m id2 c2 -> coordsAt m id3 c3 ->
  ~ (length c0 = 3%nat /\ length c1 = 3%nat /\ length c2 = 3%nat /\ length c3 = 3%nat) ->
  computeQuadConvexityFromPoints m fuel [id0; id1; id2; id3]
  = (AssertionFailed, [id0; id1; id2; id3]).
Proof.
  intros H0 H1 H2 H3 Hnot.
  unfold computeQuadConvexityFromPoints.
  unfold bind at 1, readID at 1. cbn [lookup list_lookup].
  unfold bind at 1, readID at 1. cbn [lookup list_lookup].
  unfold bind at 1, readID at 1. cbn [lookup list_lookup].
  unfold bind at 1, readID at 1. cbn [lookup list_lookup].
  unfold bind at 1.
  destruct (coordsOf_run m id0 c0 [id0; id1; id2; id3] H0) as [[L0 [p0 ->]]|[_ ->]];
    [| reflexivity].
  unfold bind at 1.
  destruct (coordsOf_run m id1 c1 [id0; id1; id2; id3] H1) as [[L1 [p1 ->]]|[_ ->]];
    [| reflexivity].
  unfold bind at 1.
  destruct (coordsOf_run m id2 c2 [id0; id1; id2; id3] H2) as [[L2 [p2 ->]]|[_ ->]];
    [| reflexivity].
  unfold bind at 1.
  destruct (coordsOf_run m id3 c3 [id0; id1; id2; id3] H3) as [[L3 [p3 ->]]|[_ ->]];
    [| reflexivity].
  exfalso. apply Hnot. repeat split; assumption.
Qed.

Lemma computeQuadConvexityFromPoints_needs_three_coordinates_witness :
  computeQuadConvexityFromPoints sampleFlatMesh 5 [0; 1; 2; 3]
  = (AssertionFailed, [0; 1; 2; 3]).
Proof.
  apply (computeQuadConvexityFromPoints_needs_three_coordinates sampleFlatMesh 5 0 1 2 3
           [0; 0]%float [1; 0]%float [1; 1]%float [0; 1]%float).
  - split; [lia | eexists; split; reflexivity].
  - split; [lia | eexists; split; reflexivity].
  - split; [lia | eexists; split; reflexivity].
  - split; [lia | eexists; split; reflexivity].
  - intros (H0 & _). discriminate H0.
Defined.
